(** * dt: DNSSEC chain validation

    A shallow embedding of the DNSSEC part of the [dt] DNS tool
    ([main.go] and the [scan] package's validation file) together with the
    properties of its chain validator.

    The program talks to the network and reads the wall clock.  Both are
    kept as explicit parameters of the development (an exchange oracle and a
    clock), and every function that performs such an effect lives in a small
    state monad that records the exchanges made and the number of clock
    readings.  A Go run-time panic (failed type assertion, nil dereference)
    is a separate outcome of that monad.  *)

From Stdlib Require Import ZArith String Ascii List Bool Lia.
From stdpp Require Import gmap.
Import ListNotations.

Local Open Scope Z_scope.

(** ** DNS data (the part of [github.com/miekg/dns] the program reads) *)

(** [net.IP]; the program only ever uses its [String()] form. *)
Definition IP := string.

Record RR_Header := mkHeader {
  Name : string;
  Rrtype : Z;      (* uint16 *)
  Class : Z;       (* uint16 *)
  Ttl : Z          (* uint32 *)
}.

Record DNSKEY := mkDNSKEY {
  Flags : Z;       (* uint16 *)
  Protocol : Z;    (* uint8 *)
  Algorithm : Z;   (* uint8 *)
  PublicKey : string
}.

Record DS := mkDS {
  DS_KeyTag : Z;       (* uint16 *)
  DS_Algorithm : Z;    (* uint8 *)
  DigestType : Z;      (* uint8 *)
  Digest : string
}.

Record RRSIG := mkRRSIG {
  TypeCovered : Z;     (* uint16 *)
  Sig_Algorithm : Z;   (* uint8 *)
  Labels : Z;          (* uint8 *)
  OrigTtl : Z;         (* uint32 *)
  Expiration : Z;      (* uint32 *)
  Inception : Z;       (* uint32 *)
  Sig_KeyTag : Z;      (* uint16 *)
  SignerName : string;
  Signature : string
}.

(** The concrete record types behind the [dns.RR] interface; a type switch
    or type assertion in the source is a match on [RData]. *)
Inductive RData :=
| D_NS (Ns : string)
| D_A (A : IP)
| D_AAAA (AAAA : IP)
| D_DNSKEY (key : DNSKEY)
| D_DS (ds : DS)
| D_RRSIG (sig : RRSIG)
| D_Other.

Record RR := mkRR { Hdr : RR_Header; Data : RData }.

Record Msg := mkMsg { Answer : list RR }.

Definition TypeA : Z := 1.
Definition TypeNS : Z := 2.
Definition TypeAAAA : Z := 28.
Definition TypeDS : Z := 43.
Definition TypeRRSIG : Z := 46.
Definition TypeDNSKEY : Z := 48.

(** ** Types of the program *)

Record NSInfo := mkNSInfo { NS_Name : string; NS_IP : list IP }.

Record KeyInfo := mkKeyInfo { Start : Z; End_ : Z }.

(** [structs.KeyInfo{}] *)
Definition emptyKeyInfo : KeyInfo := mkKeyInfo 0 0.

(** [structs.Response]; [Resp_Msg] is [None] for a nil [*dns.Msg]. *)
Record Response := mkResponse { Resp_Msg : option Msg }.

(** Go error values.  The program builds them with [fmt.Errorf]; there is
    one constructor per message, named after the failure it reports. *)
Inductive error :=
| TransportError (detail : string)
    (* whatever c.Exchange returned *)
| NoAnswer (qtype : Z)
    (* "no rr for %#v" *)
| NoNameservers
    (* "no NS found" *)
| InconsistentKeys
    (* "validation failed. DNSKEY with same keytag differ" *)
| NoDNSKEY (domain nsip : string)
    (* "validation failed. No DNSKEY found for %s on %s" *)
| DNSKEYValidationFailed (domain : string)
    (* "validation failed. RRSIG on DNSKEY could not be validated by any DNSKEY for %s" *)
| NoDS (domain nsip : string)
    (* "validation failed. No DS records found for %s on %v" *)
| NoMatchingKeyTag (domain parent : string)
    (* "validation failed. No DNSKEY in %s found that matches DS in %s" *)
| ChainFailed.
    (* "validateChain failed. Run with -debug for more information" *)

(** ** Time *)

(** [time.Time] as seconds since the Unix epoch plus nanoseconds. *)
Record Time := mkTime { unixSec : Z; nsec : Z }.

(** [t.IsZero()]: the instant January 1, year 1, 00:00:00 UTC. *)
Definition IsZero (t : Time) : bool :=
  (unixSec t =? -62135596800) && (nsec t =? 0).

(** [t.UTC().Unix()] *)
Definition Unix (t : Time) : Z := unixSec t.

(** ** Effects: the network, the clock, panics *)

(** What a run did, newest event first: the wire exchanges with their
    replies, and the entries into the DS phase ([validateParentDS]) with the
    key map handed to it. *)
Inductive Event :=
| EvExchange (q : string) (qtype : Z) (server : string) (sec : bool)
             (reply : Msg + string)
| EvEnterParentDS (domain : string) (keyMap : gmap Z DNSKEY).

Record St := mkSt {
  ticks : nat;           (* number of clock readings so far *)
  trace : list Event
}.

Inductive outcome (A : Type) :=
| Returns (a : A) (s : St)
| Panics (s : St).
Arguments Returns {A} a s.
Arguments Panics {A} s.

Definition M (A : Type) := St -> outcome A.

Definition ret {A} (a : A) : M A := fun s => Returns a s.

Definition bind {A B} (m : M A) (f : A -> M B) : M B :=
  fun s => match m s with
           | Returns a s' => f a s'
           | Panics s' => Panics s'
           end.

Definition panic {A} : M A := fun s => Panics s.

Notation "'let*' p ':=' m 'in' k" := (bind m (fun p => k))
  (at level 10, p pattern, m at level 100, k at level 200).

Definition logEvent (e : Event) : M unit :=
  fun s => Returns tt (mkSt (ticks s) (e :: trace s)).


(** The outside world of one run: the wall clock, the network, and the
    functions of the DNS library whose code is not part of the program. *)
Record World := mkWorld {
  (** [clock n] is what the [n]-th call of [time.Now()] returns. *)
  clock : nat -> Time;
  (** [c.Exchange] for the question [(q, qtype, IN)] sent to [server]:53,
      with or without the DNSSEC options; the reply may depend on everything
      exchanged before.  [inr] is a failure at the wire layer. *)
  Exchange : list Event -> string -> Z -> string -> bool -> Msg + string;
  (** [key.KeyTag()] *)
  KeyTag : DNSKEY -> Z;
  (** [key.ToDS(digestType)]; [None] is the nil result. *)
  ToDS : DNSKEY -> Z -> option DS;
  (** [dns.IsRRset] *)
  IsRRset : list RR -> bool;
  (** what [sig.Verify(key, rrset)] decides for a signature that exists
      and a well-formed record set: [true] is a nil error. *)
  verifySig : RRSIG -> DNSKEY -> list RR -> bool;
  (** [sig.ValidityPeriod(t)] *)
  ValidityPeriod : RRSIG -> Time -> bool
}.

(** [time.Now()] *)
Definition Now (w : World) : M Time :=
  fun s => Returns (clock w (ticks s)) (mkSt (S (ticks s)) (trace s)).

(** One wire exchange, recorded in the trace. *)
Definition exchange (w : World) (q : string) (qtype : Z) (server : string)
    (sec : bool) : M (Msg + string) :=
  fun s =>
    let r := Exchange w (trace s) q qtype server sec in
    Returns r (mkSt (ticks s) (EvExchange q qtype server sec r :: trace s)).

(** ** The DNS library *)

Module dns.

(** The loop of [dns.NextLabel]: [s] is what is left of the string from
    index [i] on; the loop runs while [i < len(s)-1], that is, while at
    least two bytes are left. *)
Fixpoint NextLabel_loop (s : string) (i : nat) (quote : bool) : nat * bool :=
  match s with
  | EmptyString => (S i, true)
  | String c rest =>
      match rest with
      | EmptyString => (S i, true)
      | String _ _ =>
          if Ascii.eqb c "\"%char then NextLabel_loop rest (S i) (negb quote)
          else if Ascii.eqb c "."%char then
                 if quote then NextLabel_loop rest (S i) false
                 else (S i, false)
          else NextLabel_loop rest (S i) false
      end
  end.

(** [s[i:]] *)
Fixpoint drop_prefix (i : nat) (s : string) : string :=
  match i, s with
  | O, _ => s
  | S i', String _ rest => drop_prefix i' rest
  | S _, EmptyString => EmptyString
  end.

(** [dns.NextLabel(s, offset)]: the index of the start of the next label,
    and whether the end of the string has been reached.  A dot preceded by
    a backslash does not end a label. *)
Definition NextLabel (s : string) (offset : nat) : nat * bool :=
  NextLabel_loop (drop_prefix offset s) offset false.

Inductive VerifyResult := VerifyOk | VerifyErr | VerifyPanic.

(** [sig.Verify(key, rrset)] on a possibly nil [sig].  The library first
    rejects a record set that is not an RRset, without looking at the
    receiver; everything after that reads the receiver's fields, which
    faults on a nil pointer. *)
Definition Verify (w : World) (sig : option RRSIG) (key : DNSKEY)
    (rrset : list RR) : VerifyResult :=
  if negb (IsRRset w rrset) then VerifyErr
  else match sig with
       | None => VerifyPanic
       | Some sg => if verifySig w sg key rrset then VerifyOk else VerifyErr
       end.

End dns.

(** ** main.go *)

Module Main.

Definition resolver : string := "8.8.8.8".

Definition extractRR (rrset : list RR) (qtype : Z) : list RR :=
  List.filter (fun rr => Rrtype (Hdr rr) =? qtype) rrset.

Definition query (w : World) (q : string) (qtype : Z) (server : string)
    (sec : bool) : M (option Msg * option error) :=
  let* r := exchange w q qtype server sec in
  match r with
  | inr e => ret (None, Some (TransportError e))
  | inl m => ret (Some m, None)
  end.

Definition queryRRset (w : World) (q : string) (qtype : Z) (server : string)
    (sec : bool) : M (list RR * option error) :=
  let* (res, err) := query w q qtype server sec in
  match err, res with
  | Some e, _ => ret ([], Some e)
  | None, None => panic            (* res.Answer on a nil message *)
  | None, Some m =>
      let rrset := extractRR (Answer m) qtype in
      if (length rrset =? 0)%nat then ret ([], Some (NoAnswer qtype))
      else ret (rrset, None)
  end.

Fixpoint getIP_loop (rrset : list RR) (ips : list IP) : list IP :=
  match rrset with
  | [] => ips
  | rr :: rest =>
      match Data rr with
      | D_A a => getIP_loop rest (ips ++ [a])
      | D_AAAA a => getIP_loop rest (ips ++ [a])
      | _ => getIP_loop rest ips
      end
  end.

Definition getIP (w : World) (host : string) (qtype : Z) (server : string)
    : M (list IP) :=
  let* (rrset, err) := queryRRset w host qtype server false in
  match err with
  | Some _ => ret []
  | None => ret (getIP_loop rrset [])
  end.

Fixpoint findNS_loop (w : World) (rrset : list RR) (nsinfos : list NSInfo)
    : M (list NSInfo) :=
  match rrset with
  | [] => ret nsinfos
  | rr :: rest =>
      match Data rr with
      | D_NS ns =>
          let* ips4 := getIP w ns TypeA resolver in
          let* ips6 := getIP w ns TypeAAAA resolver in
          findNS_loop w rest (nsinfos ++ [mkNSInfo ns (([] ++ ips4) ++ ips6)])
      | _ => panic                 (* rr.( *dns.NS) on another record type *)
      end
  end.

Definition findNS (w : World) (domain : string)
    : M (list NSInfo * option error) :=
  let* (rrset, err) := queryRRset w domain TypeNS resolver false in
  match err with
  | Some _ => ret ([], None)
  | None =>
      let* nsinfos := findNS_loop w rrset [] in
      if (length nsinfos =? 0)%nat then ret (nsinfos, Some NoNameservers)
      else ret (nsinfos, None)
  end.

Definition getParentDomain (domain : string) : string :=
  let (i, end_) := dns.NextLabel domain 0 in
  if negb end_ then dns.drop_prefix i domain else ".".

End Main.

(** ** 64-bit integers *)

(** Go's [int64]: results wrap around modulo [2^64]. *)
Definition wrap64 (z : Z) : Z := (z + 2^63) mod 2^64 - 2^63.

Definition sub64 (a b : Z) : Z := wrap64 (a - b).
Definition add64 (a b : Z) : Z := wrap64 (a + b).
Definition mul64 (a b : Z) : Z := wrap64 (a * b).
(** Go's [/] on integers truncates toward zero. *)
Definition div64 (a b : Z) : Z := wrap64 (Z.quot a b).

(** ** The validation file of the [scan] package *)

(** How a loop body ends: with a [return] of the enclosing function, or by
    going on with the loop's variables. *)
Inductive ctl (R S : Type) :=
| Return_ (r : R)
| Go (s : S).
Arguments Return_ {R S} r.
Arguments Go {R S} s.

Module Scan.

(** Modelled from the spec: the [query] of the [scan] package, whose file
    is not among the sources.  It is the transport of spec 4.1, as
    [query] of main.go, with the reply in a [structs.Response] whose
    message stays nil when the exchange failed. *)
Definition query (w : World) (q : string) (qtype : Z) (server : string)
    (sec : bool) : M (Response * option error) :=
  let* (res, err) := Main.query w q qtype server sec in
  ret (mkResponse res, err).

(** Modelled from the spec: the [FindNS] method of the [scan] package,
    whose file is not among the sources.  It is the NS discovery of
    spec 4.2, as [findNS] of main.go. *)
Definition FindNS (w : World) (domain : string)
    : M (list NSInfo * option error) :=
  Main.findNS w domain.

(** The [scan] package's own copy is not among the sources; main.go's is. *)
Definition getParentDomain : string -> string := Main.getParentDomain.

(** The first loop of [validateRRSIG]: the last RRSIG of the set, if any,
    and the other records in their order. *)
Fixpoint splitRRSIG (rrset : list RR) (sig : option RRSIG)
    (cleanset : list RR) : option RRSIG * list RR :=
  match rrset with
  | [] => (sig, cleanset)
  | v :: rest =>
      match Data v with
      | D_RRSIG sg => splitRRSIG rest (Some sg) cleanset
      | _ => splitRRSIG rest sig (cleanset ++ [v])
      end
  end.

Definition year68 : Z := 2^31.

(** The arithmetic of [explicitValid] once the time has been read. *)
Definition explicitValid_at (utc : Z) (rr : RRSIG) : Z * Z :=
  let modi := div64 (sub64 (Inception rr) utc) year68 in
  let mode := div64 (sub64 (Expiration rr) utc) year68 in
  let ti := add64 (Inception rr) (mul64 modi year68) in
  let te := add64 (Expiration rr) (mul64 mode year68) in
  (ti, te).

(** The Unix time [explicitValid] works with: one reading of the clock,
    and a second one if the first is the zero instant. *)
Definition explicitValid_utc (w : World) : M Z :=
  let* t := Now w in
  if IsZero t then
    let* t' := Now w in ret (Unix t')
  else ret (Unix t).

Definition explicitValid (w : World) (rr : RRSIG) : M (Z * Z) :=
  let* utc := explicitValid_utc w in
  ret (explicitValid_at utc rr).

(** The second loop of [validateRRSIG], over the candidate keys. *)
Fixpoint validateRRSIG_keys (w : World) (sig : option RRSIG)
    (cleanset : list RR) (keys : list RR)
    : M (bool * KeyInfo * option error) :=
  match keys with
  | [] => ret (false, emptyKeyInfo, None)
  | k :: rest =>
      match Data k with
      | D_DNSKEY key =>
          match dns.Verify w sig key cleanset, sig with
          | dns.VerifyPanic, _ => panic
          | dns.VerifyOk, Some sg =>
              let* (ti, te) := explicitValid w sg in
              let* t := Now w in
              if ValidityPeriod w sg t
              then ret (true, mkKeyInfo ti te, None)
              else validateRRSIG_keys w sig cleanset rest
          | dns.VerifyOk, None => panic
          | dns.VerifyErr, _ => validateRRSIG_keys w sig cleanset rest
          end
      | _ => validateRRSIG_keys w sig cleanset rest
      end
  end.

Definition validateRRSIG (w : World) (keys : list RR) (rrset : list RR)
    : M (bool * KeyInfo * option error) :=
  if (length rrset =? 0)%nat then ret (false, emptyKeyInfo, None)
  else
    let (sig, cleanset) := splitRRSIG rrset None [] in
    validateRRSIG_keys w sig cleanset keys.

Definition validateDNSKEY (w : World) (keys : list RR)
    : M (bool * KeyInfo * option error) :=
  validateRRSIG w keys keys.

(** The loop of [LookupDNSKEY] over the answer section.  The key map is a
    Go map, updated in place: the map as it stands is part of the result
    on every path. *)
Fixpoint LookupDNSKEY_loop (w : World) (answers : list RR) (found : bool)
    (keyMap : gmap Z DNSKEY) : ctl error bool * gmap Z DNSKEY :=
  match answers with
  | [] => (Go found, keyMap)
  | a :: rest =>
      match Data a with
      | D_DNSKEY key =>
          match keyMap !! KeyTag w key with
          | Some exist_ =>
              if negb (String.eqb (PublicKey key) (PublicKey exist_))
              then (Return_ InconsistentKeys, keyMap)
              else LookupDNSKEY_loop w rest true (<[KeyTag w key := key]> keyMap)
          | None =>
              LookupDNSKEY_loop w rest true (<[KeyTag w key := key]> keyMap)
          end
      | _ => LookupDNSKEY_loop w rest found keyMap
      end
  end.

Definition LookupDNSKEY (w : World) (domain : string) (nsip : string)
    (keyMap : gmap Z DNSKEY)
    : M (Response * option error * gmap Z DNSKEY) :=
  let* (res, err) := query w domain TypeDNSKEY nsip true in
  match err with
  | Some _ => ret (res, None, keyMap)
  | None =>
      match Resp_Msg res with
      | None => panic
      | Some m =>
          match LookupDNSKEY_loop w (Answer m) false keyMap with
          | (Return_ e, keyMap') => ret (res, Some e, keyMap')
          | (Go found, keyMap') =>
              if negb found
              then ret (res, Some (NoDNSKEY domain nsip), keyMap')
              else ret (res, None, keyMap')
          end
      end
  end.

(** The loop of [validateParentDS] over the DS answers of one server,
    carrying [foundKeyTag]. *)
Fixpoint validateParentDS_answers (w : World) (keyMap : gmap Z DNSKEY)
    (answers : list RR) (foundKeyTag : bool)
    : ctl (bool * option error) bool :=
  match answers with
  | [] => Go foundKeyTag
  | a :: rest =>
      match Data a with
      | D_DS parentDS =>
          match keyMap !! DS_KeyTag parentDS with
          | None => validateParentDS_answers w keyMap rest foundKeyTag
          | Some key =>
              if DigestType parentDS =? 3
              then validateParentDS_answers w keyMap rest foundKeyTag
              else
                match ToDS w key (DigestType parentDS) with
                | Some childDS =>
                    if String.eqb (Digest parentDS) (Digest childDS)
                    then validateParentDS_answers w keyMap rest true
                    else Return_ (false, None)
                | None => validateParentDS_answers w keyMap rest true
                end
          end
      | _ => validateParentDS_answers w keyMap rest foundKeyTag
      end
  end.

(** The loop over the addresses of one parent nameserver; a failed query
    leaves the loop ([break]). *)
Fixpoint validateParentDS_ips (w : World) (domain : string)
    (keyMap : gmap Z DNSKEY) (ips : list IP) (foundKeyTag : bool)
    : M (ctl (bool * option error) bool) :=
  match ips with
  | [] => ret (Go foundKeyTag)
  | nsip :: rest =>
      let* (res, err) := query w domain TypeDS nsip true in
      match err with
      | Some _ => ret (Go foundKeyTag)
      | None =>
          match Resp_Msg res with
          | None => panic
          | Some m =>
              if (length (Answer m) =? 0)%nat
              then ret (Return_ (false, Some (NoDS domain nsip)))
              else
                match validateParentDS_answers w keyMap (Answer m) foundKeyTag with
                | Return_ r => ret (Return_ r)
                | Go found => validateParentDS_ips w domain keyMap rest found
                end
          end
      end
  end.

(** The loop over the parent's nameservers. *)
Fixpoint validateParentDS_nss (w : World) (domain : string)
    (keyMap : gmap Z DNSKEY) (nsdata : list NSInfo) (foundKeyTag : bool)
    : M (ctl (bool * option error) bool) :=
  match nsdata with
  | [] => ret (Go foundKeyTag)
  | ns :: rest =>
      let* r := validateParentDS_ips w domain keyMap (NS_IP ns) foundKeyTag in
      match r with
      | Return_ r => ret (Return_ r)
      | Go found => validateParentDS_nss w domain keyMap rest found
      end
  end.

Definition validateParentDS (w : World) (domain : string)
    (keyMap : gmap Z DNSKEY) : M (bool * option error) :=
  let* _ := logEvent (EvEnterParentDS domain keyMap) in
  let* (nsdata, _) := FindNS w (getParentDomain domain) in
  let* r := validateParentDS_nss w domain keyMap nsdata false in
  match r with
  | Return_ r => ret r
  | Go foundKeyTag =>
      if negb foundKeyTag
      then ret (false, Some (NoMatchingKeyTag domain (getParentDomain domain)))
      else ret (true, None)
  end.

(** The loop of [validateDomain] over the addresses of one nameserver. *)
Fixpoint validateDomain_ips (w : World) (domain : string) (ips : list IP)
    (keyMap : gmap Z DNSKEY)
    : M (ctl (bool * option error) (gmap Z DNSKEY)) :=
  match ips with
  | [] => ret (Go keyMap)
  | nsip :: rest =>
      let* (res, err, keyMap') := LookupDNSKEY w domain nsip keyMap in
      match err with
      | Some e => ret (Return_ (false, Some e))
      | None =>
          match Resp_Msg res with
          | None => validateDomain_ips w domain rest keyMap'
          | Some m =>
              let* (valid, _, _) := validateDNSKEY w (Answer m) in
              if valid then validateDomain_ips w domain rest keyMap'
              else ret (Return_ (false, Some (DNSKEYValidationFailed domain)))
          end
      end
  end.

(** The loop of [validateDomain] over the zone's nameservers. *)
Fixpoint validateDomain_nss (w : World) (domain : string)
    (nsdata : list NSInfo) (keyMap : gmap Z DNSKEY)
    : M (ctl (bool * option error) (gmap Z DNSKEY)) :=
  match nsdata with
  | [] => ret (Go keyMap)
  | ns :: rest =>
      let* r := validateDomain_ips w domain (NS_IP ns) keyMap in
      match r with
      | Return_ r => ret (Return_ r)
      | Go keyMap' => validateDomain_nss w domain rest keyMap'
      end
  end.

Definition validateDomain (w : World) (domain : string)
    : M (bool * option error) :=
  let keyMap : gmap Z DNSKEY := ∅ in
  let* (nsdata, _) := FindNS w domain in
  let* r := validateDomain_nss w domain nsdata keyMap in
  match r with
  | Return_ r => ret r
  | Go keyMap' =>
      let* _ := FindNS w (getParentDomain domain) in
      validateParentDS w domain keyMap'
  end.

(** The loop of [validateChain].  Go's [for] has no bound; [fuel] is the
    number of iterations the model is allowed, [None] means it ran out. *)
Fixpoint validateChain_loop (w : World) (fuel : nat) (domain : string)
    : St -> option (outcome (bool * option error)) :=
  fun s =>
  match fuel with
  | O => None
  | S fuel' =>
      match validateDomain w domain s with
      | Panics s' => Some (Panics s')
      | Returns (valid, err) s' =>
          match err with
          | Some e => Some (Returns (false, Some e) s')
          | None =>
              if negb valid then Some (Returns (false, Some ChainFailed) s')
              else
                let parent := getParentDomain domain in
                if String.eqb parent "." then Some (Returns (true, None) s')
                else validateChain_loop w fuel' parent s'
          end
      end
  end.

(** [validateChain]: one iteration per byte of the name is always enough
    (see [validateChain_loop_fuel]). *)
Definition validateChain (w : World) (domain : string)
    : M (bool * option error) :=
  fun s =>
    match validateChain_loop w (S (String.length domain)) domain s with
    | Some r => r
    | None => Panics s
    end.

End Scan.

(** ** Domain names in presentation form *)

(** Scanning a label: [None] when a dot that is not escaped is met,
    otherwise whether the label ends in the middle of an escape. *)
Fixpoint label_scan (l : string) (quote : bool) : option bool :=
  match l with
  | EmptyString => Some quote
  | String c rest =>
      if Ascii.eqb c "\"%char then label_scan rest (negb quote)
      else if Ascii.eqb c "."%char then
             if quote then label_scan rest false else None
      else label_scan rest false
  end.

(** A label: every dot in it is escaped and no escape is left open. *)
Definition is_label (l : string) : Prop := label_scan l false = Some false.

Fixpoint present_labels (ls : list string) : string :=
  match ls with
  | [] => EmptyString
  | l :: rest => (l ++ String "."%char (present_labels rest))%string
  end.

(** The fully qualified name made of the labels [ls], leftmost first,
    followed by the root label: ["."] for the root itself. *)
Definition present (ls : list string) : string :=
  match ls with
  | [] => "."%string
  | _ => present_labels ls
  end.

(** Number of labels of [present ls], the root label included. *)
Definition labelCount (ls : list string) : nat := S (length ls).

(** ** Notions used about the signature verifier *)

(** [v.( *dns.RRSIG)] succeeds. *)
Definition isRRSIG (r : RR) : bool :=
  match Data r with
  | D_RRSIG _ => true
  | _ => false
  end.

(** One of the two numbers of [explicitValid], without wrap-around. *)
Definition canon (utc serial : Z) : Z :=
  serial + Z.quot (serial - utc) (2^31) * 2^31.

(** ** Runs and their traces *)

Definition final {A} (o : outcome A) : St :=
  match o with
  | Returns _ s => s
  | Panics s => s
  end.

(** An exchange of NS discovery: with the recursive resolver, without the
    DNSSEC options, for NS, A or AAAA records. *)
Definition is_resolver_ev (ev : Event) : Prop :=
  match ev with
  | EvExchange _ qtype server sec _ =>
      server = "8.8.8.8"%string /\ sec = false /\
      (qtype = TypeNS \/ qtype = TypeA \/ qtype = TypeAAAA)
  | EvEnterParentDS _ _ => False
  end.

(** [k] came back in an answer to a DNSKEY query for [domain]. *)
Definition received (domain : string) (evs : list Event) (k : DNSKEY) : Prop :=
  exists srv m r,
    In (EvExchange domain TypeDNSKEY srv true (inl m)) evs /\
    In r (Answer m) /\ Data r = D_DNSKEY k.

(** The key map holds, under the tag of [k], a key with the public key
    of [k]. *)
Definition represented (w : World) (keyMap : gmap Z DNSKEY) (k : DNSKEY) : Prop :=
  exists k', keyMap !! KeyTag w k = Some k' /\ PublicKey k' = PublicKey k.

(** A DS record that the DS phase compares and finds different: its key
    tag is in the key map, its digest type is not 3, the digest of the
    child key can be derived and differs. *)
Definition mismatching (w : World) (keyMap : gmap Z DNSKEY) (r : RR) : Prop :=
  exists parentDS key childDS,
    Data r = D_DS parentDS /\
    keyMap !! DS_KeyTag parentDS = Some key /\
    DigestType parentDS <> 3 /\
    ToDS w key (DigestType parentDS) = Some childDS /\
    Digest parentDS <> Digest childDS.

(** A DNSKEY query, and a DS query, of the zone validator for [domain]. *)
Definition is_dnskey_exchange (domain : string) (ev : Event) : Prop :=
  exists srv r, ev = EvExchange domain TypeDNSKEY srv true r.

Definition is_ds_exchange (domain : string) (ev : Event) : Prop :=
  exists srv r, ev = EvExchange domain TypeDS srv true r.

(** The run [o], started in [st], added events that all satisfy [P]. *)
Definition adds (P : Event -> Prop) {A} (st : St) (o : outcome A) : Prop :=
  exists evs, trace (final o) = evs ++ trace st /\ Forall P evs.

(** Any two keys received under one key tag have the same public key. *)
Definition consistent (w : World) (domain : string) (evs : list Event) : Prop :=
  forall k1 k2,
    received domain evs k1 -> received domain evs k2 ->
    KeyTag w k1 = KeyTag w k2 -> PublicKey k1 = PublicKey k2.

(** An answer to a DS query for [domain] held a mismatching record. *)
Definition ds_mismatch_received (w : World) (keyMap : gmap Z DNSKEY)
    (domain : string) (evs : list Event) : Prop :=
  exists srv m r,
    In (EvExchange domain TypeDS srv true (inl m)) evs /\
    In r (Answer m) /\ mismatching w keyMap r.

(** Every DS record received for [domain] whose key tag is in the key map
    has digest type 3. *)
Definition ds_all_type3 (keyMap : gmap Z DNSKEY) (domain : string)
    (evs : list Event) : Prop :=
  forall srv m r ds key,
    In (EvExchange domain TypeDS srv true (inl m)) evs ->
    In r (Answer m) -> Data r = D_DS ds ->
    keyMap !! DS_KeyTag ds = Some key -> DigestType ds = 3.

(** No answer to a DS query for [domain] had an empty answer section. *)
Definition ds_none_empty (domain : string) (evs : list Event) : Prop :=
  forall srv m,
    In (EvExchange domain TypeDS srv true (inl m)) evs -> Answer m <> [].

(** The events show nothing of the DS phase: no entry into
    [validateParentDS], no DS query. *)
Definition no_ds_phase (evs : list Event) : Prop :=
  forall ev, In ev evs ->
    match ev with
    | EvEnterParentDS _ _ => False
    | EvExchange _ qtype _ _ _ => qtype <> TypeDS
    end.

(** What the DNSKEY phase guarantees after the events [evs]: a key map
    that represents every key received, or the inconsistency error, or
    else (another failure, a fault) keys that were consistent. *)
Definition dnskey_phase_post (w : World) (domain : string)
    (o : outcome (ctl (bool * option error) (gmap Z DNSKEY)))
    (evs : list Event) : Prop :=
  match o with
  | Returns (Go keyMap') _ =>
      forall k, received domain evs k -> represented w keyMap' k
  | Returns (Return_ r) _ =>
      r = (false, Some InconsistentKeys) \/ consistent w domain evs
  | Panics _ => consistent w domain evs
  end.

(** What the loops of the DS phase guarantee after the events [evs],
    started with the flag [found]: a mismatch received ends them with
    [(false, nil)]; if all matching DS records had digest type 3 the flag
    is as it was, unless an empty answer ended the loops; and without an
    empty answer they do not end with that failure. *)
Definition ds_loop_post (w : World) (keyMap : gmap Z DNSKEY) (domain : string)
    (found : bool) (c : ctl (bool * option error) bool)
    (evs : list Event) : Prop :=
  (ds_mismatch_received w keyMap domain evs -> c = Return_ (false, None)) /\
  (ds_all_type3 keyMap domain evs ->
     c = Go found \/ exists nsip, c = Return_ (false, Some (NoDS domain nsip))) /\
  (ds_none_empty domain evs ->
     forall nsip, c <> Return_ (false, Some (NoDS domain nsip))).

(** Outcomes of [validateDomain] in the DS phase. *)
Definition ds_phase_post (w : World) (keyMap : gmap Z DNSKEY) (domain : string)
    (o : outcome (bool * option error)) (evs : list Event) : Prop :=
  (ds_mismatch_received w keyMap domain evs ->
     exists st', o = Returns (false, None) st') /\
  (ds_all_type3 keyMap domain evs ->
     forall res st', o = Returns res st' ->
       res = (false, Some (NoMatchingKeyTag domain (Scan.getParentDomain domain))) \/
       exists nsip, res = (false, Some (NoDS domain nsip))) /\
  (ds_all_type3 keyMap domain evs -> ds_none_empty domain evs ->
     forall res st', o = Returns res st' ->
       res = (false, Some (NoMatchingKeyTag domain (Scan.getParentDomain domain)))).

(** Events that are not a DS query, not a DNSKEY query, not an entry into
    the DS phase. *)
Definition not_ds_query (ev : Event) : Prop :=
  forall d srv r, ev <> EvExchange d TypeDS srv true r.

Definition not_dnskey_query (ev : Event) : Prop :=
  forall d srv r, ev <> EvExchange d TypeDNSKEY srv true r.

Definition not_enter (ev : Event) : Prop :=
  forall d km, ev <> EvEnterParentDS d km.

(** ** A test bed: simulated resolver, nameservers and library *)

Module Fixture.

Definition fx_KeyTag (k : DNSKEY) : Z :=
  (Flags k + Z.of_nat (String.length (PublicKey k))) mod 65536.

Definition fx_ToDS (k : DNSKEY) (digestType : Z) : option DS :=
  if (digestType =? 1) || (digestType =? 2) || (digestType =? 4)
  then Some (mkDS (fx_KeyTag k) (Algorithm k) digestType
                  ("H(" ++ PublicKey k ++ ")")%string)
  else None.

Definition same_header (h1 h2 : RR_Header) : bool :=
  (Rrtype h1 =? Rrtype h2) && (Class h1 =? Class h2) &&
  String.eqb (Name h1) (Name h2).

Definition fx_IsRRset (rrset : list RR) : bool :=
  match rrset with
  | [] => false
  | r :: rest => forallb (fun r' => same_header (Hdr r') (Hdr r)) rest
  end.

Definition fx_verifySig (sg : RRSIG) (k : DNSKEY) (rrset : list RR) : bool :=
  (Sig_KeyTag sg =? fx_KeyTag k) && String.eqb (Signature sg) (PublicKey k).

(** The library's [ValidityPeriod]: the same two numbers as
    [explicitValid], and the time between them. *)
Definition fx_ValidityPeriod (sg : RRSIG) (t : Time) : bool :=
  let utc := Unix t in
  let (ti, te) := Scan.explicitValid_at utc sg in
  (ti <=? utc) && (utc <=? te).

(** A clock that stands still at 2023-11-14 22:13:20 UTC. *)
Definition fx_clock (n : nat) : Time := mkTime 1700000000 0.

Definition Table := list (string * Z * string * (Msg + string)).

Fixpoint fx_lookup (t : Table) (q : string) (qtype : Z) (server : string)
    : Msg + string :=
  match t with
  | [] => inr "i/o timeout"%string
  | (q', qtype', server', reply) :: rest =>
      if String.eqb q q' && (qtype =? qtype') && String.eqb server server'
      then reply else fx_lookup rest q qtype server
  end.

Definition world_of (t : Table) : World :=
  mkWorld fx_clock (fun _ q qtype server _ => fx_lookup t q qtype server)
          fx_KeyTag fx_ToDS fx_IsRRset fx_verifySig fx_ValidityPeriod.

Definition st0 : St := mkSt 0 [].

Definition rr (name : string) (rrtype : Z) (d : RData) : RR :=
  mkRR (mkHeader name rrtype 1 3600) d.

Definition keyA : DNSKEY := mkDNSKEY 257 3 8 "AAAA".
Definition keyB : DNSKEY := mkDNSKEY 257 3 8 "BBBB".

(** A signature over the DNSKEY set of [zone] made with [k], valid from
    [inception] to [expiration]. *)
Definition sigBy (zone : string) (k : DNSKEY) (inception expiration : Z) : RRSIG :=
  mkRRSIG TypeDNSKEY 8 2 3600 expiration inception (fx_KeyTag k) zone
          (PublicKey k).

Definition zone : string := "example.test.".
Definition ns1 : string := "ns1.example.test.".
Definition ns2 : string := "ns2.example.test.".
Definition ip1 : string := "192.0.2.1".
Definition ip2 : string := "192.0.2.2".
Definition pns1 : string := "a.nic.test.".
Definition pns2 : string := "b.nic.test.".
Definition pip1 : string := "192.0.2.53".
Definition pip2 : string := "192.0.2.54".

Definition answer (rrs : list RR) : Msg + string := inl (mkMsg rrs).

(** What the recursive resolver knows: two nameservers for the zone and
    two for its parent, one address each. *)
Definition delegation : Table :=
  [ (zone, TypeNS, Main.resolver,
       answer [rr zone TypeNS (D_NS ns1); rr zone TypeNS (D_NS ns2)]);
    (ns1, TypeA, Main.resolver, answer [rr ns1 TypeA (D_A ip1)]);
    (ns2, TypeA, Main.resolver, answer [rr ns2 TypeA (D_A ip2)]);
    ("test."%string, TypeNS, Main.resolver,
       answer [rr "test." TypeNS (D_NS pns1); rr "test." TypeNS (D_NS pns2)]);
    (pns1, TypeA, Main.resolver, answer [rr pns1 TypeA (D_A pip1)]);
    (pns2, TypeA, Main.resolver, answer [rr pns2 TypeA (D_A pip2)]) ].

(** A signed DNSKEY answer with key [k]. *)
Definition dnskeyAnswer (k : DNSKEY) (inception expiration : Z) : Msg + string :=
  answer [rr zone TypeDNSKEY (D_DNSKEY k);
          rr zone TypeRRSIG (D_RRSIG (sigBy zone k inception expiration))].

Definition dsAnswer (keyTag digestType : Z) (digest : string) : Msg + string :=
  answer [rr zone TypeDS (D_DS (mkDS keyTag 8 digestType digest))].

(** The zone's DNSKEY set signed with [keyA]: a window that is open at
    the time of the clock, one that closed long ago, and one whose
    expiration is the largest 32-bit serial. *)
Definition signedSet (inception expiration : Z) : list RR :=
  [rr zone TypeDNSKEY (D_DNSKEY keyA);
   rr zone TypeRRSIG (D_RRSIG (sigBy zone keyA inception expiration))].

Definition goodSet : list RR := signedSet 1600000000 1800000000.
Definition staleSet : list RR := signedSet 1500000000 1600000000.
Definition longSet : list RR := signedSet 1600000000 4294967295.

(** A world with the delegation only. *)
Definition plain : World := world_of delegation.

(** A clock that moves: its first two readings fall before the window of
    [goodSet] opens, the later ones inside it. *)
Definition fx_clock_moving (n : nat) : Time :=
  if Nat.ltb n 2 then mkTime 1500000000 0 else mkTime 1700000000 0.

(** The world [plain] with the moving clock. *)
Definition opening : World :=
  mkWorld fx_clock_moving
          (fun _ q qtype server _ => fx_lookup delegation q qtype server)
          fx_KeyTag fx_ToDS fx_IsRRset fx_verifySig fx_ValidityPeriod.

(** The DNSKEY record of [keyA] in the zone. *)
Definition keyRecordA : RR := rr zone TypeDNSKEY (D_DNSKEY keyA).

(** The zone and its parent, both servers of each answering alike: the
    DNSKEY set signed with [keyA], and the DS the parent publishes. *)
Definition served (key1 key2 : option DNSKEY) (ds1 ds2 : Msg + string) : Table :=
  delegation ++
  match key1 with
  | Some k => [(zone, TypeDNSKEY, ip1, dnskeyAnswer k 1600000000 1800000000)]
  | None => []
  end ++
  match key2 with
  | Some k => [(zone, TypeDNSKEY, ip2, dnskeyAnswer k 1600000000 1800000000)]
  | None => []
  end ++
  [ (zone, TypeDS, pip1, ds1); (zone, TypeDS, pip2, ds2) ].

Definition matchingDS : Msg + string := dsAnswer (fx_KeyTag keyA) 2 "H(AAAA)".
Definition alteredDS : Msg + string := dsAnswer (fx_KeyTag keyA) 2 "H(AAAB)".
Definition gostDS : Msg + string := dsAnswer (fx_KeyTag keyA) 3 "gost".

(** Scenario (a): everything in order. *)
Definition signedZone : World :=
  world_of (served (Some keyA) (Some keyA) matchingDS matchingDS).

(** Scenario (b): the parent publishes a DS with an altered last byte. *)
Definition alteredDigest : World :=
  world_of (served (Some keyA) (Some keyA) alteredDS alteredDS).

(** Scenario (e): the two servers of the zone hold different keys with the
    same key tag. *)
Definition disagree : World :=
  world_of (served (Some keyA) (Some keyB) matchingDS matchingDS).

(** The first server of the zone does not answer DNSKEY queries. *)
Definition oneDown : World :=
  world_of (served None (Some keyA) matchingDS matchingDS).

(** The first parent server publishes a GOST DS only, the second answers
    with an empty answer section. *)
Definition gostThenEmpty : World :=
  world_of (served (Some keyA) (Some keyA) gostDS (answer [])).

(** Both parent servers publish a GOST DS only. *)
Definition gostOnly : World :=
  world_of (served (Some keyA) (Some keyA) gostDS gostDS).

(** The key map of the zone when both of its servers hold [keyA]. *)
Definition keyMapA : gmap Z DNSKEY := <[fx_KeyTag keyA := keyA]> ∅.

End Fixture.

(** ** Notions used about the other functions *)

(** The address an A or AAAA record carries. *)
Definition addrOf (rr : RR) : list IP :=
  match Data rr with
  | D_A a => [a]
  | D_AAAA a => [a]
  | _ => []
  end.

(** The nameserver name an NS record carries. *)
Definition nsNameOf (rr : RR) : list string :=
  match Data rr with
  | D_NS ns => [ns]
  | _ => []
  end.

(** [k.( *dns.DNSKEY)] succeeds. *)
Definition isDNSKEY (r : RR) : bool :=
  match Data r with
  | D_DNSKEY _ => true
  | _ => false
  end.

(** A DS record the DS phase takes into account: its key tag is in the
    key map and its digest type is not 3. *)
Definition compared (keyMap : gmap Z DNSKEY) (r : RR) : Prop :=
  exists ds key,
    Data r = D_DS ds /\ keyMap !! DS_KeyTag ds = Some key /\
    DigestType ds <> 3.

(** An answer to a DS query for [domain] held a record taken into
    account. *)
Definition ds_compared_received (keyMap : gmap Z DNSKEY) (domain : string)
    (evs : list Event) : Prop :=
  exists srv m r,
    In (EvExchange domain TypeDS srv true (inl m)) evs /\
    In r (Answer m) /\ compared keyMap r.

(** Every entry of the key map is a key received, stored under its own
    key tag. *)
Definition sourced (w : World) (domain : string) (keyMap : gmap Z DNSKEY)
    (evs : list Event) : Prop :=
  forall t k, keyMap !! t = Some k -> KeyTag w k = t /\ received domain evs k.

(** The errors [validateDomain] builds itself. *)
Definition zone_error (domain : string) (e : error) : Prop :=
  e = InconsistentKeys \/
  (exists nsip, e = NoDNSKEY domain nsip) \/
  e = DNSKEYValidationFailed domain \/
  (exists nsip, e = NoDS domain nsip) \/
  e = NoMatchingKeyTag domain (Scan.getParentDomain domain).

(** Going through the exchanges of a concrete trace. *)
Ltac each_exchange Hin :=
  vm_compute in Hin;
  repeat (destruct Hin as [Hin|Hin]; [try discriminate Hin|]);
  try (match type of Hin with False => destruct Hin end).

(** * Properties *)

(** ** Parent derivation and the chain walker's loop *)

Lemma drop_prefix_app (l rest : string) :
  dns.drop_prefix (String.length l) (l ++ rest)%string = rest.
Proof. induction l as [|c l IH]; simpl; auto. Qed.

Lemma drop_prefix_app_cons (l : string) (a : ascii) (rest : string) :
  dns.drop_prefix (S (String.length l)) (l ++ String a rest)%string = rest.
Proof. induction l as [|c l IH]; simpl; auto. Qed.

Lemma drop_prefix_length (j : nat) (s : string) :
  (j <= String.length s)%nat ->
  String.length (dns.drop_prefix j s) = (String.length s - j)%nat.
Proof.
  revert s; induction j as [|j IH]; intros s Hj; simpl.
  - lia.
  - destruct s as [|c s]; simpl in *; [lia|]. apply IH. lia.
Qed.

(** One turn of the loop of [dns.NextLabel], when at least two bytes are
    left. *)
Lemma NextLabel_loop_step (a : ascii) (s : string) (i : nat) (q : bool) :
  s <> EmptyString ->
  dns.NextLabel_loop (String a s) i q =
  if Ascii.eqb a "\"%char then dns.NextLabel_loop s (S i) (negb q)
  else if Ascii.eqb a "."%char then
         if q then dns.NextLabel_loop s (S i) false else (S i, false)
  else dns.NextLabel_loop s (S i) false.
Proof. destruct s; [congruence | reflexivity]. Qed.

Lemma append_dot_nonempty (l rest : string) :
  (l ++ String "."%char rest)%string <> EmptyString.
Proof. destruct l; discriminate. Qed.

(** A label followed by a dot and at least one more byte: the scan stops
    right after that dot. *)
Lemma NextLabel_loop_label_more (l : string) :
  forall i q c rest,
    label_scan l q = Some false ->
    dns.NextLabel_loop (l ++ String "."%char (String c rest))%string i q
    = (S (i + String.length l), false).
Proof.
  induction l as [|a l IH]; intros i q c rest Hl; simpl in Hl.
  - inversion Hl; subst q. simpl. f_equal. lia.
  - change ((String a l ++ String "." (String c rest))%string)
      with (String a (l ++ String "." (String c rest))%string).
    rewrite NextLabel_loop_step by apply append_dot_nonempty.
    destruct (Ascii.eqb a "\"%char).
    { rewrite IH by exact Hl. simpl. f_equal. lia. }
    destruct (Ascii.eqb a "."%char).
    { destruct q; [|discriminate Hl].
      rewrite IH by exact Hl. simpl. f_equal. lia. }
    rewrite IH by exact Hl. simpl. f_equal. lia.
Qed.

(** A label followed by the final dot: the scan reaches the end. *)
Lemma NextLabel_loop_label_last (l : string) :
  forall i q,
    label_scan l q <> None ->
    snd (dns.NextLabel_loop (l ++ ".")%string i q) = true.
Proof.
  induction l as [|a l IH]; intros i q Hl; simpl in Hl.
  - reflexivity.
  - change ((String a l ++ ".")%string) with (String a (l ++ ".")%string).
    rewrite NextLabel_loop_step by apply append_dot_nonempty.
    destruct (Ascii.eqb a "\"%char); [apply IH; exact Hl|].
    destruct (Ascii.eqb a "."%char).
    { destruct q; [apply IH; exact Hl|]. congruence. }
    apply IH; exact Hl.
Qed.

Lemma present_labels_cons_nonempty (l : string) (ls : list string) :
  exists c rest, present_labels (l :: ls) = String c rest.
Proof. destruct l as [|a l]; simpl; eauto. Qed.

(** [getParentDomain] takes the leftmost label away. *)
Lemma getParentDomain_present (l : string) (ls : list string) :
  is_label l ->
  Main.getParentDomain (present (l :: ls)) = present ls.
Proof.
  intros Hl. unfold Main.getParentDomain, dns.NextLabel.
  cbn [dns.drop_prefix present].
  destruct ls as [|l2 ls].
  - cbn [present_labels present].
    pose proof (NextLabel_loop_label_last l 0 false) as H.
    unfold is_label in Hl. rewrite Hl in H. specialize (H ltac:(discriminate)).
    destruct (dns.NextLabel_loop (l ++ ".")%string 0 false) as [i e].
    simpl in H. subst e. reflexivity.
  - destruct (present_labels_cons_nonempty l2 ls) as (c & rest & E).
    change (present_labels (l :: l2 :: ls))
      with (l ++ String "."%char (present_labels (l2 :: ls)))%string.
    rewrite E.
    rewrite (NextLabel_loop_label_more l 0 false c rest Hl).
    cbn [negb Nat.add].
    rewrite drop_prefix_app_cons. rewrite <- E. reflexivity.
Qed.

(** The root is its own parent. *)
Lemma getParentDomain_root : Main.getParentDomain "." = "."%string.
Proof. reflexivity. Qed.

(** Taking the parent as many times as there are labels before the root
    label gives the root. *)
Lemma iter_getParentDomain_present (ls : list string) :
  Forall is_label ls ->
  Nat.iter (length ls) Main.getParentDomain (present ls) = "."%string.
Proof.
  induction 1 as [|l ls Hl Hls IH].
  - reflexivity.
  - cbn [length]. rewrite Nat.iter_succ_r.
    rewrite getParentDomain_present by exact Hl. exact IH.
Qed.

(** When the scan stops at a dot, it stops after at least one byte and
    before the last one. *)
Lemma NextLabel_loop_stop (s : string) :
  forall i q j,
    dns.NextLabel_loop s i q = (j, false) ->
    (i < j /\ j - i < String.length s)%nat.
Proof.
  induction s as [|a s IH]; intros i q j H.
  - discriminate H.
  - destruct s as [|b t]; [discriminate H|].
    rewrite NextLabel_loop_step in H by discriminate.
    cbn [String.length] in *.
    destruct (Ascii.eqb a "\"%char).
    { apply IH in H. cbn [String.length] in H. lia. }
    destruct (Ascii.eqb a "."%char).
    { destruct q.
      - apply IH in H. cbn [String.length] in H. lia.
      - inversion H; subst. lia. }
    apply IH in H. cbn [String.length] in H. lia.
Qed.

(** The parent is the root or a strictly shorter string. *)
Lemma getParentDomain_shorter (domain : string) :
  Main.getParentDomain domain = "."%string \/
  (String.length (Main.getParentDomain domain) < String.length domain)%nat.
Proof.
  unfold Main.getParentDomain, dns.NextLabel. cbn [dns.drop_prefix].
  destruct (dns.NextLabel_loop domain 0 false) as [i e] eqn:E.
  destruct e; cbn [negb]; [left; reflexivity|right].
  apply NextLabel_loop_stop in E.
  rewrite drop_prefix_length by lia. lia.
Qed.

Section ChainWalker.

Variable w : World.

(** The loop of [validateChain] comes to an end within as many iterations
    as the name has bytes, plus one. *)
Lemma validateChain_loop_fuel (fuel : nat) :
  forall domain st,
    (String.length domain < fuel)%nat ->
    exists r, Scan.validateChain_loop w fuel domain st = Some r.
Proof.
  induction fuel as [|fuel IH]; intros domain st Hlen; [lia|].
  cbn [Scan.validateChain_loop].
  destruct (Scan.validateDomain w domain st) as [[valid err] s'|s']; [|eauto].
  destruct err as [e|]; [eauto|].
  destruct valid; cbn [negb]; [|eauto].
  destruct (String.eqb (Scan.getParentDomain domain) ".") eqn:E; [eauto|].
  apply IH.
  destruct (getParentDomain_shorter domain) as [H|H].
  - unfold Scan.getParentDomain in E. rewrite H in E. discriminate E.
  - unfold Scan.getParentDomain. lia.
Qed.

(** More fuel does not change a result. *)
Lemma validateChain_loop_mono (fuel : nat) :
  forall domain st r,
    Scan.validateChain_loop w fuel domain st = Some r ->
    forall fuel', (fuel <= fuel')%nat ->
    Scan.validateChain_loop w fuel' domain st = Some r.
Proof.
  induction fuel as [|fuel IH]; intros domain st r H fuel' Hle; [discriminate H|].
  destruct fuel' as [|fuel']; [lia|].
  cbn [Scan.validateChain_loop] in *.
  destruct (Scan.validateDomain w domain st) as [[valid err] s'|s']; [|exact H].
  destruct err as [e|]; [exact H|].
  destruct valid; cbn [negb] in *; [|exact H].
  destruct (String.eqb (Scan.getParentDomain domain) "."); [exact H|].
  apply (IH _ _ _ H). lia.
Qed.

(** [validateChain] returns, on every name, what its loop computes. *)
Lemma validateChain_total (domain : string) (st : St) :
  exists r,
    (forall fuel, (String.length domain < fuel)%nat ->
       Scan.validateChain_loop w fuel domain st = Some r) /\
    Scan.validateChain w domain st = r.
Proof.
  destruct (validateChain_loop_fuel (S (String.length domain)) domain st)
    as [r Hr]; [lia|].
  exists r. split.
  - intros fuel Hlen. apply (validateChain_loop_mono _ _ _ _ Hr). lia.
  - unfold Scan.validateChain. rewrite Hr. reflexivity.
Qed.

(** On a fully qualified name the loop needs no more iterations than the
    name has labels. *)
Lemma validateChain_loop_labels (ls : list string) :
  Forall is_label ls ->
  forall fuel st,
    (labelCount ls <= fuel)%nat ->
    exists r, Scan.validateChain_loop w fuel (present ls) st = Some r.
Proof.
  induction 1 as [|l ls Hl Hls IH]; intros fuel st Hfuel;
    unfold labelCount in Hfuel; cbn [length] in Hfuel;
    (destruct fuel as [|fuel]; [lia|]);
    cbn [Scan.validateChain_loop].
  - destruct (Scan.validateDomain w (present []) st) as [[valid err] s'|s']; [|eauto].
    destruct err as [e|]; [eauto|].
    destruct valid; cbn [negb]; eauto.
  - destruct (Scan.validateDomain w (present (l :: ls)) st)
      as [[valid err] s'|s']; [|eauto].
    destruct err as [e|]; [eauto|].
    destruct valid; cbn [negb]; [|eauto].
    unfold Scan.getParentDomain.
    rewrite getParentDomain_present by exact Hl.
    destruct (String.eqb (present ls) "."); [eauto|].
    apply IH. unfold labelCount. lia.
Qed.

End ChainWalker.

(** C4.  For a fully qualified name [present ls], taking the parent
    repeatedly reaches the root ["."] in fewer steps than the name has
    labels (the root label included); [getParentDomain] removes exactly
    the leftmost label and maps the root to itself; and the loop of
    [validateChain] terminates: within the label count on a fully
    qualified name, and on every string whatsoever. *)
Theorem parent_termination (ls : list string) :
  Forall is_label ls ->
  (exists n, (n < labelCount ls)%nat /\
             Nat.iter n Main.getParentDomain (present ls) = "."%string) /\
  (forall l, is_label l ->
             Main.getParentDomain (present (l :: ls)) = present ls) /\
  Main.getParentDomain "." = "."%string /\
  (forall w st fuel, (labelCount ls <= fuel)%nat ->
     exists r, Scan.validateChain_loop w fuel (present ls) st = Some r) /\
  (forall w domain st, exists r,
     (forall fuel, (String.length domain < fuel)%nat ->
        Scan.validateChain_loop w fuel domain st = Some r) /\
     Scan.validateChain w domain st = r).
Proof.
  intros Hls. repeat split.
  - exists (length ls). split; [unfold labelCount; lia|].
    apply iter_getParentDomain_present; exact Hls.
  - intros l Hl. apply getParentDomain_present; exact Hl.
  - intros w st fuel Hfuel. apply validateChain_loop_labels; assumption.
  - intros w domain st.
    destruct (validateChain_total w domain st) as (r & H1 & H2).
    exists r. split; assumption.
Qed.

Lemma parent_termination_witness :
  exists n, (n < 3)%nat /\
            Nat.iter n Main.getParentDomain "example.test."%string = "."%string.
Proof.
  destruct (parent_termination ["example"; "test"]%string) as [H _].
  - repeat constructor.
  - exact H.
Defined.

(** ** The validity window *)

Lemma wrap64_small (z : Z) : - 2^63 <= z < 2^63 -> wrap64 z = z.
Proof. intros H. unfold wrap64. rewrite Z.mod_small; lia. Qed.

Lemma quot_year68 (d : Z) :
  exists q r, Z.quot d 2147483648 = q /\ d = 2147483648 * q + r /\
              (0 <= d -> 0 <= r < 2147483648) /\
              (d <= 0 -> - 2147483648 < r <= 0).
Proof.
  exists (Z.quot d 2147483648), (Z.rem d 2147483648).
  split; [reflexivity|]. split; [apply Z.quot_rem'|]. split; intros Hd.
  - apply Z.rem_bound_pos_pos; lia.
  - pose proof (Z.rem_bound_pos_neg d 2147483648 ltac:(lia) Hd). lia.
Qed.

(** Adding the truncated quotient times [2^31] keeps a difference within
    [2^31] only if it already was. *)
Lemma canon_bound (d : Z) :
  Z.abs (d + Z.quot d (2^31) * 2^31) < 2^31 <-> Z.abs d < 2^31.
Proof.
  change (2^31) with 2147483648.
  destruct (quot_year68 d) as (q & r & -> & H & Hp & Hn). lia.
Qed.

Lemma canon_small (d : Z) : Z.abs d < 2^31 -> Z.quot d (2^31) = 0.
Proof.
  change (2^31) with 2147483648. intros Hd.
  destruct (quot_year68 d) as (q & r & -> & H & Hp & Hn). lia.
Qed.

Lemma quot_year68_bound (d : Z) :
  Z.abs (Z.quot d (2^31)) <= Z.abs d /\
  Z.abs (Z.quot d (2^31) * 2^31) <= Z.abs d.
Proof.
  change (2^31) with 2147483648.
  destruct (quot_year68 d) as (q & r & -> & H & Hp & Hn). lia.
Qed.

(** On 32-bit serials and any time within [2^61] seconds of the epoch the
    64-bit arithmetic of [explicitValid] does not wrap. *)
Lemma explicitValid_at_exact (utc : Z) (rr : RRSIG) :
  0 <= Inception rr < 2^32 ->
  0 <= Expiration rr < 2^32 ->
  - 2^61 <= utc <= 2^61 ->
  Scan.explicitValid_at utc rr
  = (canon utc (Inception rr), canon utc (Expiration rr)).
Proof.
  intros HI HE Hu. unfold Scan.explicitValid_at, canon, Scan.year68.
  unfold div64, sub64, add64, mul64.
  pose proof (quot_year68_bound (Inception rr - utc)) as [Hi1 Hi2].
  pose proof (quot_year68_bound (Expiration rr - utc)) as [He1 He2].
  assert (H32 : 2^32 = 4294967296) by reflexivity.
  assert (H61 : 2^61 = 2305843009213693952) by reflexivity.
  assert (H63 : 2^63 = 9223372036854775808) by reflexivity.
  rewrite (wrap64_small (Inception rr - utc)) by lia.
  rewrite (wrap64_small (Expiration rr - utc)) by lia.
  rewrite (wrap64_small (Z.quot (Inception rr - utc) (2^31))) by lia.
  rewrite (wrap64_small (Z.quot (Expiration rr - utc) (2^31))) by lia.
  rewrite (wrap64_small (Z.quot (Inception rr - utc) (2^31) * 2^31)) by lia.
  rewrite (wrap64_small (Z.quot (Expiration rr - utc) (2^31) * 2^31)) by lia.
  rewrite !wrap64_small by lia.
  reflexivity.
Qed.

Lemma canon_window (utc serial : Z) :
  (Z.abs (canon utc serial - utc) < 2^31 <-> Z.abs (serial - utc) < 2^31) /\
  (Z.abs (serial - utc) < 2^31 -> canon utc serial = serial).
Proof.
  unfold canon. split.
  - rewrite <- (canon_bound (serial - utc)).
    replace (serial + Z.quot (serial - utc) (2^31) * 2^31 - utc)
      with (serial - utc + Z.quot (serial - utc) (2^31) * 2^31) by lia.
    reflexivity.
  - intros H. rewrite (canon_small _ H). lia.
Qed.

(** ** The signature verifier *)

Section Verifier.

Variable w : World.

Lemma explicitValid_utc_spec (st : St) :
  exists n st',
    Scan.explicitValid_utc w st = Returns (Unix (clock w n)) st' /\
    (ticks st <= n < ticks st')%nat /\ trace st' = trace st.
Proof.
  unfold Scan.explicitValid_utc, bind, Now, ret.
  destruct (IsZero (clock w (ticks st))).
  - eexists _, _. split; [reflexivity|]. cbn. split; [lia|reflexivity].
  - eexists _, _. split; [reflexivity|]. cbn. split; [lia|reflexivity].
Qed.

Lemma explicitValid_spec (sg : RRSIG) (st : St) :
  exists n st',
    Scan.explicitValid w sg st
    = Returns (Scan.explicitValid_at (Unix (clock w n)) sg) st' /\
    (ticks st <= n < ticks st')%nat /\ trace st' = trace st.
Proof.
  destruct (explicitValid_utc_spec st) as (n & st' & E & Hn & Ht).
  exists n, st'. unfold Scan.explicitValid, bind. rewrite E.
  split; [reflexivity|]. split; assumption.
Qed.

(** One turn of the key loop on a DNSKEY that verifies the signature. *)
Lemma validateRRSIG_keys_verified (sg : RRSIG) (cleanset : list RR)
    (k : RR) (key : DNSKEY) (rest : list RR) (st : St) :
  Data k = D_DNSKEY key ->
  dns.Verify w (Some sg) key cleanset = dns.VerifyOk ->
  exists n st',
    (ticks st <= n < ticks st')%nat /\ trace st' = trace st /\
    Scan.validateRRSIG_keys w (Some sg) cleanset (k :: rest) st =
    if ValidityPeriod w sg (clock w (ticks st'))
    then Returns (true,
                  mkKeyInfo (fst (Scan.explicitValid_at (Unix (clock w n)) sg))
                            (snd (Scan.explicitValid_at (Unix (clock w n)) sg)),
                  None)
                 (mkSt (S (ticks st')) (trace st'))
    else Scan.validateRRSIG_keys w (Some sg) cleanset rest
           (mkSt (S (ticks st')) (trace st')).
Proof.
  intros Hk Hv.
  destruct (explicitValid_spec sg st) as (n & st' & E & Hn & Ht).
  exists n, st'. split; [exact Hn|]. split; [exact Ht|].
  cbn [Scan.validateRRSIG_keys]. rewrite Hk, Hv.
  unfold bind at 1. rewrite E.
  destruct (Scan.explicitValid_at (Unix (clock w n)) sg) as [ti te].
  unfold bind, Now, ret. cbn [fst snd].
  destruct (ValidityPeriod w sg (clock w (ticks st'))); reflexivity.
Qed.

(** The key loop only reads the clock. *)
Lemma validateRRSIG_keys_state (sig : option RRSIG) (cleanset : list RR)
    (keys : list RR) :
  forall st,
    trace (final (Scan.validateRRSIG_keys w sig cleanset keys st)) = trace st /\
    (ticks st <= ticks (final (Scan.validateRRSIG_keys w sig cleanset keys st)))%nat.
Proof.
  induction keys as [|k rest IH]; intros st.
  - cbn. split; [reflexivity|lia].
  - destruct (Data k) as [ | | |key| | | ] eqn:Hk;
      try (cbn [Scan.validateRRSIG_keys]; rewrite Hk; apply IH).
    destruct (dns.Verify w sig key cleanset) eqn:Hv.
    + destruct sig as [sg|].
      * destruct (validateRRSIG_keys_verified sg cleanset k key rest st Hk Hv)
          as (n & st' & Hn & Ht & ->).
        destruct (ValidityPeriod w sg (clock w (ticks st'))).
        -- cbn. split; [exact Ht|lia].
        -- destruct (IH (mkSt (S (ticks st')) (trace st'))) as [H1 H2].
           cbn in H1, H2. split; [congruence|lia].
      * cbn [Scan.validateRRSIG_keys]. rewrite Hk, Hv.
        cbn. split; [reflexivity|lia].
    + cbn [Scan.validateRRSIG_keys]. rewrite Hk, Hv.
      destruct sig; apply IH.
    + cbn [Scan.validateRRSIG_keys]. rewrite Hk, Hv.
      destruct sig; cbn; (split; [reflexivity|lia]).
Qed.

(** A positive answer of the key loop carries the two numbers of
    [explicitValid] at some reading of the clock made during the loop, and
    no error. *)
Lemma validateRRSIG_keys_true (sig : option RRSIG) (cleanset : list RR)
    (keys : list RR) :
  forall st ki err st',
    Scan.validateRRSIG_keys w sig cleanset keys st = Returns (true, ki, err) st' ->
    exists sg n,
      sig = Some sg /\ (ticks st <= n < ticks st')%nat /\
      (Start ki, End_ ki) = Scan.explicitValid_at (Unix (clock w n)) sg /\
      err = None.
Proof.
  induction keys as [|k rest IH]; intros st ki err st' H.
  - discriminate H.
  - destruct (Data k) as [ | | |key| | | ] eqn:Hk;
      try (cbn [Scan.validateRRSIG_keys] in H; rewrite Hk in H;
           apply IH in H; exact H).
    destruct (dns.Verify w sig key cleanset) eqn:Hv.
    + destruct sig as [sg|].
      * destruct (validateRRSIG_keys_verified sg cleanset k key rest st Hk Hv)
          as (n & st1 & Hn & Ht & E).
        rewrite E in H.
        destruct (ValidityPeriod w sg (clock w (ticks st1))).
        -- inversion H; subst. exists sg, n. cbn [Start End_ ticks].
           split; [reflexivity|]. split; [lia|].
           split; [|reflexivity].
           symmetry. apply surjective_pairing.
        -- apply IH in H. destruct H as (sg' & n' & Hs & Hn' & Hki & He).
           exists sg', n'. cbn in Hn'. repeat split; try assumption; lia.
      * cbn [Scan.validateRRSIG_keys] in H. rewrite Hk, Hv in H. discriminate H.
    + cbn [Scan.validateRRSIG_keys] in H. rewrite Hk, Hv in H.
      destruct sig; apply IH in H; exact H.
    + cbn [Scan.validateRRSIG_keys] in H. rewrite Hk, Hv in H.
      destruct sig; discriminate H.
Qed.

(** The signature the first loop retains is one of the set. *)
Lemma splitRRSIG_sig (rrset : list RR) :
  forall sig0 acc sg,
    fst (Scan.splitRRSIG rrset sig0 acc) = Some sg ->
    sig0 = Some sg \/ exists r, In r rrset /\ Data r = D_RRSIG sg.
Proof.
  induction rrset as [|v rest IH]; intros sig0 acc sg H.
  - left. exact H.
  - cbn [Scan.splitRRSIG] in H.
    destruct (Data v) eqn:Hv;
      try (apply IH in H; destruct H as [H|(r & Hr & Hd)];
           [left; exact H | right; exists r; split; [right; exact Hr|exact Hd]]).
    apply IH in H. destruct H as [H|(r & Hr & Hd)].
    + inversion H; subst. right. exists v. split; [left; reflexivity|exact Hv].
    + right. exists r. split; [right; exact Hr|exact Hd].
Qed.

(** A set of RRSIGs only leaves the clean set as it was. *)
Lemma splitRRSIG_clean (rrset : list RR) :
  forall sig0 acc,
    (forall r, In r rrset -> isRRSIG r = true) ->
    snd (Scan.splitRRSIG rrset sig0 acc) = acc.
Proof.
  induction rrset as [|v rest IH]; intros sig0 acc H; [reflexivity|].
  cbn [Scan.splitRRSIG].
  pose proof (H v (or_introl eq_refl)) as Hv. unfold isRRSIG in Hv.
  destruct (Data v); try discriminate Hv.
  apply IH. intros r Hr. apply H. right. exact Hr.
Qed.

(** A set with an RRSIG in it leaves the first loop with a signature. *)
Lemma splitRRSIG_some (rrset : list RR) :
  forall sig0 acc,
    (sig0 <> None \/ exists r, In r rrset /\ isRRSIG r = true) ->
    exists sg, fst (Scan.splitRRSIG rrset sig0 acc) = Some sg.
Proof.
  induction rrset as [|v rest IH]; intros sig0 acc H.
  - destruct H as [H|(r & [] & _)].
    destruct sig0 as [sg|]; [exists sg; reflexivity|congruence].
  - cbn [Scan.splitRRSIG].
    destruct (Data v) eqn:Hv;
      try (apply IH; destruct H as [H|(r & [Hr|Hr] & Hd)];
           [left; exact H
           |subst r; unfold isRRSIG in Hd; rewrite Hv in Hd; discriminate Hd
           |right; exists r; split; assumption]).
    apply IH. left. discriminate.
Qed.

(** With a signature at hand the key loop does not fault. *)
Lemma validateRRSIG_keys_returns (sg : RRSIG) (cleanset : list RR)
    (keys : list RR) :
  forall st, exists res st',
    Scan.validateRRSIG_keys w (Some sg) cleanset keys st = Returns res st'.
Proof.
  induction keys as [|k rest IH]; intros st.
  - eexists _, _. reflexivity.
  - destruct (Data k) as [ | | |key| | | ] eqn:Hk;
      try (cbn [Scan.validateRRSIG_keys]; rewrite Hk; apply IH).
    destruct (dns.Verify w (Some sg) key cleanset) eqn:Hv.
    + destruct (validateRRSIG_keys_verified sg cleanset k key rest st Hk Hv)
        as (n & st' & Hn & Ht & ->).
      destruct (ValidityPeriod w sg (clock w (ticks st'))).
      * eexists _, _. reflexivity.
      * apply IH.
    + cbn [Scan.validateRRSIG_keys]. rewrite Hk, Hv. apply IH.
    + unfold dns.Verify in Hv.
      destruct (negb (IsRRset w cleanset)); [discriminate Hv|].
      destruct (verifySig w sg key cleanset); discriminate Hv.
Qed.

(** What an answer of the key loop means. *)
Lemma validateRRSIG_keys_result (sig : option RRSIG) (cleanset : list RR)
    (keys : list RR) :
  forall st b ki err st',
    Scan.validateRRSIG_keys w sig cleanset keys st = Returns (b, ki, err) st' ->
    err = None /\
    (b = false -> ki = emptyKeyInfo) /\
    (b = true ->
     exists k key sg n,
       In k keys /\ Data k = D_DNSKEY key /\ sig = Some sg /\
       dns.Verify w sig key cleanset = dns.VerifyOk /\
       ValidityPeriod w sg (clock w n) = true /\
       (ticks st <= n < ticks st')%nat).
Proof.
  induction keys as [|k rest IH]; intros st b ki err st' H.
  - inversion H; subst. split; [reflexivity|].
    split; [reflexivity|discriminate].
  - assert (Hrest : forall s1, (ticks st <= ticks s1)%nat ->
              Scan.validateRRSIG_keys w sig cleanset rest s1
              = Returns (b, ki, err) st' ->
              err = None /\ (b = false -> ki = emptyKeyInfo) /\
              (b = true ->
               exists k0 key sg n,
                 In k0 (k :: rest) /\ Data k0 = D_DNSKEY key /\ sig = Some sg /\
                 dns.Verify w sig key cleanset = dns.VerifyOk /\
                 ValidityPeriod w sg (clock w n) = true /\
                 (ticks st <= n < ticks st')%nat)).
    { intros s1 Hle H1. apply IH in H1. destruct H1 as (He & Hf & Ht).
      split; [exact He|]. split; [exact Hf|].
      intros Hb. destruct (Ht Hb) as (k0 & key & sg & n & Hin & Hd & Hs & Hv & Hp & Hn).
      exists k0, key, sg, n.
      split; [right; exact Hin|]. split; [exact Hd|]. split; [exact Hs|].
      split; [exact Hv|]. split; [exact Hp|lia]. }
    destruct (Data k) as [ | | |key| | | ] eqn:Hk;
      try (cbn [Scan.validateRRSIG_keys] in H; rewrite Hk in H;
           apply (Hrest st); [lia|exact H]).
    destruct (dns.Verify w sig key cleanset) eqn:Hv.
    + destruct sig as [sg|].
      * destruct (validateRRSIG_keys_verified sg cleanset k key rest st Hk Hv)
          as (n & st1 & Hn & Ht & E).
        rewrite E in H.
        destruct (ValidityPeriod w sg (clock w (ticks st1))) eqn:Hp.
        -- inversion H; subst. split; [reflexivity|].
           split; [discriminate|]. intros _.
           exists k, key, sg, (ticks st1). cbn [ticks].
           split; [left; reflexivity|]. split; [exact Hk|].
           split; [reflexivity|]. split; [exact Hv|].
           split; [exact Hp|lia].
        -- apply (Hrest (mkSt (S (ticks st1)) (trace st1))); [cbn; lia|exact H].
      * cbn [Scan.validateRRSIG_keys] in H. rewrite Hk, Hv in H. discriminate H.
    + cbn [Scan.validateRRSIG_keys] in H. rewrite Hk, Hv in H.
      destruct sig; apply (Hrest st); try lia; exact H.
    + cbn [Scan.validateRRSIG_keys] in H. rewrite Hk, Hv in H.
      destruct sig; discriminate H.
Qed.

(** The turn of a key that verifies the signature while the window is
    closed: the loop goes on with the keys after it, from the state left
    by the clock readings of the turn. *)
Lemma validateRRSIG_keys_closed_turn (sg : RRSIG) (cleanset : list RR)
    (k : RR) (key : DNSKEY) (rest : list RR) (st : St) :
  Data k = D_DNSKEY key ->
  dns.Verify w (Some sg) key cleanset = dns.VerifyOk ->
  ValidityPeriod w sg (clock w (ticks (final (Scan.explicitValid w sg st))))
  = false ->
  Scan.validateRRSIG_keys w (Some sg) cleanset (k :: rest) st
  = Scan.validateRRSIG_keys w (Some sg) cleanset rest
      (mkSt (S (ticks (final (Scan.explicitValid w sg st)))) (trace st)).
Proof.
  intros Hk Hv.
  destruct (explicitValid_spec sg st) as (n & st' & E & Hn & Ht).
  cbn [Scan.validateRRSIG_keys]. rewrite Hk, Hv.
  unfold bind at 1. rewrite E. cbn [final]. intros Hp.
  destruct (Scan.explicitValid_at (Unix (clock w n)) sg) as [ti te].
  unfold bind, Now, ret. rewrite Hp, Ht. reflexivity.
Qed.

(** If the window is closed at every reading of the clock the key loop
    makes, the loop answers no. *)
Lemma validateRRSIG_keys_closed (sg : RRSIG) (cleanset : list RR)
    (keys : list RR) (st : St) :
  (forall k key n, In k keys -> Data k = D_DNSKEY key ->
     dns.Verify w (Some sg) key cleanset = dns.VerifyOk ->
     (ticks st <= n
      < ticks (final (Scan.validateRRSIG_keys w (Some sg) cleanset keys st)))%nat ->
     ValidityPeriod w sg (clock w n) = false) ->
  Scan.validateRRSIG_keys w (Some sg) cleanset keys st
  = Returns (false, emptyKeyInfo, None)
      (final (Scan.validateRRSIG_keys w (Some sg) cleanset keys st)).
Proof.
  destruct (validateRRSIG_keys_returns sg cleanset keys st)
    as ([[b ki] err] & st' & E).
  rewrite E. cbn [final]. intros H.
  destruct (validateRRSIG_keys_result _ _ _ _ _ _ _ _ E) as (He & Hf & Ht).
  subst err. destruct b.
  - destruct (Ht eq_refl) as (k & key & sg' & n & Hin & Hd & Hs & Hv & Hp & Hn).
    inversion Hs; subst sg'.
    rewrite (H k key n Hin Hd Hv Hn) in Hp. discriminate Hp.
  - rewrite (Hf eq_refl). reflexivity.
Qed.

End Verifier.

(** C2 (as the code has it).  When [validateRRSIG] succeeds, the start and
    end it returns are the two numbers [explicitValid] computes from a
    signature of the set at a reading [now] of the clock made during the
    call.  For 32-bit serials they are [I + ((I - now) quo 2^31) * 2^31]
    and the same for [E]; the start lies within [2^31] of [now] exactly
    when the inception already does, and is then the inception itself;
    likewise for the end. *)
Theorem validity_window (w : World) (keys rrset : list RR) (st : St)
    (ki : KeyInfo) (err : option error) (st' : St) :
  Scan.validateRRSIG w keys rrset st = Returns (true, ki, err) st' ->
  exists sg n,
    (exists r, In r rrset /\ Data r = D_RRSIG sg) /\
    (ticks st <= n < ticks st')%nat /\
    (Start ki, End_ ki) = Scan.explicitValid_at (Unix (clock w n)) sg /\
    (0 <= Inception sg < 2^32 ->
     0 <= Expiration sg < 2^32 ->
     - 2^61 <= Unix (clock w n) <= 2^61 ->
     Start ki = canon (Unix (clock w n)) (Inception sg) /\
     End_ ki = canon (Unix (clock w n)) (Expiration sg) /\
     (Z.abs (Start ki - Unix (clock w n)) < 2^31 <->
      Z.abs (Inception sg - Unix (clock w n)) < 2^31) /\
     (Z.abs (End_ ki - Unix (clock w n)) < 2^31 <->
      Z.abs (Expiration sg - Unix (clock w n)) < 2^31) /\
     (Z.abs (Inception sg - Unix (clock w n)) < 2^31 ->
      Start ki = Inception sg) /\
     (Z.abs (Expiration sg - Unix (clock w n)) < 2^31 ->
      End_ ki = Expiration sg)).
Proof.
  intros H. unfold Scan.validateRRSIG in H.
  destruct (length rrset =? 0)%nat; [discriminate H|].
  destruct (Scan.splitRRSIG rrset None []) as [sig cleanset] eqn:Es.
  apply validateRRSIG_keys_true in H.
  destruct H as (sg & n & -> & Hn & Hki & _).
  exists sg, n. split.
  { pose proof (splitRRSIG_sig rrset None [] sg) as Hs.
    rewrite Es in Hs. destruct (Hs eq_refl) as [Hs'|Hs']; [discriminate Hs'|].
    exact Hs'. }
  split; [exact Hn|]. split; [exact Hki|].
  intros HI HE Hu.
  rewrite (explicitValid_at_exact _ _ HI HE Hu) in Hki.
  inversion Hki as [[H1 H2]].
  destruct (canon_window (Unix (clock w n)) (Inception sg)) as [Hi1 Hi2].
  destruct (canon_window (Unix (clock w n)) (Expiration sg)) as [He1 He2].
  rewrite H1, H2.
  split; [reflexivity|]. split; [reflexivity|].
  split; [exact Hi1|]. split; [exact He1|]. split; [exact Hi2|exact He2].
Qed.

Lemma validity_window_witness :
  exists sg n,
    (exists r, In r Fixture.goodSet /\ Data r = D_RRSIG sg) /\
    (0 <= n < 2)%nat /\
    (1600000000, 1800000000)
    = Scan.explicitValid_at (Unix (clock Fixture.plain n)) sg.
Proof.
  destruct (validity_window Fixture.plain Fixture.goodSet Fixture.goodSet
              Fixture.st0 (mkKeyInfo 1600000000 1800000000) None
              (mkSt 2 []) eq_refl)
    as (sg & n & Hr & Hn & Hki & _).
  exists sg, n. split; [exact Hr|]. split; [exact Hn|exact Hki].
Defined.

(** C2 as stated fails: a signature whose expiration is the largest
    32-bit serial validates in 2023, and the end returned is more than
    [2^31] seconds away from the time of the clock. *)
Lemma validity_window_counterexample :
  let sg := Fixture.sigBy Fixture.zone Fixture.keyA 1600000000 4294967295 in
  (0 <= Inception sg < 2^32 /\ 0 <= Expiration sg < 2^32) /\
  exists ki st',
    Scan.validateRRSIG Fixture.plain Fixture.longSet Fixture.longSet Fixture.st0
    = Returns (true, ki, None) st' /\
    forall n, ~ (Z.abs (End_ ki - Unix (clock Fixture.plain n)) < 2^31).
Proof.
  split; [cbn; lia|].
  eexists _, _. split; [vm_compute; reflexivity|].
  intros n H. vm_compute in H. discriminate H.
Qed.

(** With nothing to sign every verification is refused. *)
Lemma validateRRSIG_keys_no_records (w : World) (sig : option RRSIG)
    (keys : list RR) (st : St) :
  IsRRset w [] = false ->
  Scan.validateRRSIG_keys w sig [] keys st = Returns (false, emptyKeyInfo, None) st.
Proof.
  intros Hlib. induction keys as [|k rest IH]; [reflexivity|].
  cbn [Scan.validateRRSIG_keys]. unfold dns.Verify. rewrite Hlib. cbn [negb].
  destruct (Data k); try exact IH; destruct sig; exact IH.
Qed.

(** C6.  A record set without any record other than RRSIGs, the empty set
    included, is answered with [(false, KeyInfo{}, nil)] for every list of
    keys; the library's [IsRRset] refuses an empty record set. *)
Theorem empty_signed_set (w : World) (keys rrset : list RR) (st : St) :
  IsRRset w [] = false ->
  (forall r, In r rrset -> isRRSIG r = true) ->
  Scan.validateRRSIG w keys rrset st = Returns (false, emptyKeyInfo, None) st.
Proof.
  intros Hlib Hall. unfold Scan.validateRRSIG.
  destruct (length rrset =? 0)%nat; [reflexivity|].
  pose proof (splitRRSIG_clean rrset None [] Hall) as Hc.
  destruct (Scan.splitRRSIG rrset None []) as [sig cleanset].
  cbn [snd] in Hc. subst cleanset.
  apply validateRRSIG_keys_no_records. exact Hlib.
Qed.

Lemma empty_signed_set_witness :
  Scan.validateRRSIG Fixture.plain Fixture.goodSet
    [Fixture.rr Fixture.zone TypeRRSIG
       (D_RRSIG (Fixture.sigBy Fixture.zone Fixture.keyA 1600000000 1800000000))]
    Fixture.st0
  = Returns (false, emptyKeyInfo, None) Fixture.st0.
Proof.
  apply (empty_signed_set Fixture.plain).
  - reflexivity.
  - intros r [<-|[]]. reflexivity.
Defined.

(** C9.  For a record set with a signature [sg]: a DNSKEY [k] that
    verifies the signature while the clock is outside the validity period
    does not end [validateRRSIG], which then does what it does with the
    keys after [k] alone, taken up right after the clock readings of the
    turn of [k] (the reading tested against the period is the one that
    follows those of [explicitValid]); a later key may thus still give a
    positive answer.  And when, for every DNSKEY that verifies the
    signature, the clock is outside the period at every reading made
    during the call, [validateRRSIG] returns [(false, KeyInfo{}, nil)]. *)
Theorem stale_window_tries_remaining_keys (w : World) (rrset : list RR)
    (sg : RRSIG) (cleanset : list RR) :
  Scan.splitRRSIG rrset None [] = (Some sg, cleanset) ->
  (forall k key rest st,
      Data k = D_DNSKEY key ->
      dns.Verify w (Some sg) key cleanset = dns.VerifyOk ->
      ValidityPeriod w sg
        (clock w (ticks (final (Scan.explicitValid w sg st)))) = false ->
      Scan.validateRRSIG w (k :: rest) rrset st
      = Scan.validateRRSIG w rest rrset
          (mkSt (S (ticks (final (Scan.explicitValid w sg st)))) (trace st))) /\
  (forall keys st,
      (forall k key n, In k keys -> Data k = D_DNSKEY key ->
         dns.Verify w (Some sg) key cleanset = dns.VerifyOk ->
         (ticks st <= n
          < ticks (final (Scan.validateRRSIG w keys rrset st)))%nat ->
         ValidityPeriod w sg (clock w n) = false) ->
      Scan.validateRRSIG w keys rrset st
      = Returns (false, emptyKeyInfo, None)
          (final (Scan.validateRRSIG w keys rrset st))).
Proof.
  intros Hsplit.
  assert (Hrun : forall keys st,
            Scan.validateRRSIG w keys rrset st
            = Scan.validateRRSIG_keys w (Some sg) cleanset keys st).
  { intros keys st. unfold Scan.validateRRSIG.
    destruct rrset as [|v rest]; [discriminate Hsplit|].
    cbn [length Nat.eqb]. rewrite Hsplit. reflexivity. }
  split.
  - intros k key rest st Hk Hv Hp. rewrite !Hrun.
    apply validateRRSIG_keys_closed_turn with (key := key); assumption.
  - intros keys st H. rewrite Hrun in *.
    apply validateRRSIG_keys_closed. exact H.
Qed.

Lemma stale_window_tries_remaining_keys_witness :
  Scan.validateRRSIG Fixture.opening
    [Fixture.keyRecordA; Fixture.keyRecordA] Fixture.goodSet Fixture.st0
  = Returns (true, mkKeyInfo 1600000000 1800000000, None) (mkSt 4 []) /\
  Scan.validateRRSIG Fixture.plain Fixture.staleSet Fixture.staleSet Fixture.st0
  = Returns (false, emptyKeyInfo, None) (mkSt 2 []).
Proof.
  split.
  - refine (eq_trans
              (proj1 (stale_window_tries_remaining_keys Fixture.opening
                        Fixture.goodSet
                        (Fixture.sigBy Fixture.zone Fixture.keyA
                           1600000000 1800000000)
                        [Fixture.keyRecordA] _)
                 Fixture.keyRecordA Fixture.keyA [Fixture.keyRecordA]
                 Fixture.st0 _ _ _) _).
    + vm_compute. reflexivity.
    + vm_compute. reflexivity.
    + vm_compute. reflexivity.
    + vm_compute. reflexivity.
    + vm_compute. reflexivity.
  - refine (eq_trans
              (proj2 (stale_window_tries_remaining_keys Fixture.plain
                        Fixture.staleSet
                        (Fixture.sigBy Fixture.zone Fixture.keyA
                           1500000000 1600000000)
                        [Fixture.keyRecordA] _)
                 Fixture.staleSet Fixture.st0 _) _).
    + vm_compute. reflexivity.
    + intros k key n _ _ _ _. vm_compute. reflexivity.
    + vm_compute. reflexivity.
Defined.

(** C10.  [validateRRSIG] faults on a nil signature: with a DNSKEY as
    first key and a record set made of one record that is not an RRSIG,
    [sig.Verify] is called on the unset [sig] and panics (the library
    takes a single record for an RRset).  Such an input exists.  With an
    RRSIG in the record set the function returns for every list of keys. *)
Theorem validateRRSIG_nil_signature (w : World) :
  (forall r, IsRRset w [r] = true) ->
  (forall k key rest r st,
      Data k = D_DNSKEY key -> isRRSIG r = false ->
      Scan.validateRRSIG w (k :: rest) [r] st = Panics st) /\
  (exists keys rrset,
      (exists r, In r rrset) /\
      (forall r, In r rrset -> isRRSIG r = false) /\
      (exists k key, In k keys /\ Data k = D_DNSKEY key) /\
      forall st, Scan.validateRRSIG w keys rrset st = Panics st) /\
  (forall keys rrset st,
      (exists r, In r rrset /\ isRRSIG r = true) ->
      exists res st', Scan.validateRRSIG w keys rrset st = Returns res st').
Proof.
  intros Hlib.
  assert (Hpanic : forall k key rest r st,
            Data k = D_DNSKEY key -> isRRSIG r = false ->
            Scan.validateRRSIG w (k :: rest) [r] st = Panics st).
  { intros k key rest r st Hk Hr. unfold Scan.validateRRSIG.
    cbn [length Nat.eqb Scan.splitRRSIG]. unfold isRRSIG in Hr.
    destruct (Data r) eqn:Hd; try discriminate Hr;
      cbn [app Scan.validateRRSIG_keys]; rewrite Hk;
      unfold dns.Verify; rewrite Hlib; reflexivity. }
  split; [exact Hpanic|]. split.
  - set (k := mkRR (mkHeader "." TypeDNSKEY 1 0) (D_DNSKEY (mkDNSKEY 257 3 8 ""))).
    set (r := mkRR (mkHeader "." TypeDNSKEY 1 0) (D_DNSKEY (mkDNSKEY 257 3 8 ""))).
    exists [k], [r]. split; [exists r; left; reflexivity|].
    split; [intros r' [<-|[]]; reflexivity|].
    split; [exists k, (mkDNSKEY 257 3 8 ""); split; [left|]; reflexivity|].
    intros st. apply (Hpanic k (mkDNSKEY 257 3 8 "") [] r st); reflexivity.
  - intros keys rrset st Hsig. unfold Scan.validateRRSIG.
    destruct rrset as [|v rest]; [destruct Hsig as (r & [] & _)|].
    cbn [length Nat.eqb].
    destruct (splitRRSIG_some (v :: rest) None [] (or_intror Hsig)) as [sg Hs].
    destruct (Scan.splitRRSIG (v :: rest) None []) as [sig cleanset].
    cbn [fst] in Hs. subst sig.
    apply validateRRSIG_keys_returns.
Qed.

Lemma validateRRSIG_nil_signature_witness :
  Scan.validateRRSIG Fixture.plain
    [Fixture.rr Fixture.zone TypeDNSKEY (D_DNSKEY Fixture.keyA)]
    [Fixture.rr Fixture.zone TypeDNSKEY (D_DNSKEY Fixture.keyA)]
    Fixture.st0
  = Panics Fixture.st0.
Proof.
  destruct (validateRRSIG_nil_signature Fixture.plain) as [H _].
  - intros r. reflexivity.
  - apply (H _ Fixture.keyA); reflexivity.
Defined.

(** ** NS discovery *)

Section Discovery.

Variable w : World.

Lemma Main_query_eq (q : string) (qtype : Z) (server : string) (sec : bool)
    (st : St) :
  Main.query w q qtype server sec st =
  Returns
    match Exchange w (trace st) q qtype server sec with
    | inl m => (Some m, None)
    | inr e => (None, Some (TransportError e))
    end
    (mkSt (ticks st)
          (EvExchange q qtype server sec
             (Exchange w (trace st) q qtype server sec) :: trace st)).
Proof.
  unfold Main.query, bind, exchange, ret.
  destruct (Exchange w (trace st) q qtype server sec); reflexivity.
Qed.

(** A record set that comes back without an error is not empty. *)
Lemma queryRRset_nonempty (q : string) (qtype : Z) (server : string)
    (sec : bool) (st : St) (rrset : list RR) (st' : St) :
  Main.queryRRset w q qtype server sec st = Returns (rrset, None) st' ->
  rrset <> [].
Proof.
  unfold Main.queryRRset, bind. rewrite Main_query_eq.
  destruct (Exchange w (trace st) q qtype server sec) as [m|e].
  - destruct (Main.extractRR (Answer m) qtype) as [|r rest];
      cbn; intros H; inversion H. discriminate.
  - cbn. intros H. inversion H.
Qed.

(** The loop of [findNS] adds one entry per record. *)
Lemma findNS_loop_length (rrset : list RR) :
  forall nsinfos st res st',
    Main.findNS_loop w rrset nsinfos st = Returns res st' ->
    length res = (length nsinfos + length rrset)%nat.
Proof.
  induction rrset as [|rr rest IH]; intros nsinfos st res st' H.
  - inversion H; subst. cbn. lia.
  - cbn [Main.findNS_loop] in H.
    destruct (Data rr); try discriminate H.
    unfold bind in H.
    destruct (Main.getIP w Ns TypeA Main.resolver st) as [ips4 s1|s1];
      [|discriminate H].
    destruct (Main.getIP w Ns TypeAAAA Main.resolver s1) as [ips6 s2|s2];
      [|discriminate H].
    apply IH in H. rewrite H, length_app. cbn. lia.
Qed.

End Discovery.

(** Whatever [findNS] returns, the error with it is nil: the list built
    by the loop is never empty. *)
Lemma findNS_error_always_nil (w : World) (domain : string) (st : St) :
  match Main.findNS w domain st with
  | Returns (nsinfos, err) _ => err = None
  | Panics _ => True
  end.
Proof.
  unfold Main.findNS, bind.
  destruct (Main.queryRRset w domain TypeNS Main.resolver false st)
    as [[rrset err] s1|s1] eqn:Eq; [|exact I].
  destruct err as [e|]; [reflexivity|].
  destruct (Main.findNS_loop w rrset [] s1) as [nsinfos s2|s2] eqn:El; [|exact I].
  apply findNS_loop_length in El. apply queryRRset_nonempty in Eq.
  destruct nsinfos as [|n ns]; [|reflexivity].
  destruct rrset; [congruence|discriminate El].
Qed.

(** C8 (as the code has it).  When the NS query of [findNS] fails at the
    wire layer, or its reply holds no NS record, [findNS] returns the
    empty list together with a nil error: the failure is swallowed. *)
Theorem findNS_swallows_failure (w : World) (domain : string) (st : St) :
  match Exchange w (trace st) domain TypeNS Main.resolver false with
  | inr _ => True
  | inl m => Main.extractRR (Answer m) TypeNS = []
  end ->
  Main.findNS w domain st
  = Returns ([], None)
      (mkSt (ticks st)
            (EvExchange domain TypeNS Main.resolver false
               (Exchange w (trace st) domain TypeNS Main.resolver false)
             :: trace st)).
Proof.
  intros H. unfold Main.findNS, Main.queryRRset, bind.
  rewrite Main_query_eq.
  destruct (Exchange w (trace st) domain TypeNS Main.resolver false) as [m|e];
    [|reflexivity].
  rewrite H. reflexivity.
Qed.

Lemma findNS_swallows_failure_witness :
  Main.findNS Fixture.plain "nowhere.test." Fixture.st0
  = Returns ([], None)
      (mkSt 0 [EvExchange "nowhere.test." TypeNS Main.resolver false
                 (inr "i/o timeout"%string)]).
Proof.
  apply (findNS_swallows_failure Fixture.plain "nowhere.test." Fixture.st0).
  exact I.
Defined.

(** C8 as stated fails: the NS query for a name the resolver cannot reach
    fails at the wire layer, and [findNS] answers with an empty list and a
    nil error. *)
Lemma findNS_empty_counterexample :
  exists st',
    Main.findNS Fixture.plain "nowhere.test." Fixture.st0
    = Returns ([], None) st' /\
    trace st' = [EvExchange "nowhere.test." TypeNS Main.resolver false
                   (inr "i/o timeout"%string)].
Proof. eexists. split; reflexivity. Qed.

(** ** The zone validator: one DNSKEY query *)

Lemma Scan_query_eq (w : World) (q : string) (qtype : Z) (server : string)
    (sec : bool) (st : St) :
  Scan.query w q qtype server sec st =
  Returns
    match Exchange w (trace st) q qtype server sec with
    | inl m => (mkResponse (Some m), None)
    | inr e => (mkResponse None, Some (TransportError e))
    end
    (mkSt (ticks st)
          (EvExchange q qtype server sec
             (Exchange w (trace st) q qtype server sec) :: trace st)).
Proof.
  unfold Scan.query, bind. rewrite Main_query_eq.
  destruct (Exchange w (trace st) q qtype server sec); reflexivity.
Qed.

(** C7 (as the code has it).  A DNSKEY query that fails at the wire layer
    is not surfaced: [LookupDNSKEY] returns a nil error and a response
    without message, the key map untouched, and [validateDomain] goes on
    with the remaining addresses as if that one had not been asked. *)
Theorem transport_failure_skipped (w : World) (domain nsip : string)
    (rest : list IP) (keyMap : gmap Z DNSKEY) (st : St) (e : string) :
  Exchange w (trace st) domain TypeDNSKEY nsip true = inr e ->
  Scan.LookupDNSKEY w domain nsip keyMap st
  = Returns (mkResponse None, None, keyMap)
      (mkSt (ticks st)
            (EvExchange domain TypeDNSKEY nsip true (inr e) :: trace st)) /\
  Scan.validateDomain_ips w domain (nsip :: rest) keyMap st
  = Scan.validateDomain_ips w domain rest keyMap
      (mkSt (ticks st)
            (EvExchange domain TypeDNSKEY nsip true (inr e) :: trace st)).
Proof.
  intros He.
  assert (H : Scan.LookupDNSKEY w domain nsip keyMap st
              = Returns (mkResponse None, None, keyMap)
                  (mkSt (ticks st)
                     (EvExchange domain TypeDNSKEY nsip true (inr e) :: trace st))).
  { unfold Scan.LookupDNSKEY, bind. rewrite Scan_query_eq, He. reflexivity. }
  split; [exact H|].
  cbn [Scan.validateDomain_ips]. unfold bind at 1. rewrite H. reflexivity.
Qed.

Lemma transport_failure_skipped_witness :
  Scan.validateDomain_ips Fixture.oneDown Fixture.zone
    [Fixture.ip1; Fixture.ip2] ∅ Fixture.st0
  = Scan.validateDomain_ips Fixture.oneDown Fixture.zone [Fixture.ip2] ∅
      (mkSt 0 [EvExchange Fixture.zone TypeDNSKEY Fixture.ip1 true
                 (inr "i/o timeout"%string)]).
Proof.
  apply (transport_failure_skipped Fixture.oneDown Fixture.zone Fixture.ip1
           [Fixture.ip2] ∅ Fixture.st0 "i/o timeout").
  reflexivity.
Defined.

(** C7 as stated fails: the first server of the zone does not answer the
    DNSKEY query, and [validateDomain] succeeds all the same. *)
Lemma transport_failure_counterexample :
  exists st',
    Scan.validateDomain Fixture.oneDown Fixture.zone Fixture.st0
    = Returns (true, None) st' /\
    In (EvExchange Fixture.zone TypeDNSKEY Fixture.ip1 true
          (inr "i/o timeout"%string)) (trace st').
Proof.
  eexists. split; [vm_compute; reflexivity|].
  cbn [trace]. repeat (first [left; reflexivity | right]).
Qed.

(** ** What a run adds to the trace *)

Lemma adds_ret (P : Event -> Prop) {A} (a : A) (st : St) :
  adds P st (ret a st).
Proof. exists []. split; [reflexivity|constructor]. Qed.

Lemma adds_panic (P : Event -> Prop) {A} (st : St) :
  adds P st (@panic A st).
Proof. exists []. split; [reflexivity|constructor]. Qed.

Lemma adds_bind (P : Event -> Prop) {A B} (m : M A) (f : A -> M B) (st : St) :
  adds P st (m st) ->
  (forall a s1, m st = Returns a s1 -> adds P s1 (f a s1)) ->
  adds P st (bind m f st).
Proof.
  intros (evs1 & Ht1 & Hp1) Hf. unfold bind.
  destruct (m st) as [a s1|s1] eqn:Em.
  - destruct (Hf a s1 eq_refl) as (evs2 & Ht2 & Hp2).
    exists (evs2 ++ evs1). cbn [final] in Ht1. split.
    + rewrite Ht2, Ht1. apply app_assoc.
    + apply Forall_app. split; assumption.
  - exists evs1. split; assumption.
Qed.

Lemma adds_weaken (P Q : Event -> Prop) {A} (st : St) (o : outcome A) :
  (forall ev, P ev -> Q ev) -> adds P st o -> adds Q st o.
Proof.
  intros HPQ (evs & Ht & Hp). exists evs. split; [exact Ht|].
  eapply Forall_impl; [exact Hp|exact HPQ].
Qed.

Section ResolverRuns.

Variable w : World.

Lemma queryRRset_adds (q : string) (qtype : Z) (st : St) :
  qtype = TypeNS \/ qtype = TypeA \/ qtype = TypeAAAA ->
  adds is_resolver_ev st (Main.queryRRset w q qtype Main.resolver false st).
Proof.
  intros Hq. unfold Main.queryRRset, bind. rewrite Main_query_eq.
  assert (Hev : forall r, is_resolver_ev (EvExchange q qtype Main.resolver false r)).
  { intros r. cbn. auto. }
  destruct (Exchange w (trace st) q qtype Main.resolver false) as [m|e].
  - destruct (length (Main.extractRR (Answer m) qtype) =? 0)%nat;
      (eexists [_]; split; [reflexivity|]; constructor; [apply Hev|constructor]).
  - eexists [_]. split; [reflexivity|]. constructor; [apply Hev|constructor].
Qed.

Lemma getIP_adds (host : string) (qtype : Z) (st : St) :
  qtype = TypeA \/ qtype = TypeAAAA ->
  adds is_resolver_ev st (Main.getIP w host qtype Main.resolver st).
Proof.
  intros Hq. unfold Main.getIP.
  apply adds_bind; [apply queryRRset_adds; tauto|].
  intros [rrset err] s1 _. destruct err; apply adds_ret.
Qed.

Lemma findNS_loop_adds (rrset : list RR) :
  forall nsinfos st,
    adds is_resolver_ev st (Main.findNS_loop w rrset nsinfos st).
Proof.
  induction rrset as [|rr rest IH]; intros nsinfos st.
  - apply adds_ret.
  - cbn [Main.findNS_loop].
    destruct (Data rr); try apply adds_panic.
    apply adds_bind; [apply getIP_adds; tauto|]. intros ips4 s1 _.
    apply adds_bind; [apply getIP_adds; tauto|]. intros ips6 s2 _.
    apply IH.
Qed.

(** NS discovery talks to the resolver only. *)
Lemma findNS_adds (domain : string) (st : St) :
  adds is_resolver_ev st (Main.findNS w domain st).
Proof.
  unfold Main.findNS. apply adds_bind; [apply queryRRset_adds; tauto|].
  intros [rrset err] s1 _. destruct err; [apply adds_ret|].
  apply adds_bind; [apply findNS_loop_adds|].
  intros nsinfos s2 _.
  destruct (length nsinfos =? 0)%nat; apply adds_ret.
Qed.

(** The verifier adds nothing to the trace. *)
Lemma validateRRSIG_trace (keys rrset : list RR) (st : St) :
  trace (final (Scan.validateRRSIG w keys rrset st)) = trace st.
Proof.
  unfold Scan.validateRRSIG.
  destruct (length rrset =? 0)%nat; [reflexivity|].
  destruct (Scan.splitRRSIG rrset None []) as [sig cleanset].
  apply validateRRSIG_keys_state.
Qed.

End ResolverRuns.

(** ** The DNSKEY phase *)

Section DNSKEYPhase.

Variable w : World.
Variable domain : string.

Lemma received_nil (k : DNSKEY) : ~ received domain [] k.
Proof. intros (srv & m & r & [] & _). Qed.

Lemma received_app (evs1 evs2 : list Event) (k : DNSKEY) :
  received domain (evs1 ++ evs2) k <->
  received domain evs1 k \/ received domain evs2 k.
Proof.
  unfold received. split.
  - intros (srv & m & r & Hin & Hr). apply in_app_or in Hin.
    destruct Hin as [Hin|Hin]; [left|right]; exists srv, m, r; tauto.
  - intros [(srv & m & r & Hin & Hr)|(srv & m & r & Hin & Hr)];
      exists srv, m, r; (split; [apply in_or_app; tauto|exact Hr]).
Qed.

Lemma received_cons (ev : Event) (evs : list Event) (k : DNSKEY) :
  received domain (ev :: evs) k <->
  received domain [ev] k \/ received domain evs k.
Proof. apply (received_app [ev] evs k). Qed.

(** The keys one answer brings. *)
Lemma received_answer (srv : string) (m : Msg) (k : DNSKEY) :
  received domain [EvExchange domain TypeDNSKEY srv true (inl m)] k <->
  exists r, In r (Answer m) /\ Data r = D_DNSKEY k.
Proof.
  unfold received. split.
  - intros (srv' & m' & r & [Hev|[]] & Hr). inversion Hev; subst.
    exists r. exact Hr.
  - intros (r & Hr). exists srv, m, r. split; [left; reflexivity|exact Hr].
Qed.

Lemma received_failure (q : string) (qtype : Z) (srv : string) (sec : bool)
    (e : string) (k : DNSKEY) :
  ~ received domain [EvExchange q qtype srv sec (inr e)] k.
Proof. intros (srv' & m & r & [Hev|[]] & _). discriminate Hev. Qed.

Lemma received_resolver (evs : list Event) (k : DNSKEY) :
  Forall is_resolver_ev evs -> ~ received domain evs k.
Proof.
  intros Hall (srv & m & r & Hin & _).
  rewrite List.Forall_forall in Hall. apply Hall in Hin.
  destruct Hin as (_ & Hsec & _). discriminate Hsec.
Qed.

(** Keys that a key map represents agree on the public key of a tag. *)
Lemma represented_agree (keyMap : gmap Z DNSKEY) (k1 k2 : DNSKEY) :
  represented w keyMap k1 -> represented w keyMap k2 ->
  KeyTag w k1 = KeyTag w k2 -> PublicKey k1 = PublicKey k2.
Proof.
  intros (k1' & H1 & E1) (k2' & H2 & E2) Ht.
  rewrite Ht in H1. rewrite H1 in H2. inversion H2; subst. congruence.
Qed.

Lemma represented_consistent (keyMap : gmap Z DNSKEY) (evs : list Event) :
  (forall k, received domain evs k -> represented w keyMap k) ->
  consistent w domain evs.
Proof.
  intros H k1 k2 H1 H2. apply (represented_agree keyMap); auto.
Qed.

(** The loop of [LookupDNSKEY] keeps the key map representing every key it
    has taken in; the only error it ends with is the inconsistency. *)
Lemma LookupDNSKEY_loop_spec (answers : list RR) :
  forall found keyMap (S : DNSKEY -> Prop),
    (forall k, S k -> represented w keyMap k) ->
    match Scan.LookupDNSKEY_loop w answers found keyMap with
    | (Go _, keyMap') =>
        forall k, (S k \/ exists r, In r answers /\ Data r = D_DNSKEY k) ->
                  represented w keyMap' k
    | (Return_ e, _) => e = InconsistentKeys
    end.
Proof.
  induction answers as [|a rest IH]; intros found keyMap S HS.
  - cbn. intros k [Hk|(r & [] & _)]. apply HS. exact Hk.
  - cbn [Scan.LookupDNSKEY_loop].
    assert (Hother : forall found',
      (forall key, Data a <> D_DNSKEY key) ->
      match Scan.LookupDNSKEY_loop w rest found' keyMap with
      | (Go _, keyMap') =>
          forall k, (S k \/ exists r, In r (a :: rest) /\ Data r = D_DNSKEY k) ->
                    represented w keyMap' k
      | (Return_ e, _) => e = InconsistentKeys
      end).
    { intros found' Hno. specialize (IH found' keyMap S HS).
      destruct (Scan.LookupDNSKEY_loop w rest found' keyMap) as [[e|f] km'];
        [exact IH|].
      intros k [Hk|(r & [Hr|Hr] & Hd)].
      - apply IH. left. exact Hk.
      - subst r. exfalso. exact (Hno k Hd).
      - apply IH. right. exists r. split; assumption. }
    destruct (Data a) as [ | | |key| | | ] eqn:Ha;
      try (apply Hother; intros key' Hc; discriminate Hc).
    assert (Hins : forall k,
              (S k \/ k = key) ->
              (forall k', keyMap !! KeyTag w key = Some k' ->
                          PublicKey key = PublicKey k') ->
              represented w (<[KeyTag w key := key]> keyMap) k).
    { intros k Hk Hsame. unfold represented.
      destruct (decide (KeyTag w key = KeyTag w k)) as [Heq|Hne].
      - exists key. rewrite <- Heq, lookup_insert_eq. split; [reflexivity|].
        destruct Hk as [Hk| ->]; [|reflexivity].
        destruct (HS k Hk) as (k' & Hl & Hp). rewrite <- Heq in Hl.
        rewrite (Hsame k' Hl). exact Hp.
      - destruct Hk as [Hk| ->]; [|congruence].
        destruct (HS k Hk) as (k' & Hl & Hp).
        exists k'. rewrite lookup_insert_ne by exact Hne.
        split; assumption. }
    assert (Hgo : (forall k', keyMap !! KeyTag w key = Some k' ->
                              PublicKey key = PublicKey k') ->
      match Scan.LookupDNSKEY_loop w rest true (<[KeyTag w key := key]> keyMap) with
      | (Go _, keyMap') =>
          forall k, (S k \/ exists r, In r (a :: rest) /\ Data r = D_DNSKEY k) ->
                    represented w keyMap' k
      | (Return_ e, _) => e = InconsistentKeys
      end).
    { intros Hsame.
      specialize (IH true (<[KeyTag w key := key]> keyMap)
                     (fun k => S k \/ k = key)
                     (fun k Hk => Hins k Hk Hsame)).
      destruct (Scan.LookupDNSKEY_loop w rest true (<[KeyTag w key := key]> keyMap))
        as [[e|f] km']; [exact IH|].
      intros k [Hk|(r & [Hr|Hr] & Hd)].
      - apply IH. left. left. exact Hk.
      - subst r. rewrite Ha in Hd. inversion Hd; subst.
        apply IH. left. right. reflexivity.
      - apply IH. right. exists r. split; assumption. }
    destruct (keyMap !! KeyTag w key) as [exist_|] eqn:Hl.
    + destruct (String.eqb (PublicKey key) (PublicKey exist_)) eqn:Hp;
        cbn [negb]; [|reflexivity].
      apply Hgo. intros k' Hk'. inversion Hk'; subst.
      apply String.eqb_eq. exact Hp.
    + apply Hgo. intros k' Hk'. discriminate Hk'.
Qed.

Lemma LookupDNSKEY_eq (nsip : string) (keyMap : gmap Z DNSKEY) (st : St) :
  Scan.LookupDNSKEY w domain nsip keyMap st =
  Returns
    match Exchange w (trace st) domain TypeDNSKEY nsip true with
    | inr e => (mkResponse None, None, keyMap)
    | inl m =>
        match Scan.LookupDNSKEY_loop w (Answer m) false keyMap with
        | (Return_ e, keyMap') => (mkResponse (Some m), Some e, keyMap')
        | (Go found, keyMap') =>
            if negb found
            then (mkResponse (Some m), Some (NoDNSKEY domain nsip), keyMap')
            else (mkResponse (Some m), None, keyMap')
        end
    end
    (mkSt (ticks st)
          (EvExchange domain TypeDNSKEY nsip true
             (Exchange w (trace st) domain TypeDNSKEY nsip true) :: trace st)).
Proof.
  unfold Scan.LookupDNSKEY, bind. rewrite Scan_query_eq.
  destruct (Exchange w (trace st) domain TypeDNSKEY nsip true) as [m|e];
    [|reflexivity].
  cbn [Resp_Msg].
  destruct (Scan.LookupDNSKEY_loop w (Answer m) false keyMap) as [[e|found] km'];
    [reflexivity|].
  destruct (negb found); reflexivity.
Qed.

End DNSKEYPhase.

Section DNSKEYLoops.

Variable w : World.
Variable domain : string.

(** One turn of the loop over the addresses of a nameserver. *)
Lemma validateDomain_ips_cons (nsip : IP) (rest : list IP)
    (keyMap : gmap Z DNSKEY) (st : St) :
  let reply := Exchange w (trace st) domain TypeDNSKEY nsip true in
  let st1 := mkSt (ticks st)
                  (EvExchange domain TypeDNSKEY nsip true reply :: trace st) in
  Scan.validateDomain_ips w domain (nsip :: rest) keyMap st =
  match reply with
  | inr _ => Scan.validateDomain_ips w domain rest keyMap st1
  | inl m =>
      match Scan.LookupDNSKEY_loop w (Answer m) false keyMap with
      | (Return_ e, _) => Returns (Return_ (false, Some e)) st1
      | (Go found, keyMap1) =>
          if negb found
          then Returns (Return_ (false, Some (NoDNSKEY domain nsip))) st1
          else
            match Scan.validateRRSIG w (Answer m) (Answer m) st1 with
            | Returns (valid, _, _) s2 =>
                if valid then Scan.validateDomain_ips w domain rest keyMap1 s2
                else Returns
                       (Return_ (false, Some (DNSKEYValidationFailed domain))) s2
            | Panics s2 => Panics s2
            end
      end
  end.
Proof.
  intros reply st1. cbn [Scan.validateDomain_ips]. unfold bind at 1.
  rewrite LookupDNSKEY_eq. fold reply. fold st1.
  destruct reply as [m|e]; [|reflexivity].
  destruct (Scan.LookupDNSKEY_loop w (Answer m) false keyMap)
    as [[e|found] keyMap1]; [reflexivity|].
  destruct found; cbn [negb Resp_Msg]; [|reflexivity].
  unfold bind, Scan.validateDNSKEY.
  destruct (Scan.validateRRSIG w (Answer m) (Answer m) st1)
    as [[[valid info] err] s2|s2]; [|reflexivity].
  destruct valid; reflexivity.
Qed.

(** The loop over the addresses of one nameserver. *)
Lemma validateDomain_ips_spec (ips : list IP) :
  forall keyMap st evs0,
    (forall k, received domain evs0 k -> represented w keyMap k) ->
    exists evs,
      trace (final (Scan.validateDomain_ips w domain ips keyMap st))
      = evs ++ trace st /\
      Forall (is_dnskey_exchange domain) evs /\
      dnskey_phase_post w domain
        (Scan.validateDomain_ips w domain ips keyMap st) (evs ++ evs0).
Proof.
  induction ips as [|nsip rest IH]; intros keyMap st evs0 Hrep.
  - exists []. cbn. split; [reflexivity|]. split; [constructor|exact Hrep].
  - rewrite validateDomain_ips_cons. cbv zeta.
    (* going on with the rest of the addresses from a state [s2] *)
    assert (Hnext : forall ev keyMap1 s2,
              is_dnskey_exchange domain ev ->
              trace s2 = ev :: trace st ->
              (forall k, received domain (ev :: evs0) k -> represented w keyMap1 k) ->
              exists evs,
                trace (final (Scan.validateDomain_ips w domain rest keyMap1 s2))
                = evs ++ trace st /\
                Forall (is_dnskey_exchange domain) evs /\
                dnskey_phase_post w domain
                  (Scan.validateDomain_ips w domain rest keyMap1 s2) (evs ++ evs0)).
    { intros ev keyMap1 s2 Hev Hs2 Hrep1.
      destruct (IH keyMap1 s2 (ev :: evs0) Hrep1) as (evs & Ht & Hall & Hpost).
      exists (evs ++ [ev]). split; [|split].
      - rewrite Ht, Hs2, <- app_assoc. reflexivity.
      - apply Forall_app. split; [exact Hall|]. constructor; [exact Hev|constructor].
      - rewrite <- app_assoc. exact Hpost. }
    (* stopping here, with the keys received so far represented *)
    assert (Hstop : forall ev keyMap1
                      (o : outcome (ctl (bool * option error) (gmap Z DNSKEY))),
              is_dnskey_exchange domain ev ->
              trace (final o) = ev :: trace st ->
              (forall k, received domain (ev :: evs0) k -> represented w keyMap1 k) ->
              match o with
              | Returns (Go _) _ => False
              | _ => True
              end ->
              exists evs,
                trace (final o) = evs ++ trace st /\
                Forall (is_dnskey_exchange domain) evs /\
                dnskey_phase_post w domain o (evs ++ evs0)).
    { intros ev keyMap1 o Hev Ho Hrep1 Hshape.
      exists [ev]. split; [exact Ho|]. split; [repeat constructor; exact Hev|].
      pose proof (represented_consistent w domain keyMap1 (ev :: evs0) Hrep1) as Hc.
      destruct o as [[r|km] s|s]; cbn; [right; exact Hc|contradiction|exact Hc]. }
    destruct (Exchange w (trace st) domain TypeDNSKEY nsip true) as [m|e].
    + set (ev := EvExchange domain TypeDNSKEY nsip true (inl m)).
      assert (Hev : is_dnskey_exchange domain ev) by (exists nsip, (inl m); reflexivity).
      pose proof (LookupDNSKEY_loop_spec w (Answer m) false keyMap
                    (received domain evs0) Hrep) as Hloop.
      destruct (Scan.LookupDNSKEY_loop w (Answer m) false keyMap)
        as [[e|found] keyMap1].
      * subst e. exists [ev]. split; [reflexivity|].
        split; [repeat constructor; exact Hev|]. cbn. left. reflexivity.
      * assert (Hrep1 : forall k, received domain (ev :: evs0) k ->
                                  represented w keyMap1 k).
        { intros k Hk. apply Hloop.
          destruct (proj1 (received_cons domain _ _ _) Hk) as [Hk'|Hk'];
            [right|left; exact Hk'].
          exact (proj1 (received_answer domain _ _ _) Hk'). }
        destruct found; cbn [negb].
        -- pose proof (validateRRSIG_trace w (Answer m) (Answer m)
                         (mkSt (ticks st) (ev :: trace st))) as Htr.
           fold ev.
           destruct (Scan.validateRRSIG w (Answer m) (Answer m)
                       (mkSt (ticks st) (ev :: trace st)))
             as [[[valid info] err] s2|s2]; cbn [final trace] in Htr.
           ++ destruct valid.
              ** apply (Hnext ev keyMap1 s2 Hev Htr Hrep1).
              ** apply (Hstop ev keyMap1); [exact Hev|exact Htr|exact Hrep1|exact I].
           ++ apply (Hstop ev keyMap1); [exact Hev|exact Htr|exact Hrep1|exact I].
        -- apply (Hstop ev keyMap1); [exact Hev|reflexivity|exact Hrep1|exact I].
    + set (ev := EvExchange domain TypeDNSKEY nsip true (inr e)).
      apply (Hnext ev); [exists nsip, (inr e); reflexivity|reflexivity|].
      intros k Hk.
      destruct (proj1 (received_cons domain _ _ _) Hk) as [Hk'|Hk'];
        [|apply Hrep; exact Hk'].
      exfalso. exact (received_failure domain _ _ _ _ _ _ Hk').
Qed.

(** The loop over the nameservers of the zone. *)
Lemma validateDomain_nss_spec (nsdata : list NSInfo) :
  forall keyMap st evs0,
    (forall k, received domain evs0 k -> represented w keyMap k) ->
    exists evs,
      trace (final (Scan.validateDomain_nss w domain nsdata keyMap st))
      = evs ++ trace st /\
      Forall (is_dnskey_exchange domain) evs /\
      dnskey_phase_post w domain
        (Scan.validateDomain_nss w domain nsdata keyMap st) (evs ++ evs0).
Proof.
  induction nsdata as [|ns rest IH]; intros keyMap st evs0 Hrep.
  - exists []. cbn. split; [reflexivity|]. split; [constructor|exact Hrep].
  - cbn [Scan.validateDomain_nss]. unfold bind.
    destruct (validateDomain_ips_spec (NS_IP ns) keyMap st evs0 Hrep)
      as (evs1 & Ht1 & Hall1 & Hpost1).
    destruct (Scan.validateDomain_ips w domain (NS_IP ns) keyMap st)
      as [[r|keyMap1] s1|s1]; cbn [final] in Ht1.
    + exists evs1. split; [exact Ht1|]. split; [exact Hall1|exact Hpost1].
    + cbn in Hpost1.
      destruct (IH keyMap1 s1 (evs1 ++ evs0) Hpost1) as (evs2 & Ht2 & Hall2 & Hpost2).
      exists (evs2 ++ evs1). split; [|split].
      * rewrite Ht2, Ht1. apply app_assoc.
      * apply Forall_app. split; assumption.
      * rewrite <- app_assoc. exact Hpost2.
    + exists evs1. split; [exact Ht1|]. split; [exact Hall1|exact Hpost1].
Qed.

End DNSKEYLoops.

(** ** The DS phase *)

Section DSPhase.

Variable w : World.
Variable domain : string.
Variable keyMap : gmap Z DNSKEY.

(** A DS record of digest type 3 leaves the loop over the answers as it
    found it. *)
Lemma validateParentDS_answers_skip (a : RR) (ds : DS) (rest : list RR)
    (found : bool) :
  Data a = D_DS ds -> DigestType ds = 3 ->
  Scan.validateParentDS_answers w keyMap (a :: rest) found
  = Scan.validateParentDS_answers w keyMap rest found.
Proof.
  intros Ha Ht. cbn [Scan.validateParentDS_answers]. rewrite Ha, Ht.
  destruct (keyMap !! DS_KeyTag ds); reflexivity.
Qed.

(** The only [return] inside the loop over the answers is
    [return false, nil]. *)
Lemma validateParentDS_answers_return (answers : list RR) :
  forall found r,
    Scan.validateParentDS_answers w keyMap answers found = Return_ r ->
    r = (false, None).
Proof.
  induction answers as [|a rest IH]; intros found r H; [discriminate H|].
  cbn [Scan.validateParentDS_answers] in H.
  destruct (Data a) as [ | | | |ds| | ]; try (apply IH in H; exact H).
  destruct (keyMap !! DS_KeyTag ds) as [key|]; [|apply IH in H; exact H].
  destruct (DigestType ds =? 3); [apply IH in H; exact H|].
  destruct (ToDS w key (DigestType ds)) as [childDS|]; [|apply IH in H; exact H].
  destruct (String.eqb (Digest ds) (Digest childDS)); [apply IH in H; exact H|].
  inversion H. reflexivity.
Qed.

(** A mismatching record anywhere in the answers ends the loop. *)
Lemma validateParentDS_answers_mismatch (answers : list RR) :
  forall found,
    (exists r, In r answers /\ mismatching w keyMap r) ->
    Scan.validateParentDS_answers w keyMap answers found = Return_ (false, None).
Proof.
  induction answers as [|a rest IH]; intros found (r & Hin & Hm);
    [destruct Hin|].
  destruct (Scan.validateParentDS_answers w keyMap (a :: rest) found)
    as [res|found'] eqn:E.
  { apply validateParentDS_answers_return in E. subst res. reflexivity. }
  exfalso. cbn [Scan.validateParentDS_answers] in E.
  destruct Hin as [Hin|Hin].
  - subst r. destruct Hm as (ds & key & childDS & Hd & Hl & Ht & Hc & Hne).
    rewrite Hd, Hl, Hc in E.
    apply Z.eqb_neq in Ht. rewrite Ht in E.
    apply String.eqb_neq in Hne. rewrite Hne in E. discriminate E.
  - assert (Hrest : forall f, Scan.validateParentDS_answers w keyMap rest f
                              = Return_ (false, None)).
    { intros f. apply IH. exists r. split; assumption. }
    destruct (Data a) as [ | | | |ds| | ]; try (rewrite Hrest in E; discriminate E).
    destruct (keyMap !! DS_KeyTag ds) as [key|];
      [|rewrite Hrest in E; discriminate E].
    destruct (DigestType ds =? 3); [rewrite Hrest in E; discriminate E|].
    destruct (ToDS w key (DigestType ds)) as [childDS|];
      [|rewrite Hrest in E; discriminate E].
    destruct (String.eqb (Digest ds) (Digest childDS));
      [rewrite Hrest in E; discriminate E|discriminate E].
Qed.

(** If every DS record with a key tag of the key map has digest type 3,
    the loop over the answers changes nothing. *)
Lemma validateParentDS_answers_type3 (answers : list RR) :
  forall found,
    (forall r ds key, In r answers -> Data r = D_DS ds ->
       keyMap !! DS_KeyTag ds = Some key -> DigestType ds = 3) ->
    Scan.validateParentDS_answers w keyMap answers found = Go found.
Proof.
  induction answers as [|a rest IH]; intros found H; [reflexivity|].
  assert (Hrest : Scan.validateParentDS_answers w keyMap rest found = Go found).
  { apply IH. intros r ds key Hin. apply H. right. exact Hin. }
  cbn [Scan.validateParentDS_answers].
  destruct (Data a) as [ | | | |ds| | ] eqn:Ha; try exact Hrest.
  destruct (keyMap !! DS_KeyTag ds) as [key|] eqn:Hl; [|exact Hrest].
  rewrite (H a ds key (or_introl eq_refl) Ha Hl). exact Hrest.
Qed.

(** One turn of the loop over the addresses of a parent nameserver. *)
Lemma validateParentDS_ips_cons (nsip : IP) (rest : list IP) (found : bool)
    (st : St) :
  let reply := Exchange w (trace st) domain TypeDS nsip true in
  let st1 := mkSt (ticks st)
                  (EvExchange domain TypeDS nsip true reply :: trace st) in
  Scan.validateParentDS_ips w domain keyMap (nsip :: rest) found st =
  match reply with
  | inr _ => Returns (Go found) st1
  | inl m =>
      if (length (Answer m) =? 0)%nat
      then Returns (Return_ (false, Some (NoDS domain nsip))) st1
      else
        match Scan.validateParentDS_answers w keyMap (Answer m) found with
        | Return_ r => Returns (Return_ r) st1
        | Go found' => Scan.validateParentDS_ips w domain keyMap rest found' st1
        end
  end.
Proof.
  intros reply st1. cbn [Scan.validateParentDS_ips]. unfold bind at 1.
  rewrite Scan_query_eq. fold reply. fold st1.
  destruct reply as [m|e]; [|reflexivity].
  cbn [Resp_Msg].
  destruct (length (Answer m) =? 0)%nat; [reflexivity|].
  destruct (Scan.validateParentDS_answers w keyMap (Answer m) found); reflexivity.
Qed.

Lemma ds_mismatch_received_cons (ev : Event) (evs : list Event) :
  ds_mismatch_received w keyMap domain (evs ++ [ev]) ->
  ds_mismatch_received w keyMap domain evs \/
  exists srv m r, ev = EvExchange domain TypeDS srv true (inl m) /\
                  In r (Answer m) /\ mismatching w keyMap r.
Proof.
  intros (srv & m & r & Hin & Hr). apply in_app_or in Hin.
  destruct Hin as [Hin|[Hin|[]]].
  - left. exists srv, m, r. split; assumption.
  - right. exists srv, m, r. split; [exact Hin|exact Hr].
Qed.

(** The loop over the addresses of one parent nameserver. *)
Lemma validateParentDS_ips_spec (ips : list IP) :
  forall found st,
    exists evs c st',
      Scan.validateParentDS_ips w domain keyMap ips found st = Returns c st' /\
      trace st' = evs ++ trace st /\
      Forall (is_ds_exchange domain) evs /\
      ds_loop_post w keyMap domain found c evs.
Proof.
  induction ips as [|nsip rest IH]; intros found st.
  - exists [], (Go found), st. split; [reflexivity|]. split; [reflexivity|].
    split; [constructor|]. split; [|split].
    + intros (srv & m & r & [] & _).
    + intros _. left. reflexivity.
    + intros _ nsip. discriminate.
  - rewrite validateParentDS_ips_cons. cbv zeta.
    destruct (Exchange w (trace st) domain TypeDS nsip true) as [m|e].
    + set (ev := EvExchange domain TypeDS nsip true (inl m)).
      assert (Hev : is_ds_exchange domain ev) by (exists nsip, (inl m); reflexivity).
      destruct (length (Answer m) =? 0)%nat eqn:Hlen.
      * exists [ev], (Return_ (false, Some (NoDS domain nsip))), (mkSt (ticks st) (ev :: trace st)).
        split; [reflexivity|]. split; [reflexivity|].
        split; [repeat constructor; exact Hev|].
        apply Nat.eqb_eq in Hlen. apply length_zero_iff_nil in Hlen.
        split; [|split].
        -- intros (srv & m' & r & [Hin|[]] & Hr & _).
           inversion Hin; subst m'. rewrite Hlen in Hr. destruct Hr.
        -- intros _. right. exists nsip. reflexivity.
        -- intros Hne. exfalso. apply (Hne nsip m); [left; reflexivity|exact Hlen].
      * destruct (Scan.validateParentDS_answers w keyMap (Answer m) found)
          as [r|found'] eqn:Ea.
        -- apply validateParentDS_answers_return in Ea as Hr. subst r.
           exists [ev], (Return_ (false, None)), (mkSt (ticks st) (ev :: trace st)).
           split; [reflexivity|]. split; [reflexivity|].
           split; [repeat constructor; exact Hev|].
           split; [|split].
           ++ intros _. reflexivity.
           ++ intros Hall. exfalso.
              rewrite validateParentDS_answers_type3 in Ea; [discriminate Ea|].
              intros r ds key Hin. apply (Hall nsip m). left. reflexivity.
              exact Hin.
           ++ intros _ nsip'. discriminate.
        -- destruct (IH found' (mkSt (ticks st) (ev :: trace st)))
             as (evs & c & st' & Erun & Ht & Hall & Hm & H3 & Hne).
           exists (evs ++ [ev]), c, st'.
           split; [exact Erun|].
           split; [rewrite Ht, <- app_assoc; reflexivity|].
           split; [apply Forall_app; split;
                   [exact Hall|repeat constructor; exact Hev]|].
           split; [|split].
           ++ intros Hmis. apply ds_mismatch_received_cons in Hmis.
              destruct Hmis as [Hmis|(srv & m' & r & Heq & Hin & Hr)];
                [apply Hm; exact Hmis|].
              exfalso. inversion Heq; subst m'.
              rewrite validateParentDS_answers_mismatch in Ea;
                [discriminate Ea|]. exists r. split; assumption.
           ++ intros H3all.
              rewrite validateParentDS_answers_type3 in Ea.
              ** inversion Ea; subst found'. apply H3.
                 intros srv m' r ds key Hin. apply (H3all srv m').
                 apply in_or_app. left. exact Hin.
              ** intros r ds key Hin. apply (H3all nsip m).
                 apply in_or_app. right. left. reflexivity. exact Hin.
           ++ intros Hnone. apply Hne.
              intros srv m' Hin. apply (Hnone srv m').
              apply in_or_app. left. exact Hin.
    + set (ev := EvExchange domain TypeDS nsip true (inr e)).
      exists [ev], (Go found), (mkSt (ticks st) (ev :: trace st)).
      split; [reflexivity|]. split; [reflexivity|].
      split; [repeat constructor; exists nsip, (inr e); reflexivity|].
      split; [|split].
      * intros (srv & m & r & [Hin|[]] & _). discriminate Hin.
      * intros _. left. reflexivity.
      * intros _ nsip'. discriminate.
Qed.

End DSPhase.

(** ** Reading a trace in parts *)

Lemma resolver_ev_other (ev : Event) :
  is_resolver_ev ev -> not_ds_query ev /\ not_dnskey_query ev /\ not_enter ev.
Proof.
  destruct ev as [q qtype srv sec r|d km]; cbn; [|tauto].
  intros (_ & Hsec & _). subst sec.
  unfold not_ds_query, not_dnskey_query, not_enter.
  split; [|split]; intros; discriminate.
Qed.

Lemma dnskey_exchange_other (domain : string) (ev : Event) :
  is_dnskey_exchange domain ev -> not_ds_query ev /\ not_enter ev.
Proof.
  intros (srv & r & ->). unfold not_ds_query, not_enter.
  split; intros; discriminate.
Qed.

Lemma ds_exchange_other (domain : string) (ev : Event) :
  is_ds_exchange domain ev -> not_dnskey_query ev /\ not_enter ev.
Proof.
  intros (srv & r & ->). unfold not_dnskey_query, not_enter.
  split; intros; discriminate.
Qed.

Lemma enter_other (d : string) (km : gmap Z DNSKEY) :
  not_ds_query (EvEnterParentDS d km) /\ not_dnskey_query (EvEnterParentDS d km).
Proof.
  unfold not_ds_query, not_dnskey_query. split; intros; discriminate.
Qed.

Lemma received_among (domain : string) (evs evs' : list Event) (k : DNSKEY) :
  (forall ev, In ev evs -> In ev evs' \/ not_dnskey_query ev) ->
  received domain evs k -> received domain evs' k.
Proof.
  intros Hsub (srv & m & r & Hin & Hr).
  destruct (Hsub _ Hin) as [Hin'|Hq].
  - exists srv, m, r. split; assumption.
  - exfalso. exact (Hq _ _ _ eq_refl).
Qed.

Lemma consistent_among (w : World) (domain : string) (evs evs' : list Event) :
  (forall ev, In ev evs -> In ev evs' \/ not_dnskey_query ev) ->
  consistent w domain evs' -> consistent w domain evs.
Proof.
  intros Hsub Hc k1 k2 H1 H2.
  apply Hc; eapply received_among; eassumption.
Qed.

Lemma ds_mismatch_among (w : World) (keyMap : gmap Z DNSKEY) (domain : string)
    (evs evs' : list Event) :
  (forall ev, In ev evs -> In ev evs' \/ not_ds_query ev) ->
  ds_mismatch_received w keyMap domain evs ->
  ds_mismatch_received w keyMap domain evs'.
Proof.
  intros Hsub (srv & m & r & Hin & Hr).
  destruct (Hsub _ Hin) as [Hin'|Hq].
  - exists srv, m, r. split; assumption.
  - exfalso. exact (Hq _ _ _ eq_refl).
Qed.

Lemma ds_all_type3_sub (keyMap : gmap Z DNSKEY) (domain : string)
    (evs evs' : list Event) :
  (forall ev, In ev evs' -> In ev evs) ->
  ds_all_type3 keyMap domain evs -> ds_all_type3 keyMap domain evs'.
Proof.
  intros Hsub H srv m r ds key Hin. apply (H srv m). apply Hsub. exact Hin.
Qed.

Lemma ds_none_empty_sub (domain : string) (evs evs' : list Event) :
  (forall ev, In ev evs' -> In ev evs) ->
  ds_none_empty domain evs -> ds_none_empty domain evs'.
Proof.
  intros Hsub H srv m Hin. apply (H srv m). apply Hsub. exact Hin.
Qed.

Section DSRuns.

Variable w : World.
Variable domain : string.
Variable keyMap : gmap Z DNSKEY.

(** The loop over the parent's nameservers. *)
Lemma validateParentDS_nss_spec (nsdata : list NSInfo) :
  forall found st,
    exists evs c st',
      Scan.validateParentDS_nss w domain keyMap nsdata found st = Returns c st' /\
      trace st' = evs ++ trace st /\
      Forall (is_ds_exchange domain) evs /\
      ds_loop_post w keyMap domain found c evs.
Proof.
  induction nsdata as [|ns rest IH]; intros found st.
  - exists [], (Go found), st. split; [reflexivity|]. split; [reflexivity|].
    split; [constructor|]. split; [|split].
    + intros (srv & m & r & [] & _).
    + intros _. left. reflexivity.
    + intros _ nsip. discriminate.
  - cbn [Scan.validateParentDS_nss]. unfold bind.
    destruct (validateParentDS_ips_spec w domain keyMap (NS_IP ns) found st)
      as (evs1 & c1 & s1 & E1 & Ht1 & Hall1 & Hm1 & H31 & Hne1).
    rewrite E1. destruct c1 as [r|found1].
    + exists evs1, (Return_ r), s1. split; [reflexivity|].
      split; [exact Ht1|]. split; [exact Hall1|].
      split; [exact Hm1|]. split; [exact H31|exact Hne1].
    + destruct (IH found1 s1) as (evs2 & c & s2 & E2 & Ht2 & Hall2 & Hm2 & H32 & Hne2).
      exists (evs2 ++ evs1), c, s2. split; [exact E2|].
      split; [rewrite Ht2, Ht1; apply app_assoc|].
      split; [apply Forall_app; split; assumption|].
      split; [|split].
      * intros (srv & m & r & Hin & Hr). apply in_app_or in Hin.
        destruct Hin as [Hin|Hin].
        -- apply Hm2. exists srv, m, r. split; assumption.
        -- exfalso.
           assert (Hmis : ds_mismatch_received w keyMap domain evs1)
             by (exists srv, m, r; split; assumption).
           apply Hm1 in Hmis. discriminate Hmis.
      * intros H3.
        assert (Hf : found1 = found).
        { destruct H31 as [Hgo|(nsip & Hno)].
          - eapply ds_all_type3_sub; [|exact H3].
            intros ev Hin. apply in_or_app. right. exact Hin.
          - inversion Hgo. reflexivity.
          - discriminate Hno. }
        subst found1. apply H32.
        eapply ds_all_type3_sub; [|exact H3].
        intros ev Hin. apply in_or_app. left. exact Hin.
      * intros Hnone. apply Hne2.
        eapply ds_none_empty_sub; [|exact Hnone].
        intros ev Hin. apply in_or_app. left. exact Hin.
Qed.

(** [validateParentDS]: it records its entry, discovers the parent's
    nameservers, and runs the loops. *)
Lemma validateParentDS_spec (st : St) :
  exists evs,
    trace (final (Scan.validateParentDS w domain keyMap st)) = evs ++ trace st /\
    Forall (fun ev => ev = EvEnterParentDS domain keyMap \/
                      is_resolver_ev ev \/ is_ds_exchange domain ev) evs /\
    ds_phase_post w keyMap domain (Scan.validateParentDS w domain keyMap st) evs.
Proof.
  unfold Scan.validateParentDS, bind, logEvent.
  set (enter := EvEnterParentDS domain keyMap).
  set (st1 := mkSt (ticks st) (enter :: trace st)).
  destruct (findNS_adds w (Scan.getParentDomain domain) st1) as (evsF & HtF & HallF).
  unfold Scan.FindNS.
  assert (Hquiet : forall ev, In ev (evsF ++ [enter]) -> not_ds_query ev).
  { intros ev Hin. apply in_app_or in Hin. destruct Hin as [Hin|[<-|[]]].
    - rewrite List.Forall_forall in HallF.
      apply (resolver_ev_other ev (HallF ev Hin)).
    - apply enter_other. }
  assert (HclassF : Forall (fun ev => ev = enter \/ is_resolver_ev ev \/
                                      is_ds_exchange domain ev) (evsF ++ [enter])).
  { apply Forall_app. split.
    - eapply Forall_impl; [exact HallF|]. intros ev H. right. left. exact H.
    - constructor; [left; reflexivity|constructor]. }
  destruct (Main.findNS w (Scan.getParentDomain domain) st1)
    as [[nsdata err] s2|s2]; cbn [final] in HtF.
  - destruct (validateParentDS_nss_spec nsdata false s2)
      as (evsL & c & s3 & EL & HtL & HallL & Hm & H3 & Hne).
    rewrite EL.
    assert (Hsub : forall ev, In ev (evsL ++ evsF ++ [enter]) ->
                              In ev evsL \/ not_ds_query ev).
    { intros ev Hin. apply in_app_or in Hin. destruct Hin as [Hin|Hin];
        [left; exact Hin|right; apply Hquiet; exact Hin]. }
    assert (HsubL : forall ev, In ev evsL -> In ev (evsL ++ evsF ++ [enter])).
    { intros ev Hin. apply in_or_app. left. exact Hin. }
    exists (evsL ++ evsF ++ [enter]).
    assert (Htrace : trace s3 = (evsL ++ evsF ++ [enter]) ++ trace st).
    { rewrite HtL, HtF. cbn [st1 trace].
      rewrite <- !app_assoc. reflexivity. }
    assert (Hclass : Forall (fun ev => ev = enter \/ is_resolver_ev ev \/
                                       is_ds_exchange domain ev)
                            (evsL ++ evsF ++ [enter])).
    { apply Forall_app. split; [|exact HclassF].
      eapply Forall_impl; [exact HallL|]. intros ev H. right. right. exact H. }
    destruct c as [r|found].
    + split; [exact Htrace|]. split; [exact Hclass|].
      split; [|split].
      * intros Hmis. apply (ds_mismatch_among _ _ _ _ evsL Hsub) in Hmis.
        apply Hm in Hmis. inversion Hmis; subst r. eexists. reflexivity.
      * intros Hall res st' Hres. inversion Hres; subst res st'.
        destruct (H3 (ds_all_type3_sub _ _ _ _ HsubL Hall)) as [Hgo|(nsip & Hno)];
          [discriminate Hgo|].
        inversion Hno; subst r. right. exists nsip. reflexivity.
      * intros Hall Hnone res st' Hres. exfalso.
        destruct (H3 (ds_all_type3_sub _ _ _ _ HsubL Hall)) as [Hgo|(nsip & Hno)];
          [discriminate Hgo|].
        exact (Hne (ds_none_empty_sub _ _ _ HsubL Hnone) nsip Hno).
    + assert (Hgo3 : ds_all_type3 keyMap domain (evsL ++ evsF ++ [enter]) ->
                     found = false).
      { intros Hall.
        destruct (H3 (ds_all_type3_sub _ _ _ _ HsubL Hall)) as [Hgo|(nsip & Hno)];
          [inversion Hgo; reflexivity|discriminate Hno]. }
      destruct found; cbn [negb].
      * split; [exact Htrace|]. split; [exact Hclass|].
        split; [|split].
        -- intros Hmis. apply (ds_mismatch_among _ _ _ _ evsL Hsub) in Hmis.
           apply Hm in Hmis. discriminate Hmis.
        -- intros Hall. apply Hgo3 in Hall. discriminate Hall.
        -- intros Hall. apply Hgo3 in Hall. discriminate Hall.
      * split; [exact Htrace|]. split; [exact Hclass|].
        split; [|split].
        -- intros Hmis. apply (ds_mismatch_among _ _ _ _ evsL Hsub) in Hmis.
           apply Hm in Hmis. discriminate Hmis.
        -- intros _ res st' Hres. inversion Hres. left. reflexivity.
        -- intros _ _ res st' Hres. inversion Hres. reflexivity.
  - exists (evsF ++ [enter]). split; [|split; [exact HclassF|]].
    + cbn [final]. rewrite HtF. cbn [st1 trace].
      rewrite <- app_assoc. reflexivity.
    + split; [|split].
      * intros (srv & m & r & Hin & _). exfalso.
        exact (Hquiet _ Hin _ _ _ eq_refl).
      * intros _ res st' Hres. discriminate Hres.
      * intros _ _ res st' Hres. discriminate Hres.
Qed.

End DSRuns.

(** ** One zone *)

Lemma no_ds_phase_parts (domain : string) (evs : list Event) :
  Forall (fun ev => is_resolver_ev ev \/ is_dnskey_exchange domain ev) evs ->
  no_ds_phase evs.
Proof.
  intros Hall ev Hin. rewrite List.Forall_forall in Hall.
  destruct (Hall ev Hin) as [Hr|(srv & r & ->)].
  - destruct ev as [q qtype srv sec r|d km]; cbn in Hr; [|contradiction].
    destruct Hr as (_ & _ & [ -> | [ -> | -> ] ]); discriminate.
  - discriminate.
Qed.

Section Zone.

Variable w : World.
Variable domain : string.

(** A run of [validateDomain] either ends in the DNSKEY phase, and then
    with the inconsistency error unless the keys received were
    consistent; or it enters the DS phase, once, with a key map, and
    ends as that phase does. *)
Lemma validateDomain_spec (st : St) :
  exists evs,
    trace (final (Scan.validateDomain w domain st)) = evs ++ trace st /\
    ((no_ds_phase evs /\
      ((exists st', Scan.validateDomain w domain st
                    = Returns (false, Some InconsistentKeys) st') \/
       consistent w domain evs)) \/
     (exists keyMap,
        consistent w domain evs /\
        (forall d km, In (EvEnterParentDS d km) evs -> d = domain /\ km = keyMap) /\
        ds_phase_post w keyMap domain (Scan.validateDomain w domain st) evs)).
Proof.
  unfold Scan.validateDomain, bind, Scan.FindNS.
  destruct (findNS_adds w domain st) as (evsA & HtA & HallA).
  assert (HqA : forall ev, In ev evsA ->
                  not_ds_query ev /\ not_dnskey_query ev /\ not_enter ev).
  { intros ev Hin. rewrite List.Forall_forall in HallA.
    apply resolver_ev_other. apply HallA. exact Hin. }
  destruct (Main.findNS w domain st) as [[nsdata err] s1|s1]; cbn [final] in HtA.
  2:{ exists evsA. split; [exact HtA|]. left. split.
      - apply (no_ds_phase_parts domain).
        eapply Forall_impl; [exact HallA|]. intros ev H. left. exact H.
      - right. intros k1 k2 H1. exfalso. exact (received_resolver domain evsA k1 HallA H1). }
  destruct (validateDomain_nss_spec w domain nsdata ∅ s1 [])
    as (evs1 & Ht1 & Hall1 & Hpost1).
  { intros k Hk. exfalso. exact (received_nil domain k Hk). }
  rewrite app_nil_r in Hpost1.
  assert (Hq1 : forall ev, In ev evs1 -> not_ds_query ev /\ not_enter ev).
  { intros ev Hin. rewrite List.Forall_forall in Hall1.
    apply (dnskey_exchange_other domain). apply Hall1. exact Hin. }
  assert (Hno1 : no_ds_phase (evs1 ++ evsA)).
  { apply (no_ds_phase_parts domain). apply Forall_app. split.
    - eapply Forall_impl; [exact Hall1|]. intros ev H. right. exact H.
    - eapply Forall_impl; [exact HallA|]. intros ev H. left. exact H. }
  assert (Hc1 : consistent w domain evs1 -> consistent w domain (evs1 ++ evsA)).
  { apply consistent_among. intros ev Hin. apply in_app_or in Hin.
    destruct Hin as [Hin|Hin]; [left; exact Hin|right; apply HqA; exact Hin]. }
  destruct (Scan.validateDomain_nss w domain nsdata ∅ s1)
    as [[r|keyMap] s2|s2]; cbn [final] in Ht1; cbn in Hpost1; cbn [final ret].
  - exists (evs1 ++ evsA). split; [rewrite Ht1, HtA; apply app_assoc|].
    left. split; [exact Hno1|].
    destruct Hpost1 as [ -> | Hc ]; [left; eexists; reflexivity|right; auto].
  - assert (Hcons : consistent w domain evs1)
      by (apply (represented_consistent w domain keyMap); exact Hpost1).
    destruct (findNS_adds w (Scan.getParentDomain domain) s2) as (evsB & HtB & HallB).
    assert (HqB : forall ev, In ev evsB ->
                    not_ds_query ev /\ not_dnskey_query ev /\ not_enter ev).
    { intros ev Hin. rewrite List.Forall_forall in HallB.
      apply resolver_ev_other. apply HallB. exact Hin. }
    destruct (Main.findNS w (Scan.getParentDomain domain) s2)
      as [[nsdataP errP] s3|s3]; cbn [final] in HtB.
    + destruct (validateParentDS_spec w domain keyMap s3)
        as (evsC & HtC & HclassC & HpostC).
      exists (evsC ++ evsB ++ evs1 ++ evsA). split.
      { rewrite HtC, HtB, Ht1, HtA. rewrite <- !app_assoc. reflexivity. }
      right. exists keyMap.
      assert (HinC : forall ev, In ev (evsC ++ evsB ++ evs1 ++ evsA) ->
                In ev evsC \/ (not_ds_query ev /\ not_enter ev)).
      { intros ev Hin. apply in_app_or in Hin. destruct Hin as [Hin|Hin];
          [left; exact Hin|right].
        apply in_app_or in Hin. destruct Hin as [Hin|Hin];
          [split; apply HqB; exact Hin|].
        apply in_app_or in Hin. destruct Hin as [Hin|Hin];
          [apply Hq1; exact Hin|split; apply HqA; exact Hin]. }
      assert (HsubC : forall ev, In ev evsC -> In ev (evsC ++ evsB ++ evs1 ++ evsA)).
      { intros ev Hin. apply in_or_app. left. exact Hin. }
      rewrite List.Forall_forall in HclassC.
      split; [|split].
      * eapply consistent_among; [|exact Hcons].
        intros ev Hin. apply in_app_or in Hin. destruct Hin as [Hin|Hin].
        { right. destruct (HclassC ev Hin) as [->|[Hr|Hd]].
          - apply enter_other.
          - apply resolver_ev_other. exact Hr.
          - apply (ds_exchange_other domain). exact Hd. }
        apply in_app_or in Hin. destruct Hin as [Hin|Hin];
          [right; apply HqB; exact Hin|].
        apply in_app_or in Hin. destruct Hin as [Hin|Hin];
          [left; exact Hin|right; apply HqA; exact Hin].
      * intros d km Hin. destruct (HinC _ Hin) as [Hin'|[_ Hne]].
        -- destruct (HclassC _ Hin') as [Heq|[Hr|(srv & r & Hd)]].
           ++ inversion Heq. split; reflexivity.
           ++ destruct Hr.
           ++ discriminate Hd.
        -- exfalso. exact (Hne _ _ eq_refl).
      * destruct HpostC as (Hm & H3 & H3n).
        split; [|split].
        -- intros Hmis. apply Hm.
           eapply ds_mismatch_among; [|exact Hmis].
           intros ev Hin. destruct (HinC _ Hin) as [Hin'|[Hq _]]; auto.
        -- intros Hall. apply H3. eapply ds_all_type3_sub; eassumption.
        -- intros Hall Hnone. apply H3n.
           ++ eapply ds_all_type3_sub; eassumption.
           ++ eapply ds_none_empty_sub; eassumption.
    + exists (evsB ++ evs1 ++ evsA). split.
      { cbn [final]. rewrite HtB, Ht1, HtA. rewrite <- !app_assoc. reflexivity. }
      left. split.
      * apply (no_ds_phase_parts domain). apply Forall_app. split.
        -- eapply Forall_impl; [exact HallB|]. intros ev H. left. exact H.
        -- apply Forall_app. split.
           ++ eapply Forall_impl; [exact Hall1|]. intros ev H. right. exact H.
           ++ eapply Forall_impl; [exact HallA|]. intros ev H. left. exact H.
      * right. eapply consistent_among; [|exact Hcons].
        intros ev Hin. apply in_app_or in Hin. destruct Hin as [Hin|Hin];
          [right; apply HqB; exact Hin|].
        apply in_app_or in Hin. destruct Hin as [Hin|Hin];
          [left; exact Hin|right; apply HqA; exact Hin].
  - exists (evs1 ++ evsA). split; [rewrite Ht1, HtA; apply app_assoc|].
    left. split; [exact Hno1|]. right. auto.
Qed.

End Zone.

(** ** The claims about one zone *)

(** C3.  If the answers to the DNSKEY queries of a run of [validateDomain]
    brought two DNSKEY records with the same key tag and different public
    keys, the run returns [false] with the inconsistency error and shows
    nothing of the DS phase: [validateParentDS] is not entered and no DS
    query is made. *)
Theorem inconsistent_keys (w : World) (domain : string) (st : St)
    (evs : list Event) (k1 k2 : DNSKEY) :
  trace (final (Scan.validateDomain w domain st)) = evs ++ trace st ->
  received domain evs k1 ->
  received domain evs k2 ->
  KeyTag w k1 = KeyTag w k2 ->
  PublicKey k1 <> PublicKey k2 ->
  (exists st', Scan.validateDomain w domain st
               = Returns (false, Some InconsistentKeys) st') /\
  no_ds_phase evs.
Proof.
  intros Ht H1 H2 Htag Hpk.
  destruct (validateDomain_spec w domain st) as (evs' & Ht' & H).
  rewrite Ht in Ht'. apply app_inv_tail in Ht'. subst evs'.
  destruct H as [[Hno [Hinc|Hc]]|(km & Hc & _)].
  - split; assumption.
  - exfalso. apply Hpk. apply Hc; assumption.
  - exfalso. apply Hpk. apply Hc; assumption.
Qed.

Lemma inconsistent_keys_witness :
  exists st',
    Scan.validateDomain Fixture.disagree Fixture.zone Fixture.st0
    = Returns (false, Some InconsistentKeys) st'.
Proof.
  refine (proj1 (inconsistent_keys Fixture.disagree Fixture.zone Fixture.st0
            (trace (final (Scan.validateDomain Fixture.disagree Fixture.zone
                             Fixture.st0)))
            Fixture.keyA Fixture.keyB _ _ _ _ _)).
  - vm_compute. reflexivity.
  - exists Fixture.ip1,
      (mkMsg [Fixture.rr Fixture.zone TypeDNSKEY (D_DNSKEY Fixture.keyA);
              Fixture.rr Fixture.zone TypeRRSIG
                (D_RRSIG (Fixture.sigBy Fixture.zone Fixture.keyA
                            1600000000 1800000000))]),
      (Fixture.rr Fixture.zone TypeDNSKEY (D_DNSKEY Fixture.keyA)).
    split; [vm_compute; repeat first [left; reflexivity | right]|].
    split; [left; reflexivity|reflexivity].
  - exists Fixture.ip2,
      (mkMsg [Fixture.rr Fixture.zone TypeDNSKEY (D_DNSKEY Fixture.keyB);
              Fixture.rr Fixture.zone TypeRRSIG
                (D_RRSIG (Fixture.sigBy Fixture.zone Fixture.keyB
                            1600000000 1800000000))]),
      (Fixture.rr Fixture.zone TypeDNSKEY (D_DNSKEY Fixture.keyB)).
    split; [vm_compute; repeat first [left; reflexivity | right]|].
    split; [left; reflexivity|reflexivity].
  - reflexivity.
  - discriminate.
Defined.

(** C1 (as the code has it).  If a run of [validateDomain] entered the DS
    phase and an answer to one of its DS queries held a record whose key
    tag is in the key map, whose digest type is not 3, and whose digest
    differs from the one derived from the child key, the run returns
    [false] with a nil error; [validateChain] then returns [false] with
    its own general error. *)
Theorem digest_mismatch_no_error (w : World) (domain : string) (st : St)
    (evs : list Event) (keyMap : gmap Z DNSKEY) :
  trace (final (Scan.validateDomain w domain st)) = evs ++ trace st ->
  In (EvEnterParentDS domain keyMap) evs ->
  ds_mismatch_received w keyMap domain evs ->
  exists st',
    Scan.validateDomain w domain st = Returns (false, None) st' /\
    Scan.validateChain w domain st = Returns (false, Some ChainFailed) st'.
Proof.
  intros Ht Henter Hmis.
  destruct (validateDomain_spec w domain st) as (evs' & Ht' & H).
  rewrite Ht in Ht'. apply app_inv_tail in Ht'. subst evs'.
  destruct H as [[Hno _]|(km & _ & Hone & Hm & _)].
  - exfalso. exact (Hno _ Henter).
  - destruct (Hone _ _ Henter) as [_ <-].
    destruct (Hm Hmis) as [st' E]. exists st'. split; [exact E|].
    unfold Scan.validateChain. cbn [Scan.validateChain_loop].
    rewrite E. reflexivity.
Qed.

(** C1 as stated fails: with the altered DS of scenario (b) the zone
    validator returns [false] and no error at all, and the chain walker
    its general error. *)
Lemma digest_mismatch_counterexample :
  exists st',
    Scan.validateDomain Fixture.alteredDigest Fixture.zone Fixture.st0
    = Returns (false, None) st' /\
    Scan.validateChain Fixture.alteredDigest Fixture.zone Fixture.st0
    = Returns (false, Some ChainFailed) st' /\
    In (EvEnterParentDS Fixture.zone Fixture.keyMapA) (trace st') /\
    ds_mismatch_received Fixture.alteredDigest Fixture.keyMapA Fixture.zone
      (trace st').
Proof.
  eexists. split; [vm_compute; reflexivity|].
  split; [vm_compute; reflexivity|].
  split; [vm_compute; repeat first [left; reflexivity | right]|].
  exists Fixture.pip1,
    (mkMsg [Fixture.rr Fixture.zone TypeDS
              (D_DS (mkDS (Fixture.fx_KeyTag Fixture.keyA) 8 2 "H(AAAB)"))]),
    (Fixture.rr Fixture.zone TypeDS
       (D_DS (mkDS (Fixture.fx_KeyTag Fixture.keyA) 8 2 "H(AAAB)"))).
  split; [vm_compute; repeat first [left; reflexivity | right]|].
  split; [left; reflexivity|].
  exists (mkDS (Fixture.fx_KeyTag Fixture.keyA) 8 2 "H(AAAB)"), Fixture.keyA,
    (mkDS (Fixture.fx_KeyTag Fixture.keyA) 8 2 "H(AAAA)").
  split; [reflexivity|]. split; [reflexivity|].
  split; [discriminate|]. split; [reflexivity|discriminate].
Qed.

Lemma digest_mismatch_no_error_witness :
  exists st',
    Scan.validateDomain Fixture.alteredDigest Fixture.zone Fixture.st0
    = Returns (false, None) st' /\
    Scan.validateChain Fixture.alteredDigest Fixture.zone Fixture.st0
    = Returns (false, Some ChainFailed) st'.
Proof.
  refine (digest_mismatch_no_error Fixture.alteredDigest Fixture.zone Fixture.st0
            (trace (final (Scan.validateDomain Fixture.alteredDigest Fixture.zone
                             Fixture.st0)))
            Fixture.keyMapA _ _ _).
  - vm_compute. reflexivity.
  - vm_compute. repeat first [left; reflexivity | right].
  - exists Fixture.pip1,
      (mkMsg [Fixture.rr Fixture.zone TypeDS
                (D_DS (mkDS (Fixture.fx_KeyTag Fixture.keyA) 8 2 "H(AAAB)"))]),
      (Fixture.rr Fixture.zone TypeDS
         (D_DS (mkDS (Fixture.fx_KeyTag Fixture.keyA) 8 2 "H(AAAB)"))).
    split; [vm_compute; repeat first [left; reflexivity | right]|].
    split; [left; reflexivity|].
    exists (mkDS (Fixture.fx_KeyTag Fixture.keyA) 8 2 "H(AAAB)"), Fixture.keyA,
      (mkDS (Fixture.fx_KeyTag Fixture.keyA) 8 2 "H(AAAA)").
    split; [reflexivity|]. split; [reflexivity|].
    split; [discriminate|]. split; [reflexivity|discriminate].
Defined.

(** C5 (as the code has it).  A DS record of digest type 3 is passed over
    by the loop of the DS phase: it leaves the flag and the course of the
    loop as they were.  If a run of [validateDomain] entered the DS phase
    and every DS record it received whose key tag is in the key map had
    digest type 3, the run fails, never with the [(false, nil)] of a
    digest mismatch: with the no-matching-key-tag error, or with the no-DS
    error of a parent server that answered with an empty answer section;
    when no answer was empty it is the no-matching-key-tag error. *)
Theorem gost_ds_skipped (w : World) (domain : string) (keyMap : gmap Z DNSKEY) :
  (forall a ds rest found,
      Data a = D_DS ds -> DigestType ds = 3 ->
      Scan.validateParentDS_answers w keyMap (a :: rest) found
      = Scan.validateParentDS_answers w keyMap rest found) /\
  (forall st evs res st',
      Scan.validateDomain w domain st = Returns res st' ->
      trace st' = evs ++ trace st ->
      In (EvEnterParentDS domain keyMap) evs ->
      ds_all_type3 keyMap domain evs ->
      (res = (false, Some (NoMatchingKeyTag domain (Scan.getParentDomain domain))) \/
       exists nsip, res = (false, Some (NoDS domain nsip))) /\
      (ds_none_empty domain evs ->
       res = (false, Some (NoMatchingKeyTag domain (Scan.getParentDomain domain))))).
Proof.
  split.
  - intros a ds rest found. apply validateParentDS_answers_skip.
  - intros st evs res st' E Ht Henter Hall.
    destruct (validateDomain_spec w domain st) as (evs' & Ht' & H).
    rewrite E in Ht'. cbn [final] in Ht'.
    rewrite Ht in Ht'. apply app_inv_tail in Ht'. subst evs'.
    destruct H as [[Hno _]|(km & _ & Hone & _ & H3 & H3n)].
    + exfalso. exact (Hno _ Henter).
    + destruct (Hone _ _ Henter) as [_ <-]. split.
      * apply (H3 Hall res st' E).
      * intros Hnone. apply (H3n Hall Hnone res st' E).
Qed.

Lemma gost_ds_skipped_witness :
  exists res,
    Scan.validateDomain Fixture.gostOnly Fixture.zone Fixture.st0
    = Returns res (final (Scan.validateDomain Fixture.gostOnly Fixture.zone
                            Fixture.st0)) /\
    res = (false, Some (NoMatchingKeyTag Fixture.zone
                          (Scan.getParentDomain Fixture.zone))).
Proof.
  exists (false, Some (NoMatchingKeyTag Fixture.zone "test.")).
  split; [vm_compute; reflexivity|].
  refine (proj2 (proj2 (gost_ds_skipped Fixture.gostOnly Fixture.zone
                          Fixture.keyMapA)
                   Fixture.st0
                   (trace (final (Scan.validateDomain Fixture.gostOnly
                                    Fixture.zone Fixture.st0)))
                   (false, Some (NoMatchingKeyTag Fixture.zone "test."))
                   (final (Scan.validateDomain Fixture.gostOnly Fixture.zone
                             Fixture.st0))
                   _ _ _ _) _).
  - vm_compute. reflexivity.
  - vm_compute. reflexivity.
  - vm_compute. repeat first [left; reflexivity | right].
  - intros srv m r ds key Hin Hr Hd Hl.
    each_exchange Hin; inversion Hin; subst;
      (destruct Hr as [<-|[]]); inversion Hd; reflexivity.
  - intros srv m Hin.
    each_exchange Hin; inversion Hin; discriminate.
Defined.

(** C5 as stated fails: the first parent server publishes a DS of digest
    type 3 whose key tag is that of the child key, the second answers
    with an empty answer section, and the failure is the no-DS error. *)
Lemma gost_ds_counterexample :
  exists st',
    Scan.validateDomain Fixture.gostThenEmpty Fixture.zone Fixture.st0
    = Returns (false, Some (NoDS Fixture.zone Fixture.pip2)) st' /\
    In (EvEnterParentDS Fixture.zone Fixture.keyMapA) (trace st') /\
    ds_all_type3 Fixture.keyMapA Fixture.zone (trace st') /\
    exists m r ds,
      In (EvExchange Fixture.zone TypeDS Fixture.pip1 true (inl m)) (trace st') /\
      In r (Answer m) /\ Data r = D_DS ds /\ DigestType ds = 3 /\
      Fixture.keyMapA !! DS_KeyTag ds = Some Fixture.keyA.
Proof.
  eexists. split; [vm_compute; reflexivity|].
  split; [vm_compute; repeat first [left; reflexivity | right]|].
  split.
  - intros srv m r ds key Hin Hr Hd Hl.
    each_exchange Hin; inversion Hin; subst.
    + destruct Hr.
    + destruct Hr as [<-|[]]. inversion Hd. reflexivity.
  - exists (mkMsg [Fixture.rr Fixture.zone TypeDS
                     (D_DS (mkDS (Fixture.fx_KeyTag Fixture.keyA) 8 3 "gost"))]),
      (Fixture.rr Fixture.zone TypeDS
         (D_DS (mkDS (Fixture.fx_KeyTag Fixture.keyA) 8 3 "gost"))),
      (mkDS (Fixture.fx_KeyTag Fixture.keyA) 8 3 "gost").
    split; [vm_compute; repeat first [left; reflexivity | right]|].
    split; [left; reflexivity|]. repeat split; reflexivity.
Qed.

(** * Further properties of the code *)

(** ** main.go: transport and NS discovery *)

Lemma extractRR_types (rrset : list RR) (qtype : Z) :
  Forall (fun rr => Rrtype (Hdr rr) = qtype) (Main.extractRR rrset qtype).
Proof.
  apply List.Forall_forall. intros rr Hin.
  apply filter_In in Hin. destruct Hin as [_ H]. apply Z.eqb_eq. exact H.
Qed.

(** X1.  [queryRRset] makes one exchange and never faults.  With a nil
    error it returns a non-empty record set: the records of the answer
    whose header type is the one asked for, in the order of the answer.
    With an error the record set is empty; the error is the transport's,
    or the no-answer error when the answer has no record of the type. *)
Theorem queryRRset_contract (w : World) (q : string) (qtype : Z)
    (server : string) (sec : bool) (st : St) :
  exists rrset err,
    Main.queryRRset w q qtype server sec st
    = Returns (rrset, err)
        (mkSt (ticks st)
              (EvExchange q qtype server sec
                 (Exchange w (trace st) q qtype server sec) :: trace st)) /\
    match err with
    | None =>
        rrset <> [] /\
        Forall (fun rr => Rrtype (Hdr rr) = qtype) rrset /\
        exists m, Exchange w (trace st) q qtype server sec = inl m /\
                  rrset = Main.extractRR (Answer m) qtype
    | Some e =>
        rrset = [] /\
        match Exchange w (trace st) q qtype server sec with
        | inr detail => e = TransportError detail
        | inl m => e = NoAnswer qtype /\ Main.extractRR (Answer m) qtype = []
        end
    end.
Proof.
  unfold Main.queryRRset, bind. rewrite Main_query_eq.
  destruct (Exchange w (trace st) q qtype server sec) as [m|e].
  - destruct (Main.extractRR (Answer m) qtype) as [|r rest] eqn:E.
    + exists [], (Some (NoAnswer qtype)). cbn. repeat split; reflexivity.
    + exists (r :: rest), None. cbn. split; [reflexivity|].
      split; [discriminate|]. split.
      * rewrite <- E. apply extractRR_types.
      * exists m. split; [reflexivity|symmetry; exact E].
  - exists [], (Some (TransportError e)). cbn. repeat split; reflexivity.
Qed.

Lemma getIP_loop_flat (rrset : list RR) :
  forall ips, Main.getIP_loop rrset ips = ips ++ flat_map addrOf rrset.
Proof.
  induction rrset as [|rr rest IH]; intros ips; cbn [Main.getIP_loop flat_map].
  - symmetry. apply app_nil_r.
  - unfold addrOf at 1.
    destruct (Data rr); rewrite IH; cbn [app]; try reflexivity;
      rewrite <- app_assoc; reflexivity.
Qed.

(** X2.  [getIP] makes one exchange and never faults.  It returns the
    addresses carried by the A and AAAA records among the records of the
    answer whose header type is the one asked for, in the order of the
    answer; a failed query gives no address and no error. *)
Theorem getIP_addresses (w : World) (host : string) (qtype : Z)
    (server : string) (st : St) :
  Main.getIP w host qtype server st
  = Returns
      match Exchange w (trace st) host qtype server false with
      | inl m => flat_map addrOf (Main.extractRR (Answer m) qtype)
      | inr _ => []
      end
      (mkSt (ticks st)
            (EvExchange host qtype server false
               (Exchange w (trace st) host qtype server false) :: trace st)).
Proof.
  unfold Main.getIP, Main.queryRRset, bind. rewrite Main_query_eq.
  destruct (Exchange w (trace st) host qtype server false) as [m|e];
    [|reflexivity].
  destruct (Main.extractRR (Answer m) qtype) as [|r rest]; [reflexivity|].
  cbn [length Nat.eqb ret]. rewrite getIP_loop_flat. reflexivity.
Qed.

Lemma findNS_loop_names (w : World) (rrset : list RR) :
  forall nsinfos st res st',
    Main.findNS_loop w rrset nsinfos st = Returns res st' ->
    map NS_Name res = map NS_Name nsinfos ++ flat_map nsNameOf rrset /\
    Forall (fun rr => exists ns, Data rr = D_NS ns) rrset.
Proof.
  induction rrset as [|rr rest IH]; intros nsinfos st res st' H.
  - inversion H; subst. cbn. split; [symmetry; apply app_nil_r|constructor].
  - cbn [Main.findNS_loop] in H.
    destruct (Data rr) eqn:Hd; try discriminate H.
    unfold bind in H.
    destruct (Main.getIP w Ns TypeA Main.resolver st) as [ips4 s1|s1];
      [|discriminate H].
    destruct (Main.getIP w Ns TypeAAAA Main.resolver s1) as [ips6 s2|s2];
      [|discriminate H].
    apply IH in H. destruct H as [Hn Hall]. split.
    + rewrite Hn, map_app. cbn [map NS_Name flat_map].
      unfold nsNameOf at 2. rewrite Hd. rewrite <- app_assoc. reflexivity.
    + constructor; [exists Ns; exact Hd|exact Hall].
Qed.

(** X3.  When [findNS] returns, its error is nil and its list has one
    entry per NS-typed record of the resolver's answer, in the order of
    the answer and under the name the record carries; a failed NS query
    gives the empty list. *)
Theorem findNS_entries (w : World) (domain : string) (st : St)
    (nsinfos : list NSInfo) (err : option error) (st' : St) :
  Main.findNS w domain st = Returns (nsinfos, err) st' ->
  err = None /\
  match Exchange w (trace st) domain TypeNS Main.resolver false with
  | inr _ => nsinfos = []
  | inl m =>
      map NS_Name nsinfos
      = flat_map nsNameOf (Main.extractRR (Answer m) TypeNS) /\
      length nsinfos = length (Main.extractRR (Answer m) TypeNS)
  end.
Proof.
  intros H.
  destruct (queryRRset_contract w domain TypeNS Main.resolver false st)
    as (rrset & qerr & Eq & Hq).
  unfold Main.findNS, bind in H. rewrite Eq in H.
  destruct qerr as [e|].
  - inversion H; subst. split; [reflexivity|].
    destruct Hq as [_ Hq].
    destruct (Exchange w (trace st) domain TypeNS Main.resolver false) as [m|d].
    + destruct Hq as [_ ->]. split; reflexivity.
    + reflexivity.
  - destruct Hq as (Hne & _ & m & Em & Hr). rewrite Em.
    destruct (Main.findNS_loop w rrset []) as [res s2|s2] eqn:El;
      [|discriminate H].
    pose proof (findNS_loop_length w rrset [] _ res s2 El) as Hlen.
    apply findNS_loop_names in El. destruct El as [Hn _].
    cbn [map app length Nat.add] in Hn, Hlen. subst rrset.
    destruct (length res =? 0)%nat eqn:E0; inversion H; subst.
    + exfalso. apply Nat.eqb_eq in E0. rewrite Hlen in E0.
      apply length_zero_iff_nil in E0. exact (Hne E0).
    + split; [reflexivity|]. split; assumption.
Qed.

Lemma findNS_entries_witness :
  map NS_Name
    [mkNSInfo Fixture.ns1 [Fixture.ip1]; mkNSInfo Fixture.ns2 [Fixture.ip2]]
  = [Fixture.ns1; Fixture.ns2].
Proof.
  destruct (findNS_entries Fixture.plain Fixture.zone Fixture.st0
              [mkNSInfo Fixture.ns1 [Fixture.ip1];
               mkNSInfo Fixture.ns2 [Fixture.ip2]] None
              (final (Main.findNS Fixture.plain Fixture.zone Fixture.st0)))
    as [_ [H _]].
  - vm_compute. reflexivity.
  - exact H.
Defined.

(** X4.  NS discovery talks to the configured resolver only: every
    exchange [findNS] makes is with ["8.8.8.8"], without the DNSSEC
    options, and for NS, A or AAAA records; it never asks for DNSKEY or
    DS records. *)
Theorem findNS_resolver_only (w : World) (domain : string) (st : St) :
  exists evs,
    trace (final (Main.findNS w domain st)) = evs ++ trace st /\
    Forall is_resolver_ev evs /\
    Forall (fun ev => not_ds_query ev /\ not_dnskey_query ev) evs.
Proof.
  destruct (findNS_adds w domain st) as (evs & Ht & Hall).
  exists evs. split; [exact Ht|]. split; [exact Hall|].
  eapply Forall_impl; [exact Hall|].
  intros ev H. apply resolver_ev_other in H. tauto.
Qed.

(** ** main.go: the parent of a name *)

(** Where the scan stops at a dot: right after it, with something left. *)
Lemma NextLabel_loop_split (s : string) :
  forall i q j,
    dns.NextLabel_loop s i q = (j, false) ->
    exists pre rest,
      s = (pre ++ String "."%char rest)%string /\ rest <> EmptyString /\
      j = S (i + String.length pre).
Proof.
  induction s as [|a s IH]; intros i q j H; [discriminate H|].
  destruct s as [|b t]; [discriminate H|].
  rewrite NextLabel_loop_step in H by discriminate.
  assert (Hrec : forall q', dns.NextLabel_loop (String b t) (S i) q' = (j, false) ->
            exists pre rest,
              String a (String b t) = (pre ++ String "."%char rest)%string /\
              rest <> EmptyString /\ j = S (i + String.length pre)).
  { intros q' H'. apply IH in H'. destruct H' as (pre & rest & E & Hne & Hj).
    exists (String a pre), rest. cbn [append String.length].
    rewrite E. split; [reflexivity|]. split; [exact Hne|lia]. }
  destruct (Ascii.eqb a "\"%char); [apply (Hrec _ H)|].
  destruct (Ascii.eqb a "."%char) eqn:Ea; [|apply (Hrec _ H)].
  destruct q; [apply (Hrec _ H)|].
  apply Ascii.eqb_eq in Ea. subst a. inversion H; subst.
  exists EmptyString, (String b t). cbn.
  split; [reflexivity|]. split; [discriminate|lia].
Qed.

(** X5.  [getParentDomain] never returns the empty string: its result is
    the root ["."], or what follows a dot of the name, and then the name
    is a non-empty prefix ending in that dot followed by the result. *)
Theorem getParentDomain_suffix (domain : string) :
  Main.getParentDomain domain <> EmptyString /\
  (Main.getParentDomain domain = "."%string \/
   exists pre,
     domain = (pre ++ String "."%char (Main.getParentDomain domain))%string).
Proof.
  unfold Main.getParentDomain, dns.NextLabel. cbn [dns.drop_prefix].
  destruct (dns.NextLabel_loop domain 0 false) as [j e] eqn:E.
  destruct e; cbn [negb].
  - split; [discriminate|left; reflexivity].
  - apply NextLabel_loop_split in E.
    destruct E as (pre & rest & -> & Hne & ->). cbn [Nat.add].
    rewrite drop_prefix_app_cons. split; [exact Hne|].
    right. exists pre. reflexivity.
Qed.

(** ** The signature verifier: what an answer means, what it costs *)

Section VerifierMore.

Variable w : World.

(** Records that are not DNSKEYs do not count as keys. *)
Lemma validateRRSIG_keys_filter (sig : option RRSIG) (cleanset : list RR)
    (keys : list RR) :
  forall st,
    Scan.validateRRSIG_keys w sig cleanset keys st
    = Scan.validateRRSIG_keys w sig cleanset (List.filter isDNSKEY keys) st.
Proof.
  induction keys as [|k rest IH]; intros st; [reflexivity|].
  cbn [List.filter]. unfold isDNSKEY at 1.
  destruct (Data k) as [ | | |key| | | ] eqn:Hk;
    try (cbn [Scan.validateRRSIG_keys]; rewrite Hk; apply IH).
  cbn [Scan.validateRRSIG_keys]. rewrite Hk.
  destruct (dns.Verify w sig key cleanset); destruct sig as [sg|];
    try reflexivity; try apply IH.
  unfold bind.
  destruct (Scan.explicitValid w sg st) as [[ti te] s1|s1]; [|reflexivity].
  unfold Now. destruct (ValidityPeriod w sg (clock w (ticks s1)));
    [reflexivity|apply IH].
Qed.

Lemma explicitValid_ticks (sg : RRSIG) (st : St) :
  exists v st',
    Scan.explicitValid w sg st = Returns v st' /\
    (ticks st < ticks st' <= ticks st + 2)%nat /\ trace st' = trace st.
Proof.
  unfold Scan.explicitValid, Scan.explicitValid_utc, bind, Now, ret.
  destruct (IsZero (clock w (ticks st)));
    (eexists _, _; split; [reflexivity|]; cbn; split; [lia|reflexivity]).
Qed.

Lemma validateRRSIG_keys_cost (sig : option RRSIG) (cleanset : list RR)
    (keys : list RR) :
  forall st,
    (ticks (final (Scan.validateRRSIG_keys w sig cleanset keys st))
     <= ticks st + 3 * length (List.filter isDNSKEY keys))%nat.
Proof.
  induction keys as [|k rest IH]; intros st; [cbn; lia|].
  cbn [List.filter]. unfold isDNSKEY at 1.
  destruct (Data k) as [ | | |key| | | ] eqn:Hk;
    try (cbn [Scan.validateRRSIG_keys]; rewrite Hk; apply IH).
  cbn [Scan.validateRRSIG_keys length]. rewrite Hk.
  destruct (dns.Verify w sig key cleanset); destruct sig as [sg|];
    try (cbn [final panic ticks]; lia);
    try (specialize (IH st); lia).
  unfold bind.
  destruct (explicitValid_ticks sg st) as ([ti te] & s1 & E & Hn & _).
  rewrite E. unfold Now.
  destruct (ValidityPeriod w sg (clock w (ticks s1))).
  - cbn [ret final ticks]. lia.
  - specialize (IH (mkSt (S (ticks s1)) (trace s1))). cbn [ticks] in IH. lia.
Qed.

(** With a signature in the set the first loop's choice does not depend
    on what it held before. *)
Lemma splitRRSIG_initial (rrset : list RR) :
  forall sig0 sig1 acc,
    (exists r, In r rrset /\ isRRSIG r = true) ->
    Scan.splitRRSIG rrset sig0 acc = Scan.splitRRSIG rrset sig1 acc.
Proof.
  induction rrset as [|v rest IH]; intros sig0 sig1 acc (r & Hin & Hr);
    [destruct Hin|].
  cbn [Scan.splitRRSIG].
  destruct (Data v) eqn:Hv; try reflexivity;
    (apply IH; destruct Hin as [Hin|Hin];
     [subst r; unfold isRRSIG in Hr; rewrite Hv in Hr; discriminate Hr
     |exists r; split; assumption]).
Qed.

End VerifierMore.

(** X6.  [validateRRSIG] never returns an error.  A negative answer
    carries the empty [KeyInfo].  A positive answer means that a DNSKEY
    among the keys verifies the last RRSIG of the set over its other
    records, and that the clock was within the validity period of that
    signature at a reading made during the call. *)
Theorem validateRRSIG_sound (w : World) (keys rrset : list RR) (st : St)
    (b : bool) (ki : KeyInfo) (err : option error) (st' : St) :
  Scan.validateRRSIG w keys rrset st = Returns (b, ki, err) st' ->
  err = None /\
  (b = false -> ki = emptyKeyInfo) /\
  (b = true ->
   exists k key sg n,
     In k keys /\ Data k = D_DNSKEY key /\
     fst (Scan.splitRRSIG rrset None []) = Some sg /\
     (exists r, In r rrset /\ Data r = D_RRSIG sg) /\
     dns.Verify w (Some sg) key (snd (Scan.splitRRSIG rrset None []))
     = dns.VerifyOk /\
     ValidityPeriod w sg (clock w n) = true /\
     (ticks st <= n < ticks st')%nat).
Proof.
  intros H. unfold Scan.validateRRSIG in H.
  destruct (length rrset =? 0)%nat.
  { inversion H; subst. split; [reflexivity|].
    split; [reflexivity|discriminate]. }
  pose proof (splitRRSIG_sig rrset None []) as Hsg.
  destruct (Scan.splitRRSIG rrset None []) as [sig cleanset].
  apply validateRRSIG_keys_result in H. destruct H as (He & Hf & Ht).
  split; [exact He|]. split; [exact Hf|].
  intros Hb. destruct (Ht Hb) as (k & key & sg & n & Hin & Hd & -> & Hv & Hp & Hn).
  exists k, key, sg, n. cbn [fst snd].
  split; [exact Hin|]. split; [exact Hd|]. split; [reflexivity|].
  split.
  { destruct (Hsg sg eq_refl) as [Hx|Hx]; [discriminate Hx|exact Hx]. }
  split; [exact Hv|]. split; [exact Hp|exact Hn].
Qed.

Lemma validateRRSIG_sound_witness :
  exists k key sg n,
    In k Fixture.goodSet /\ Data k = D_DNSKEY key /\
    fst (Scan.splitRRSIG Fixture.goodSet None []) = Some sg /\
    (exists r, In r Fixture.goodSet /\ Data r = D_RRSIG sg) /\
    dns.Verify Fixture.plain (Some sg) key
      (snd (Scan.splitRRSIG Fixture.goodSet None [])) = dns.VerifyOk /\
    ValidityPeriod Fixture.plain sg (clock Fixture.plain n) = true /\
    (0 <= n < 2)%nat.
Proof.
  destruct (validateRRSIG_sound Fixture.plain Fixture.goodSet Fixture.goodSet
              Fixture.st0 true (mkKeyInfo 1600000000 1800000000) None
              (mkSt 2 []) eq_refl) as (_ & _ & H).
  exact (H eq_refl).
Defined.

(** X7.  Entries of the key list that are not DNSKEY records are passed
    over: [validateRRSIG] does with a key list what it does with the
    DNSKEY records of that list. *)
Theorem validateRRSIG_skips_other_keys (w : World) (keys rrset : list RR)
    (st : St) :
  Scan.validateRRSIG w keys rrset st
  = Scan.validateRRSIG w (List.filter isDNSKEY keys) rrset st.
Proof.
  unfold Scan.validateRRSIG.
  destruct (length rrset =? 0)%nat; [reflexivity|].
  destruct (Scan.splitRRSIG rrset None []) as [sig cleanset].
  apply validateRRSIG_keys_filter.
Qed.

(** X8.  Without a DNSKEY among the keys (an unsigned zone: no keys at
    all) [validateRRSIG] answers [(false, KeyInfo{}, nil)] for every
    record set, with or without a signature in it, and reads neither the
    clock nor the network. *)
Theorem validateRRSIG_no_keys (w : World) (keys rrset : list RR) (st : St) :
  (forall k, In k keys -> isDNSKEY k = false) ->
  Scan.validateRRSIG w keys rrset st = Returns (false, emptyKeyInfo, None) st.
Proof.
  intros Hno. rewrite validateRRSIG_skips_other_keys.
  assert (E : List.filter isDNSKEY keys = []).
  { induction keys as [|k rest IH]; [reflexivity|].
    cbn [List.filter]. rewrite (Hno k (or_introl eq_refl)).
    apply IH. intros k' Hk'. apply Hno. right. exact Hk'. }
  rewrite E. unfold Scan.validateRRSIG.
  destruct (length rrset =? 0)%nat; [reflexivity|].
  destruct (Scan.splitRRSIG rrset None []); reflexivity.
Qed.

Lemma validateRRSIG_no_keys_witness :
  Scan.validateRRSIG Fixture.plain
    [Fixture.rr Fixture.zone TypeNS (D_NS Fixture.ns1)]
    [Fixture.rr Fixture.zone TypeNS (D_NS Fixture.ns1);
     Fixture.rr Fixture.zone TypeNS (D_NS Fixture.ns2)]
    Fixture.st0
  = Returns (false, emptyKeyInfo, None) Fixture.st0.
Proof.
  apply (validateRRSIG_no_keys Fixture.plain).
  intros k [<-|[]]. reflexivity.
Defined.

(** X9.  Of several RRSIGs in a record set only the last one is used:
    putting one more RRSIG in front of a set that has one changes
    nothing. *)
Theorem validateRRSIG_last_signature (w : World) (keys : list RR) (r : RR)
    (rrset : list RR) (st : St) :
  isRRSIG r = true ->
  (exists r', In r' rrset /\ isRRSIG r' = true) ->
  Scan.validateRRSIG w keys (r :: rrset) st
  = Scan.validateRRSIG w keys rrset st.
Proof.
  intros Hr Hhas. unfold Scan.validateRRSIG.
  destruct rrset as [|v rest]; [destruct Hhas as (r' & [] & _)|].
  cbn [length Nat.eqb].
  replace (Scan.splitRRSIG (r :: v :: rest) None [])
    with (Scan.splitRRSIG (v :: rest) None []); [reflexivity|].
  unfold isRRSIG in Hr.
  change (Scan.splitRRSIG (r :: v :: rest) None [])
    with (match Data r with
          | D_RRSIG sg => Scan.splitRRSIG (v :: rest) (Some sg) []
          | _ => Scan.splitRRSIG (v :: rest) None ([] ++ [r])
          end).
  destruct (Data r); try discriminate Hr.
  apply splitRRSIG_initial. exact Hhas.
Qed.

Lemma validateRRSIG_last_signature_witness :
  Scan.validateRRSIG Fixture.plain Fixture.goodSet
    (Fixture.rr Fixture.zone TypeRRSIG
       (D_RRSIG (Fixture.sigBy Fixture.zone Fixture.keyB 1 2))
     :: Fixture.goodSet) Fixture.st0
  = Scan.validateRRSIG Fixture.plain Fixture.goodSet Fixture.goodSet Fixture.st0.
Proof.
  apply (validateRRSIG_last_signature Fixture.plain).
  - reflexivity.
  - eexists. split; [right; left; reflexivity|reflexivity].
Defined.

(** X10.  [validateRRSIG] makes no exchange on the network, and reads the
    clock at most three times for each DNSKEY among the keys. *)
Theorem validateRRSIG_cost (w : World) (keys rrset : list RR) (st : St) :
  trace (final (Scan.validateRRSIG w keys rrset st)) = trace st /\
  (ticks st <= ticks (final (Scan.validateRRSIG w keys rrset st))
   <= ticks st + 3 * length (List.filter isDNSKEY keys))%nat.
Proof.
  split; [apply validateRRSIG_trace|].
  unfold Scan.validateRRSIG.
  destruct (length rrset =? 0)%nat; [cbn; lia|].
  destruct (Scan.splitRRSIG rrset None []) as [sig cleanset].
  split; [apply validateRRSIG_keys_state|apply validateRRSIG_keys_cost].
Qed.

(** X11.  The window [explicitValid] computes is not turned around: for
    32-bit serials with the inception not after the expiration, and a
    time within [2^61] seconds of the epoch, the start is not after the
    end. *)
Theorem explicitValid_order (utc : Z) (rr : RRSIG) :
  0 <= Inception rr ->
  Inception rr <= Expiration rr ->
  Expiration rr < 2^32 ->
  - 2^61 <= utc <= 2^61 ->
  fst (Scan.explicitValid_at utc rr) <= snd (Scan.explicitValid_at utc rr).
Proof.
  intros H0 Hle H32 Hu.
  rewrite explicitValid_at_exact by lia. cbn [fst snd]. unfold canon.
  assert (Hq : Z.quot (Inception rr - utc) (2^31)
               <= Z.quot (Expiration rr - utc) (2^31)).
  { apply Z.quot_le_mono; [reflexivity|lia]. }
  change (2^31) with 2147483648 in *. lia.
Qed.

Lemma explicitValid_order_witness :
  fst (Scan.explicitValid_at 1700000000
         (Fixture.sigBy Fixture.zone Fixture.keyA 1600000000 4294967295))
  <= snd (Scan.explicitValid_at 1700000000
            (Fixture.sigBy Fixture.zone Fixture.keyA 1600000000 4294967295)).
Proof.
  apply explicitValid_order; cbn; lia.
Defined.

(** ** The key map that [LookupDNSKEY] builds *)

Section KeyMap.

Variable w : World.

(** What the loop of [LookupDNSKEY] does to the key map: entries under
    other tags stay, no tag is lost, and every entry is one it started
    with or a key of the answer under its own tag. *)
Lemma LookupDNSKEY_loop_map (answers : list RR) :
  forall found keyMap,
    let keyMap' := snd (Scan.LookupDNSKEY_loop w answers found keyMap) in
    (forall t,
        (forall r key, In r answers -> Data r = D_DNSKEY key -> KeyTag w key <> t) ->
        keyMap' !! t = keyMap !! t) /\
    (forall t, is_Some (keyMap !! t) -> is_Some (keyMap' !! t)) /\
    (forall t k, keyMap' !! t = Some k ->
        keyMap !! t = Some k \/
        (KeyTag w k = t /\ exists r, In r answers /\ Data r = D_DNSKEY k)).
Proof.
  induction answers as [|a rest IH]; intros found keyMap.
  - cbn. split; [reflexivity|]. split; [tauto|]. intros t k H. left. exact H.
  - cbn zeta. cbn [Scan.LookupDNSKEY_loop].
    assert (Hother : forall found',
      (forall key, Data a <> D_DNSKEY key) ->
      let keyMap' := snd (Scan.LookupDNSKEY_loop w rest found' keyMap) in
      (forall t,
          (forall r key, In r (a :: rest) -> Data r = D_DNSKEY key ->
                         KeyTag w key <> t) ->
          keyMap' !! t = keyMap !! t) /\
      (forall t, is_Some (keyMap !! t) -> is_Some (keyMap' !! t)) /\
      (forall t k, keyMap' !! t = Some k ->
          keyMap !! t = Some k \/
          (KeyTag w k = t /\ exists r, In r (a :: rest) /\ Data r = D_DNSKEY k))).
    { intros found' Hno. destruct (IH found' keyMap) as (H1 & H2 & H3).
      cbn zeta. split; [|split].
      - intros t Ht. apply H1. intros r key Hin. apply Ht. right. exact Hin.
      - exact H2.
      - intros t k Hk. destruct (H3 t k Hk) as [H|(Ht & r & Hin & Hd)];
          [left; exact H|right].
        split; [exact Ht|]. exists r. split; [right; exact Hin|exact Hd]. }
    destruct (Data a) as [ | | |key| | | ] eqn:Ha;
      try (apply Hother; intros key' Hc; discriminate Hc).
    assert (Hgo :
      let keyMap' := snd (Scan.LookupDNSKEY_loop w rest true
                            (<[KeyTag w key := key]> keyMap)) in
      (forall t,
          (forall r key0, In r (a :: rest) -> Data r = D_DNSKEY key0 ->
                          KeyTag w key0 <> t) ->
          keyMap' !! t = keyMap !! t) /\
      (forall t, is_Some (keyMap !! t) -> is_Some (keyMap' !! t)) /\
      (forall t k, keyMap' !! t = Some k ->
          keyMap !! t = Some k \/
          (KeyTag w k = t /\ exists r, In r (a :: rest) /\ Data r = D_DNSKEY k))).
    { destruct (IH true (<[KeyTag w key := key]> keyMap)) as (H1 & H2 & H3).
      cbn zeta. split; [|split].
      - intros t Ht. rewrite H1.
        + apply lookup_insert_ne. apply (Ht a key (or_introl eq_refl) Ha).
        + intros r key0 Hin. apply Ht. right. exact Hin.
      - intros t Hs. apply H2.
        destruct (decide (KeyTag w key = t)) as [<-|Hne].
        + rewrite lookup_insert_eq. eexists. reflexivity.
        + rewrite lookup_insert_ne by exact Hne. exact Hs.
      - intros t k Hk. destruct (H3 t k Hk) as [H|(Ht & r & Hin & Hd)].
        + destruct (decide (KeyTag w key = t)) as [<-|Hne].
          * rewrite lookup_insert_eq in H. inversion H; subst k.
            right. split; [reflexivity|].
            exists a. split; [left; reflexivity|exact Ha].
          * rewrite lookup_insert_ne in H by exact Hne. left. exact H.
        + right. split; [exact Ht|].
          exists r. split; [right; exact Hin|exact Hd]. }
    destruct (keyMap !! KeyTag w key) as [exist_|] eqn:Hl; [|exact Hgo].
    destruct (negb (String.eqb (PublicKey key) (PublicKey exist_)));
      [|exact Hgo].
    cbn [snd]. split; [reflexivity|]. split; [tauto|].
    intros t k H. left. exact H.
Qed.

(** The flag of the loop: set when a DNSKEY record has been met. *)
Lemma LookupDNSKEY_loop_found (answers : list RR) :
  forall found keyMap f keyMap',
    Scan.LookupDNSKEY_loop w answers found keyMap = (Go f, keyMap') ->
    (f = true <-> found = true \/ exists r, In r answers /\ isDNSKEY r = true) /\
    ((forall r, In r answers -> isDNSKEY r = false) -> keyMap' = keyMap).
Proof.
  induction answers as [|a rest IH]; intros found keyMap f keyMap' H.
  - inversion H; subst. split; [|reflexivity]. split; [tauto|].
    intros [Hf|(r & [] & _)]. exact Hf.
  - cbn [Scan.LookupDNSKEY_loop] in H.
    assert (Hother : isDNSKEY a = false ->
              Scan.LookupDNSKEY_loop w rest found keyMap = (Go f, keyMap') ->
              (f = true <->
               found = true \/ exists r, In r (a :: rest) /\ isDNSKEY r = true) /\
              ((forall r, In r (a :: rest) -> isDNSKEY r = false) ->
               keyMap' = keyMap)).
    { intros Ha H'. apply IH in H'. destruct H' as [H1 H2]. split.
      - rewrite H1. split.
        + intros [Hf|(r & Hin & Hr)]; [left; exact Hf|right].
          exists r. split; [right; exact Hin|exact Hr].
        + intros [Hf|(r & [Hin|Hin] & Hr)]; [left; exact Hf| |].
          * subst r. congruence.
          * right. exists r. split; assumption.
      - intros Hno. apply H2. intros r Hin. apply Hno. right. exact Hin. }
    destruct (Data a) as [ | | |key| | | ] eqn:Ha;
      try (apply Hother; [unfold isDNSKEY; rewrite Ha; reflexivity|exact H]).
    assert (Hkey : isDNSKEY a = true) by (unfold isDNSKEY; rewrite Ha; reflexivity).
    assert (Hgo : Scan.LookupDNSKEY_loop w rest true
                    (<[KeyTag w key := key]> keyMap) = (Go f, keyMap') ->
              (f = true <->
               found = true \/ exists r, In r (a :: rest) /\ isDNSKEY r = true) /\
              ((forall r, In r (a :: rest) -> isDNSKEY r = false) ->
               keyMap' = keyMap)).
    { intros H'. apply IH in H'. destruct H' as [H1 _]. split.
      - split; [|intros _; apply H1; left; reflexivity].
        intros _. right. exists a. split; [left; reflexivity|exact Hkey].
      - intros Hno. specialize (Hno a (or_introl eq_refl)). congruence. }
    destruct (keyMap !! KeyTag w key) as [exist_|]; [|exact (Hgo H)].
    destruct (negb (String.eqb (PublicKey key) (PublicKey exist_)));
      [discriminate H|exact (Hgo H)].
Qed.

End KeyMap.

(** X12.  When [LookupDNSKEY] returns a nil error together with a
    message, the answer held a DNSKEY record, every DNSKEY of the answer
    is in the key map (an entry under its key tag with its public key),
    and the entries under the key tags of no DNSKEY of the answer are as
    they were. *)
Theorem LookupDNSKEY_stores (w : World) (domain nsip : string)
    (keyMap : gmap Z DNSKEY) (st : St) (res : Response)
    (keyMap' : gmap Z DNSKEY) (st' : St) (m : Msg) :
  Scan.LookupDNSKEY w domain nsip keyMap st = Returns (res, None, keyMap') st' ->
  Resp_Msg res = Some m ->
  (exists r, In r (Answer m) /\ isDNSKEY r = true) /\
  (forall r key, In r (Answer m) -> Data r = D_DNSKEY key ->
                 represented w keyMap' key) /\
  (forall t,
      (forall r key, In r (Answer m) -> Data r = D_DNSKEY key ->
                     KeyTag w key <> t) ->
      keyMap' !! t = keyMap !! t).
Proof.
  intros H Hm. rewrite LookupDNSKEY_eq in H.
  destruct (Exchange w (trace st) domain TypeDNSKEY nsip true) as [m0|e].
  2:{ inversion H; subst. discriminate Hm. }
  pose proof (LookupDNSKEY_loop_spec w (Answer m0) false keyMap
                (fun _ => False) ltac:(intros k [])) as Hspec.
  pose proof (LookupDNSKEY_loop_map w (Answer m0) false keyMap) as Hmap.
  pose proof (LookupDNSKEY_loop_found w (Answer m0) false keyMap) as Hfound.
  destruct (Scan.LookupDNSKEY_loop w (Answer m0) false keyMap)
    as [[e|found] km1]; [inversion H|].
  destruct found; cbn [negb] in H; inversion H; subst.
  cbn [Resp_Msg] in Hm. inversion Hm; subst m0.
  destruct (Hfound true keyMap' eq_refl) as [[Hf _] _].
  cbn zeta in Hmap. cbn [snd] in Hmap. destruct Hmap as (Hframe & _ & _).
  split; [|split].
  - destruct (Hf eq_refl) as [Hx|Hx]; [discriminate Hx|exact Hx].
  - intros r key Hin Hd. apply Hspec. right. exists r. split; assumption.
  - exact Hframe.
Qed.

Lemma LookupDNSKEY_stores_witness :
  represented Fixture.signedZone Fixture.keyMapA Fixture.keyA.
Proof.
  destruct (LookupDNSKEY_stores Fixture.signedZone Fixture.zone Fixture.ip1
              ∅ Fixture.st0
              (mkResponse (Some (mkMsg Fixture.goodSet)))
              Fixture.keyMapA
              (final (Scan.LookupDNSKEY Fixture.signedZone Fixture.zone
                        Fixture.ip1 ∅ Fixture.st0))
              (mkMsg Fixture.goodSet))
    as (_ & H & _).
  - vm_compute. reflexivity.
  - reflexivity.
  - apply (H (Fixture.rr Fixture.zone TypeDNSKEY (D_DNSKEY Fixture.keyA))).
    + left. reflexivity.
    + reflexivity.
Defined.

(** The loop of [LookupDNSKEY] ends on an error only at a DNSKEY. *)
Lemma LookupDNSKEY_loop_return (w : World) (answers : list RR) :
  forall found keyMap e keyMap',
    Scan.LookupDNSKEY_loop w answers found keyMap = (Return_ e, keyMap') ->
    exists r, In r answers /\ isDNSKEY r = true.
Proof.
  induction answers as [|a rest IH]; intros found keyMap e keyMap' H;
    [discriminate H|].
  destruct (isDNSKEY a) eqn:Ha.
  - exists a. split; [left; reflexivity|exact Ha].
  - cbn [Scan.LookupDNSKEY_loop] in H. unfold isDNSKEY in Ha.
    destruct (Data a); try discriminate Ha;
      (apply IH in H; destruct H as (r & Hin & Hr);
       exists r; split; [right; exact Hin|exact Hr]).
Qed.

(** X13.  An error of [LookupDNSKEY] is never the transport's: it comes
    with an answered query, and it is the inconsistency error, or the
    no-DNSKEY error, the latter exactly for an answer without any DNSKEY
    record, and then with the key map as it was. *)
Theorem LookupDNSKEY_errors (w : World) (domain nsip : string)
    (keyMap : gmap Z DNSKEY) (st : St) (res : Response) (e : error)
    (keyMap' : gmap Z DNSKEY) (st' : St) :
  Scan.LookupDNSKEY w domain nsip keyMap st
  = Returns (res, Some e, keyMap') st' ->
  exists m,
    Exchange w (trace st) domain TypeDNSKEY nsip true = inl m /\
    Resp_Msg res = Some m /\
    ((e = InconsistentKeys /\ exists r, In r (Answer m) /\ isDNSKEY r = true) \/
     (e = NoDNSKEY domain nsip /\ keyMap' = keyMap /\
      forall r, In r (Answer m) -> isDNSKEY r = false)).
Proof.
  intros H. rewrite LookupDNSKEY_eq in H.
  destruct (Exchange w (trace st) domain TypeDNSKEY nsip true) as [m|d];
    [|inversion H].
  exists m. split; [reflexivity|].
  pose proof (LookupDNSKEY_loop_spec w (Answer m) false keyMap
                (fun _ => False) ltac:(intros k [])) as Hspec.
  pose proof (LookupDNSKEY_loop_found w (Answer m) false keyMap) as Hfound.
  pose proof (LookupDNSKEY_loop_return w (Answer m) false keyMap) as Hret.
  destruct (Scan.LookupDNSKEY_loop w (Answer m) false keyMap)
    as [[e0|found] km1].
  - inversion H; subst. split; [reflexivity|]. left. split; [reflexivity|].
    apply (Hret InconsistentKeys keyMap'). reflexivity.
  - destruct (Hfound found km1 eq_refl) as [Hf Hsame].
    destruct found; cbn [negb] in H; inversion H; subst.
    split; [reflexivity|]. right. split; [reflexivity|].
    assert (Hno : forall r, In r (Answer m) -> isDNSKEY r = false).
    { intros r Hin. destruct (isDNSKEY r) eqn:Hr; [|reflexivity].
      destruct Hf as [_ Hf]. exfalso.
      assert (false = true) by (apply Hf; right; exists r; split; assumption).
      discriminate. }
    split; [apply Hsame; exact Hno|exact Hno].
Qed.

Lemma LookupDNSKEY_errors_witness :
  exists m,
    Exchange Fixture.disagree [] Fixture.zone TypeDNSKEY Fixture.ip2 true
    = inl m /\
    exists r, In r (Answer m) /\ isDNSKEY r = true.
Proof.
  destruct (LookupDNSKEY_errors Fixture.disagree Fixture.zone Fixture.ip2
              Fixture.keyMapA Fixture.st0
              (mkResponse
                 (Some (mkMsg
                    [Fixture.rr Fixture.zone TypeDNSKEY (D_DNSKEY Fixture.keyB);
                     Fixture.rr Fixture.zone TypeRRSIG
                       (D_RRSIG (Fixture.sigBy Fixture.zone Fixture.keyB
                                   1600000000 1800000000))])))
              InconsistentKeys Fixture.keyMapA
              (final (Scan.LookupDNSKEY Fixture.disagree Fixture.zone
                        Fixture.ip2 Fixture.keyMapA Fixture.st0)))
    as (m & Hm & _ & [[_ H]|[H _]]).
  - vm_compute. reflexivity.
  - exists m. split; [exact Hm|exact H].
  - discriminate H.
Defined.

(** X14.  [LookupDNSKEY] never takes a key tag out of the key map:
    whatever it returns, a tag that had an entry has one afterwards. *)
Theorem LookupDNSKEY_keeps_tags (w : World) (domain nsip : string)
    (keyMap : gmap Z DNSKEY) (st : St) (t : Z) :
  is_Some (keyMap !! t) ->
  match Scan.LookupDNSKEY w domain nsip keyMap st with
  | Returns (_, _, keyMap') _ => is_Some (keyMap' !! t)
  | Panics _ => False
  end.
Proof.
  intros Hs. rewrite LookupDNSKEY_eq.
  destruct (Exchange w (trace st) domain TypeDNSKEY nsip true) as [m|e];
    [|exact Hs].
  pose proof (LookupDNSKEY_loop_map w (Answer m) false keyMap) as Hmap.
  cbn zeta in Hmap. destruct Hmap as (_ & Hkeep & _).
  destruct (Scan.LookupDNSKEY_loop w (Answer m) false keyMap)
    as [[e|found] km1]; cbn [snd] in Hkeep.
  - apply Hkeep. exact Hs.
  - destruct (negb found); apply Hkeep; exact Hs.
Qed.

Lemma LookupDNSKEY_keeps_tags_witness :
  match Scan.LookupDNSKEY Fixture.disagree Fixture.zone Fixture.ip2
          Fixture.keyMapA Fixture.st0 with
  | Returns (_, _, keyMap') _ => is_Some (keyMap' !! 261)
  | Panics _ => False
  end.
Proof.
  apply (LookupDNSKEY_keeps_tags Fixture.disagree Fixture.zone Fixture.ip2
           Fixture.keyMapA Fixture.st0 261).
  exists Fixture.keyA. vm_compute. reflexivity.
Defined.

(** ** The DS phase: the flag, the break, success *)

Section DSMore.

Variable w : World.
Variable domain : string.
Variable keyMap : gmap Z DNSKEY.

Lemma validateParentDS_answers_flag (answers : list RR) :
  forall found f,
    Scan.validateParentDS_answers w keyMap answers found = Go f ->
    (f = true <-> found = true \/ exists r, In r answers /\ compared keyMap r).
Proof.
  induction answers as [|a rest IH]; intros found f H.
  - inversion H; subst. split; [tauto|].
    intros [Hf|(r & [] & _)]. exact Hf.
  - cbn [Scan.validateParentDS_answers] in H.
    assert (Hother : ~ compared keyMap a ->
              Scan.validateParentDS_answers w keyMap rest found = Go f ->
              (f = true <->
               found = true \/ exists r, In r (a :: rest) /\ compared keyMap r)).
    { intros Ha H'. apply IH in H'. rewrite H'. split.
      - intros [Hf|(r & Hin & Hr)]; [left; exact Hf|right].
        exists r. split; [right; exact Hin|exact Hr].
      - intros [Hf|(r & [Hin|Hin] & Hr)]; [left; exact Hf| |].
        + subst r. contradiction.
        + right. exists r. split; assumption. }
    assert (Hset : compared keyMap a ->
              Scan.validateParentDS_answers w keyMap rest true = Go f ->
              (f = true <->
               found = true \/ exists r, In r (a :: rest) /\ compared keyMap r)).
    { intros Ha H'. apply IH in H'. split.
      - intros _. right. exists a. split; [left; reflexivity|exact Ha].
      - intros _. apply H'. left. reflexivity. }
    destruct (Data a) as [ | | | |ds| | ] eqn:Hd;
      try (apply Hother;
           [intros (ds' & key' & Hc & _); rewrite Hd in Hc; discriminate Hc
           |exact H]).
    destruct (keyMap !! DS_KeyTag ds) as [key|] eqn:Hl.
    2:{ apply Hother; [|exact H].
        intros (ds' & key' & Hc & Hl' & _). rewrite Hd in Hc.
        inversion Hc; subst ds'. rewrite Hl in Hl'. discriminate Hl'. }
    destruct (DigestType ds =? 3) eqn:Ht.
    { apply Hother; [|exact H].
      intros (ds' & key' & Hc & _ & Hne). rewrite Hd in Hc.
      inversion Hc; subst ds'. apply Z.eqb_eq in Ht. contradiction. }
    assert (Hcmp : compared keyMap a).
    { exists ds, key. split; [exact Hd|]. split; [exact Hl|].
      apply Z.eqb_neq. exact Ht. }
    destruct (ToDS w key (DigestType ds)) as [childDS|]; [|exact (Hset Hcmp H)].
    destruct (String.eqb (Digest ds) (Digest childDS));
      [exact (Hset Hcmp H)|discriminate H].
Qed.

(** How the loops of the DS phase end, and what a raised flag means. *)
Lemma validateParentDS_ips_flag (ips : list IP) :
  forall found st c st',
    Scan.validateParentDS_ips w domain keyMap ips found st = Returns c st' ->
    exists evs,
      trace st' = evs ++ trace st /\
      match c with
      | Return_ r => r = (false, None) \/ exists nsip, r = (false, Some (NoDS domain nsip))
      | Go f => f = true -> found = true \/ ds_compared_received keyMap domain evs
      end.
Proof.
  induction ips as [|nsip rest IH]; intros found st c st' H.
  - inversion H; subst. exists []. split; [reflexivity|]. intros Hf. left. exact Hf.
  - rewrite validateParentDS_ips_cons in H. cbv zeta in H.
    destruct (Exchange w (trace st) domain TypeDS nsip true) as [m|e].
    + set (ev := EvExchange domain TypeDS nsip true (inl m)) in *.
      destruct (length (Answer m) =? 0)%nat.
      * inversion H; subst. exists [ev]. split; [reflexivity|].
        right. exists nsip. reflexivity.
      * destruct (Scan.validateParentDS_answers w keyMap (Answer m) found)
          as [r|f1] eqn:Ea.
        -- inversion H; subst. exists [ev]. split; [reflexivity|].
           left. apply (validateParentDS_answers_return _ _ _ _ _ Ea).
        -- apply IH in H. destruct H as (evs & Ht & Hc).
           exists (evs ++ [ev]). split.
           { rewrite Ht. cbn [trace]. rewrite <- app_assoc. reflexivity. }
           destruct c as [r|f]; [exact Hc|].
           intros Hf. destruct (Hc Hf) as [Hf1|(srv & m' & r & Hin & Hr)].
           ++ apply (validateParentDS_answers_flag _ _ _ Ea) in Hf1.
              destruct Hf1 as [Hfound|(r & Hin & Hr)]; [left; exact Hfound|].
              right. exists nsip, m, r.
              split; [apply in_or_app; right; left; reflexivity|].
              split; assumption.
           ++ right. exists srv, m', r.
              split; [apply in_or_app; left; exact Hin|exact Hr].
    + inversion H; subst. eexists [_]. split; [reflexivity|].
      intros Hf. left. exact Hf.
Qed.

Lemma validateParentDS_nss_flag (nsdata : list NSInfo) :
  forall found st c st',
    Scan.validateParentDS_nss w domain keyMap nsdata found st = Returns c st' ->
    exists evs,
      trace st' = evs ++ trace st /\
      match c with
      | Return_ r => r = (false, None) \/ exists nsip, r = (false, Some (NoDS domain nsip))
      | Go f => f = true -> found = true \/ ds_compared_received keyMap domain evs
      end.
Proof.
  induction nsdata as [|ns rest IH]; intros found st c st' H.
  - inversion H; subst. exists []. split; [reflexivity|]. intros Hf. left. exact Hf.
  - cbn [Scan.validateParentDS_nss] in H. unfold bind in H.
    destruct (Scan.validateParentDS_ips w domain keyMap (NS_IP ns) found st)
      as [c1 s1|s1] eqn:E1; [|discriminate H].
    apply validateParentDS_ips_flag in E1. destruct E1 as (evs1 & Ht1 & Hc1).
    destruct c1 as [r|f1].
    + inversion H; subst. exists evs1. split; [exact Ht1|exact Hc1].
    + apply IH in H. destruct H as (evs2 & Ht2 & Hc2).
      exists (evs2 ++ evs1). split; [rewrite Ht2, Ht1; apply app_assoc|].
      destruct c as [r|f]; [exact Hc2|].
      intros Hf. destruct (Hc2 Hf) as [Hf1|(srv & m & r & Hin & Hr)].
      * destruct (Hc1 Hf1) as [Hfound|(srv & m & r & Hin & Hr)];
          [left; exact Hfound|right].
        exists srv, m, r. split; [apply in_or_app; right; exact Hin|exact Hr].
      * right. exists srv, m, r.
        split; [apply in_or_app; left; exact Hin|exact Hr].
Qed.

(** Every way [validateParentDS] returns; a success has seen a DS record
    taken into account. *)
Lemma validateParentDS_returns (st : St) (res : bool * option error) (st' : St) :
  Scan.validateParentDS w domain keyMap st = Returns res st' ->
  exists evs,
    trace st' = evs ++ EvEnterParentDS domain keyMap :: trace st /\
    (res = (false, None) \/
     (exists nsip, res = (false, Some (NoDS domain nsip))) \/
     res = (false, Some (NoMatchingKeyTag domain (Scan.getParentDomain domain))) \/
     (res = (true, None) /\ ds_compared_received keyMap domain evs)).
Proof.
  unfold Scan.validateParentDS, bind, logEvent, Scan.FindNS. intros H.
  set (st1 := mkSt (ticks st) (EvEnterParentDS domain keyMap :: trace st)) in *.
  destruct (findNS_adds w (Scan.getParentDomain domain) st1) as (evsF & HtF & _).
  destruct (Main.findNS w (Scan.getParentDomain domain) st1)
    as [[nsdata err] s2|s2]; [|discriminate H]. cbn [final] in HtF.
  destruct (Scan.validateParentDS_nss w domain keyMap nsdata false s2)
    as [c s3|s3] eqn:EL; [|discriminate H].
  apply validateParentDS_nss_flag in EL. destruct EL as (evsL & HtL & Hc).
  assert (Htrace : trace s3 = (evsL ++ evsF) ++ EvEnterParentDS domain keyMap :: trace st).
  { rewrite HtL, HtF. cbn [st1 trace]. rewrite <- app_assoc. reflexivity. }
  destruct c as [r|f].
  - inversion H; subst. exists (evsL ++ evsF). split; [exact Htrace|].
    destruct Hc as [->|Hno]; [left; reflexivity|right; left; exact Hno].
  - destruct f; cbn [negb] in H; inversion H; subst;
      exists (evsL ++ evsF); (split; [exact Htrace|]).
    + right. right. right. split; [reflexivity|].
      destruct (Hc eq_refl) as [Hx|(srv & m & r & Hin & Hr)]; [discriminate Hx|].
      exists srv, m, r. split; [apply in_or_app; left; exact Hin|exact Hr].
    + right. right. left. reflexivity.
Qed.

End DSMore.

(** X15.  The flag of the DS phase is only ever raised: when the loop over
    the answers of a server goes on, the flag is set exactly if it was set
    before or an answer was a DS record with a key tag of the key map and
    a digest type other than 3. *)
Theorem foundKeyTag_raised (w : World) (keyMap : gmap Z DNSKEY)
    (answers : list RR) (found f : bool) :
  Scan.validateParentDS_answers w keyMap answers found = Go f ->
  (f = true <-> found = true \/ exists r, In r answers /\ compared keyMap r).
Proof. apply validateParentDS_answers_flag. Qed.

Lemma foundKeyTag_raised_witness :
  true = true <->
  false = true \/
  exists r,
    In r [Fixture.rr Fixture.zone TypeDS
            (D_DS (mkDS (Fixture.fx_KeyTag Fixture.keyA) 8 2 "H(AAAA)"))] /\
    compared Fixture.keyMapA r.
Proof.
  apply (foundKeyTag_raised Fixture.signedZone Fixture.keyMapA).
  vm_compute. reflexivity.
Defined.

(** X16.  A DS query that fails at the wire layer ends the loop over the
    addresses of that parent nameserver: its remaining addresses are not
    asked, and the DS phase goes on with the next nameserver. *)
Theorem validateParentDS_break (w : World) (domain : string)
    (keyMap : gmap Z DNSKEY) (ns : NSInfo) (nsip : IP) (more : list IP)
    (rest : list NSInfo) (found : bool) (st : St) (e : string) :
  NS_IP ns = nsip :: more ->
  Exchange w (trace st) domain TypeDS nsip true = inr e ->
  Scan.validateParentDS_nss w domain keyMap (ns :: rest) found st
  = Scan.validateParentDS_nss w domain keyMap rest found
      (mkSt (ticks st)
            (EvExchange domain TypeDS nsip true (inr e) :: trace st)).
Proof.
  intros Hip He. cbn [Scan.validateParentDS_nss]. unfold bind.
  rewrite Hip, validateParentDS_ips_cons. cbv zeta. rewrite He. reflexivity.
Qed.

Lemma validateParentDS_break_witness :
  Scan.validateParentDS_nss Fixture.plain Fixture.zone ∅
    [mkNSInfo Fixture.pns1 [Fixture.pip1; Fixture.pip2]] false Fixture.st0
  = Scan.validateParentDS_nss Fixture.plain Fixture.zone ∅ [] false
      (mkSt 0 [EvExchange Fixture.zone TypeDS Fixture.pip1 true
                 (inr "i/o timeout"%string)]).
Proof.
  apply (validateParentDS_break Fixture.plain Fixture.zone ∅
           (mkNSInfo Fixture.pns1 [Fixture.pip1; Fixture.pip2])
           Fixture.pip1 [Fixture.pip2] [] false Fixture.st0 "i/o timeout").
  - reflexivity.
  - reflexivity.
Defined.

(** X17.  When NS discovery finds no nameserver for the parent (its NS
    query fails, or is answered without an NS record), [validateParentDS]
    makes no DS query and fails with the no-matching-key-tag error,
    whatever the key map holds. *)
Theorem validateParentDS_no_nameservers (w : World) (domain : string)
    (keyMap : gmap Z DNSKEY) (st : St) :
  match Exchange w (EvEnterParentDS domain keyMap :: trace st)
          (Scan.getParentDomain domain) TypeNS Main.resolver false with
  | inr _ => True
  | inl m => Main.extractRR (Answer m) TypeNS = []
  end ->
  Scan.validateParentDS w domain keyMap st
  = Returns (false, Some (NoMatchingKeyTag domain (Scan.getParentDomain domain)))
      (mkSt (ticks st)
            (EvExchange (Scan.getParentDomain domain) TypeNS Main.resolver false
               (Exchange w (EvEnterParentDS domain keyMap :: trace st)
                  (Scan.getParentDomain domain) TypeNS Main.resolver false)
             :: EvEnterParentDS domain keyMap :: trace st)).
Proof.
  intros H.
  unfold Scan.validateParentDS, bind, logEvent, Scan.FindNS.
  unfold Main.findNS, Main.queryRRset, bind. rewrite Main_query_eq.
  cbn [trace ticks] in *.
  destruct (Exchange w (EvEnterParentDS domain keyMap :: trace st)
              (Scan.getParentDomain domain) TypeNS Main.resolver false) as [m|e];
    [|reflexivity].
  rewrite H. reflexivity.
Qed.

Lemma validateParentDS_no_nameservers_witness :
  Scan.validateParentDS Fixture.plain "www.nowhere." Fixture.keyMapA Fixture.st0
  = Returns (false, Some (NoMatchingKeyTag "www.nowhere." "nowhere."))
      (mkSt 0
         [EvExchange "nowhere." TypeNS Main.resolver false
            (inr "i/o timeout"%string);
          EvEnterParentDS "www.nowhere." Fixture.keyMapA]).
Proof.
  apply (validateParentDS_no_nameservers Fixture.plain "www.nowhere."
           Fixture.keyMapA Fixture.st0).
  exact I.
Defined.

(** X18.  [validateParentDS] returns [true] only with a nil error, and
    only if an answer to one of its DS queries held a DS record with a key
    tag of the key map and a digest type other than 3, and no answer held
    a record whose digest differs from the one derived from the child
    key. *)
Theorem validateParentDS_success (w : World) (domain : string)
    (keyMap : gmap Z DNSKEY) (st : St) (err : option error) (st' : St)
    (evs : list Event) :
  Scan.validateParentDS w domain keyMap st = Returns (true, err) st' ->
  trace st' = evs ++ trace st ->
  err = None /\
  ds_compared_received keyMap domain evs /\
  ~ ds_mismatch_received w keyMap domain evs.
Proof.
  intros H Ht.
  destruct (validateParentDS_returns w domain keyMap st _ _ H)
    as (evs0 & Ht0 & Hres).
  assert (Hevs : evs = evs0 ++ [EvEnterParentDS domain keyMap]).
  { apply (app_inv_tail (trace st)). rewrite <- Ht, Ht0, <- app_assoc.
    reflexivity. }
  destruct Hres as [Hr|[(nsip & Hr)|[Hr|[Hr Hc]]]]; try discriminate Hr.
  inversion Hr; subst err. split; [reflexivity|]. split.
  - destruct Hc as (srv & m & r & Hin & Hrr). exists srv, m, r.
    split; [rewrite Hevs; apply in_or_app; left; exact Hin|exact Hrr].
  - intros Hmis.
    destruct (validateParentDS_spec w domain keyMap st) as (evs1 & Ht1 & _ & Hm & _).
    rewrite H in Ht1. cbn [final] in Ht1.
    rewrite Ht in Ht1. apply app_inv_tail in Ht1. subst evs1.
    destruct (Hm Hmis) as [s E]. rewrite H in E. discriminate E.
Qed.

Lemma validateParentDS_success_witness :
  ds_compared_received Fixture.keyMapA Fixture.zone
    (trace (final (Scan.validateParentDS Fixture.signedZone Fixture.zone
                     Fixture.keyMapA Fixture.st0))).
Proof.
  refine (proj1 (proj2 (validateParentDS_success Fixture.signedZone Fixture.zone
            Fixture.keyMapA Fixture.st0 None
            (final (Scan.validateParentDS Fixture.signedZone Fixture.zone
                      Fixture.keyMapA Fixture.st0))
            (trace (final (Scan.validateParentDS Fixture.signedZone Fixture.zone
                             Fixture.keyMapA Fixture.st0)))
            _ _))).
  - vm_compute. reflexivity.
  - vm_compute. reflexivity.
Defined.

(** ** One zone, and the chain: every way of returning *)

Section ZoneMore.

Variable w : World.
Variable domain : string.

Lemma received_later (evs1 evs0 : list Event) (k : DNSKEY) :
  received domain evs0 k -> received domain (evs1 ++ evs0) k.
Proof. intros H. apply received_app. right. exact H. Qed.

Lemma sourced_later (keyMap : gmap Z DNSKEY) (evs1 evs0 : list Event) :
  sourced w domain keyMap evs0 -> sourced w domain keyMap (evs1 ++ evs0).
Proof.
  intros H t k Hk. destruct (H t k Hk) as [Ht Hr].
  split; [exact Ht|apply received_later; exact Hr].
Qed.

(** How the loops of the DNSKEY phase end: on one of the errors of the
    phase, or with a key map made of keys received. *)
Lemma validateDomain_ips_shape (ips : list IP) :
  forall keyMap st c st',
    Scan.validateDomain_ips w domain ips keyMap st = Returns c st' ->
    exists evs,
      trace st' = evs ++ trace st /\
      match c with
      | Return_ r => exists e, r = (false, Some e) /\ zone_error domain e
      | Go keyMap' =>
          forall evs0, sourced w domain keyMap evs0 ->
                       sourced w domain keyMap' (evs ++ evs0)
      end.
Proof.
  induction ips as [|nsip rest IH]; intros keyMap st c st' H.
  - inversion H; subst. exists []. split; [reflexivity|].
    intros evs0 Hs. exact Hs.
  - rewrite validateDomain_ips_cons in H. cbv zeta in H.
    assert (Hnext : forall ev keyMap1 s2,
              trace s2 = ev :: trace st ->
              (forall evs0, sourced w domain keyMap evs0 ->
                            sourced w domain keyMap1 (ev :: evs0)) ->
              Scan.validateDomain_ips w domain rest keyMap1 s2 = Returns c st' ->
              exists evs,
                trace st' = evs ++ trace st /\
                match c with
                | Return_ r => exists e, r = (false, Some e) /\ zone_error domain e
                | Go keyMap' =>
                    forall evs0, sourced w domain keyMap evs0 ->
                                 sourced w domain keyMap' (evs ++ evs0)
                end).
    { intros ev keyMap1 s2 Hs2 Hsrc H'. apply IH in H'.
      destruct H' as (evs & Ht & Hc). exists (evs ++ [ev]). split.
      - rewrite Ht, Hs2, <- app_assoc. reflexivity.
      - destruct c as [r|km']; [exact Hc|].
        intros evs0 Hs. rewrite <- app_assoc. apply Hc. apply Hsrc. exact Hs. }
    destruct (Exchange w (trace st) domain TypeDNSKEY nsip true) as [m|e].
    + set (ev := EvExchange domain TypeDNSKEY nsip true (inl m)) in *.
      pose proof (LookupDNSKEY_loop_spec w (Answer m) false keyMap
                    (fun _ => False) ltac:(intros k [])) as Hspec.
      pose proof (LookupDNSKEY_loop_map w (Answer m) false keyMap) as Hmap.
      destruct (Scan.LookupDNSKEY_loop w (Answer m) false keyMap)
        as [[e|found] keyMap1].
      * subst e. inversion H; subst. exists [ev]. split; [reflexivity|].
        exists InconsistentKeys. split; [reflexivity|]. left. reflexivity.
      * cbn zeta in Hmap. cbn [snd] in Hmap. destruct Hmap as (_ & _ & Hsrc).
        assert (Hsrc1 : forall evs0, sourced w domain keyMap evs0 ->
                                     sourced w domain keyMap1 (ev :: evs0)).
        { intros evs0 Hs t k Hk.
          destruct (Hsrc t k Hk) as [Hold|(Ht & r & Hin & Hd)].
          - destruct (Hs t k Hold) as [Ht Hr]. split; [exact Ht|].
            apply (received_later [ev]). exact Hr.
          - split; [exact Ht|]. exists nsip, m, r.
            split; [left; reflexivity|]. split; assumption. }
        destruct found; cbn [negb] in H.
        -- pose proof (validateRRSIG_trace w (Answer m) (Answer m)
                         (mkSt (ticks st) (ev :: trace st))) as Htr.
           destruct (Scan.validateRRSIG w (Answer m) (Answer m)
                       (mkSt (ticks st) (ev :: trace st)))
             as [[[valid info] err] s2|s2]; cbn [final trace] in Htr;
             [|discriminate H].
           destruct valid.
           ++ apply (Hnext ev keyMap1 s2 Htr Hsrc1 H).
           ++ inversion H; subst. exists [ev]. split; [exact Htr|].
              eexists. split; [reflexivity|]. right. right. left. reflexivity.
        -- inversion H; subst. exists [ev]. split; [reflexivity|].
           eexists. split; [reflexivity|]. right. left. eexists. reflexivity.
    + apply (Hnext (EvExchange domain TypeDNSKEY nsip true (inr e)) keyMap
               (mkSt (ticks st)
                  (EvExchange domain TypeDNSKEY nsip true (inr e) :: trace st))
               eq_refl); [|exact H].
      intros evs0 Hs. apply (sourced_later keyMap [_]). exact Hs.
Qed.

Lemma validateDomain_nss_shape (nsdata : list NSInfo) :
  forall keyMap st c st',
    Scan.validateDomain_nss w domain nsdata keyMap st = Returns c st' ->
    exists evs,
      trace st' = evs ++ trace st /\
      match c with
      | Return_ r => exists e, r = (false, Some e) /\ zone_error domain e
      | Go keyMap' =>
          forall evs0, sourced w domain keyMap evs0 ->
                       sourced w domain keyMap' (evs ++ evs0)
      end.
Proof.
  induction nsdata as [|ns rest IH]; intros keyMap st c st' H.
  - inversion H; subst. exists []. split; [reflexivity|].
    intros evs0 Hs. exact Hs.
  - cbn [Scan.validateDomain_nss] in H. unfold bind in H.
    destruct (Scan.validateDomain_ips w domain (NS_IP ns) keyMap st)
      as [c1 s1|s1] eqn:E1; [|discriminate H].
    apply validateDomain_ips_shape in E1. destruct E1 as (evs1 & Ht1 & Hc1).
    destruct c1 as [r|keyMap1].
    + inversion H; subst. exists evs1. split; [exact Ht1|exact Hc1].
    + apply IH in H. destruct H as (evs2 & Ht2 & Hc2).
      exists (evs2 ++ evs1). split; [rewrite Ht2, Ht1; apply app_assoc|].
      destruct c as [r|keyMap']; [exact Hc2|].
      intros evs0 Hs. rewrite <- app_assoc. apply Hc2. apply Hc1. exact Hs.
Qed.

(** Every way [validateDomain] returns. *)
Lemma validateDomain_returns (st : St) (res : bool * option error) (st' : St) :
  Scan.validateDomain w domain st = Returns res st' ->
  exists evs,
    trace st' = evs ++ trace st /\
    ((exists e, res = (false, Some e) /\ zone_error domain e) \/
     res = (false, None) \/
     (res = (true, None) /\
      exists keyMap,
        sourced w domain keyMap evs /\
        ds_compared_received keyMap domain evs)).
Proof.
  unfold Scan.validateDomain, bind, Scan.FindNS. intros H.
  destruct (findNS_adds w domain st) as (evsA & HtA & _).
  destruct (Main.findNS w domain st) as [[nsdata err] s1|s1];
    [|discriminate H]. cbn [final] in HtA.
  destruct (Scan.validateDomain_nss w domain nsdata ∅ s1) as [c s2|s2] eqn:E1;
    [|discriminate H].
  apply validateDomain_nss_shape in E1. destruct E1 as (evs1 & Ht1 & Hc1).
  destruct c as [r|keyMap].
  - inversion H; subst. exists (evs1 ++ evsA).
    split; [rewrite Ht1, HtA; apply app_assoc|]. left. exact Hc1.
  - assert (Hsrc : sourced w domain keyMap (evs1 ++ [])).
    { apply Hc1. intros t k Hk. rewrite lookup_empty in Hk. discriminate Hk. }
    rewrite app_nil_r in Hsrc.
    destruct (findNS_adds w (Scan.getParentDomain domain) s2) as (evsB & HtB & _).
    destruct (Main.findNS w (Scan.getParentDomain domain) s2)
      as [[nsdataP errP] s3|s3]; [|discriminate H]. cbn [final] in HtB.
    apply validateParentDS_returns in H. destruct H as (evsC & HtC & Hres).
    exists (evsC ++ [EvEnterParentDS domain keyMap] ++ evsB ++ evs1 ++ evsA).
    split.
    { rewrite HtC, HtB, Ht1, HtA. rewrite <- !app_assoc. reflexivity. }
    destruct Hres as [Hr|[(nsip & Hr)|[Hr|[Hr Hc]]]].
    + right. left. exact Hr.
    + left. eexists. split; [exact Hr|].
      right. right. right. left. exists nsip. reflexivity.
    + left. eexists. split; [exact Hr|].
      right. right. right. right. reflexivity.
    + right. right. split; [exact Hr|]. exists keyMap. split.
      * apply (sourced_later keyMap evsC).
        apply (sourced_later keyMap [EvEnterParentDS domain keyMap]).
        apply (sourced_later keyMap evsB).
        intros t k Hk. destruct (Hsrc t k Hk) as [Ht Hrec].
        split; [exact Ht|]. apply received_app. left. exact Hrec.
      * destruct Hc as (srv & m & r & Hin & Hrr). exists srv, m, r.
        split; [apply in_or_app; left; exact Hin|exact Hrr].
Qed.

End ZoneMore.

(** Every way the loop of [validateChain] returns. *)
Lemma validateChain_loop_returns (w : World) (fuel : nat) :
  forall d st b err st',
    Scan.validateChain_loop w fuel d st = Some (Returns (b, err) st') ->
    (b = true /\ err = None) \/
    (b = false /\
     exists e, err = Some e /\ (e = ChainFailed \/ exists d', zone_error d' e)).
Proof.
  induction fuel as [|fuel IH]; intros d st b err st' H; [discriminate H|].
  cbn [Scan.validateChain_loop] in H.
  destruct (Scan.validateDomain w d st) as [[valid verr] s1|s1] eqn:Ed;
    [|discriminate H].
  destruct verr as [e|].
  - inversion H; subst. right. split; [reflexivity|].
    exists e. split; [reflexivity|]. right. exists d.
    apply validateDomain_returns in Ed.
    destruct Ed as (evs & _ & [(e' & He & Hz)|[Hr|[Hr _]]]);
      try discriminate Hr.
    inversion He; subst. exact Hz.
  - destruct valid; cbn [negb] in H.
    + destruct (String.eqb (Scan.getParentDomain d) ".").
      * inversion H; subst. left. split; reflexivity.
      * apply IH in H. exact H.
    + inversion H; subst. right. split; [reflexivity|].
      exists ChainFailed. split; [reflexivity|left; reflexivity].
Qed.

(** X19.  [validateDomain] returns [true] only with a nil error, and an
    error only with [false]; the error is one of the five it builds
    itself (inconsistent keys, no DNSKEY, DNSKEY set not validated, no DS,
    no matching key tag), never one of the transport or of NS
    discovery. *)
Theorem validateDomain_results (w : World) (domain : string) (st : St)
    (b : bool) (err : option error) (st' : St) :
  Scan.validateDomain w domain st = Returns (b, err) st' ->
  (b = true -> err = None) /\
  (forall e, err = Some e -> b = false /\ zone_error domain e).
Proof.
  intros H. apply validateDomain_returns in H.
  destruct H as (evs & _ & [(e' & He & Hz)|[Hr|[Hr _]]]);
    inversion_clear He || inversion_clear Hr.
  - split; [discriminate|]. intros e Hx. inversion Hx; subst.
    split; [reflexivity|exact Hz].
  - split; [discriminate|]. intros e Hx. discriminate Hx.
  - split; [reflexivity|]. intros e Hx. discriminate Hx.
Qed.

Lemma validateDomain_results_witness :
  false = false /\ zone_error Fixture.zone InconsistentKeys.
Proof.
  refine (proj2 (validateDomain_results Fixture.disagree Fixture.zone Fixture.st0
            false (Some InconsistentKeys)
            (final (Scan.validateDomain Fixture.disagree Fixture.zone Fixture.st0))
            _) InconsistentKeys eq_refl).
  vm_compute. reflexivity.
Defined.

(** X20.  [validateDomain] succeeds only if it received, in an answer to
    one of its DS queries, a DS record of a digest type other than 3
    whose key tag is the key tag of a DNSKEY it received in an answer to
    one of its DNSKEY queries. *)
Theorem validateDomain_success (w : World) (domain : string) (st : St)
    (err : option error) (st' : St) (evs : list Event) :
  Scan.validateDomain w domain st = Returns (true, err) st' ->
  trace st' = evs ++ trace st ->
  exists key srv m r ds,
    received domain evs key /\
    In (EvExchange domain TypeDS srv true (inl m)) evs /\
    In r (Answer m) /\ Data r = D_DS ds /\
    DS_KeyTag ds = KeyTag w key /\ DigestType ds <> 3.
Proof.
  intros H Ht. apply validateDomain_returns in H.
  destruct H as (evs0 & Ht0 & Hres).
  rewrite Ht in Ht0. apply app_inv_tail in Ht0. subst evs0.
  destruct Hres as [(e' & He & _)|[Hr|[_ (keyMap & Hsrc & Hc)]]];
    try discriminate He; try discriminate Hr.
  destruct Hc as (srv & m & r & Hin & Hr & ds & key & Hd & Hl & Hne).
  destruct (Hsrc _ _ Hl) as [Htag Hrec].
  exists key, srv, m, r, ds.
  split; [exact Hrec|]. split; [exact Hin|]. split; [exact Hr|].
  split; [exact Hd|]. split; [symmetry; exact Htag|exact Hne].
Qed.

Lemma validateDomain_success_witness :
  exists key srv m r ds,
    received Fixture.zone
      (trace (final (Scan.validateDomain Fixture.signedZone Fixture.zone
                       Fixture.st0))) key /\
    In (EvExchange Fixture.zone TypeDS srv true (inl m))
      (trace (final (Scan.validateDomain Fixture.signedZone Fixture.zone
                       Fixture.st0))) /\
    In r (Answer m) /\ Data r = D_DS ds /\
    DS_KeyTag ds = KeyTag Fixture.signedZone key /\ DigestType ds <> 3.
Proof.
  refine (validateDomain_success Fixture.signedZone Fixture.zone Fixture.st0
            None
            (final (Scan.validateDomain Fixture.signedZone Fixture.zone
                      Fixture.st0))
            _ _ _).
  - vm_compute. reflexivity.
  - vm_compute. reflexivity.
Defined.

(** X21.  [validateChain] returns [true] with a nil error, or [false]
    with an error, never [false] without one: the error is one of the
    five [validateDomain] builds for a name, or the walker's own general
    error, never one of the transport or of NS discovery. *)
Theorem validateChain_results (w : World) (domain : string) (st : St)
    (b : bool) (err : option error) (st' : St) :
  Scan.validateChain w domain st = Returns (b, err) st' ->
  (b = true /\ err = None) \/
  (b = false /\
   exists e, err = Some e /\ (e = ChainFailed \/ exists d, zone_error d e)).
Proof.
  unfold Scan.validateChain. intros H.
  destruct (Scan.validateChain_loop w (S (String.length domain)) domain st)
    as [o|] eqn:E; [|discriminate H].
  subst o. apply validateChain_loop_returns in E. exact E.
Qed.

Lemma validateChain_results_witness :
  (false = true /\ Some ChainFailed = None) \/
  (false = false /\
   exists e, Some ChainFailed = Some e /\
             (e = ChainFailed \/ exists d, zone_error d e)).
Proof.
  refine (validateChain_results Fixture.alteredDigest Fixture.zone Fixture.st0
            false (Some ChainFailed)
            (final (Scan.validateChain Fixture.alteredDigest Fixture.zone
                      Fixture.st0)) _).
  vm_compute. reflexivity.
Defined.

(** X22.  [validateChain] is [validateDomain] on the name, followed,
    when that succeeds and the parent is not the root, by [validateChain]
    on the parent from the state reached: an error of [validateDomain] is
    returned as it is, with nothing done after it, a [false] without
    error becomes the general error, and with the root as parent the
    walk ends in success without the root being validated. *)
Theorem validateChain_unroll (w : World) (domain : string) (st : St) :
  Scan.validateChain w domain st =
  match Scan.validateDomain w domain st with
  | Panics s' => Panics s'
  | Returns (_, Some e) s' => Returns (false, Some e) s'
  | Returns (false, None) s' => Returns (false, Some ChainFailed) s'
  | Returns (true, None) s' =>
      if String.eqb (Scan.getParentDomain domain) "."
      then Returns (true, None) s'
      else Scan.validateChain w (Scan.getParentDomain domain) s'
  end.
Proof.
  unfold Scan.validateChain at 1. cbn [Scan.validateChain_loop].
  destruct (Scan.validateDomain w domain st) as [[valid err] s'|s'];
    [|reflexivity].
  destruct err as [e|]; [destruct valid; reflexivity|].
  destruct valid; cbn [negb]; [|reflexivity].
  destruct (String.eqb (Scan.getParentDomain domain) ".") eqn:E; [reflexivity|].
  destruct (validateChain_total w (Scan.getParentDomain domain) s')
    as (r & Hfuel & Hr).
  rewrite Hr. rewrite Hfuel; [reflexivity|].
  destruct (getParentDomain_shorter domain) as [H|H].
  - unfold Scan.getParentDomain in E. rewrite H in E. discriminate E.
  - exact H.
Qed.
